(** * Media-server duplicate cleaner: a shallow embedding and its properties

    The development follows the five Python scripts of the repository:

    - [find_media_dupes.py] and [src/find_dupes.py]: the name normalizer
      [clean_media_name], the greedy similarity grouper
      [find_similar_media_folders] and the report writer [write_report];
    - [get_official_paths.py]: container-to-host path translation and the
      class [MediaServerPathLookup] (protected paths, tiered matching);
    - [src/cleanup_dupes.py]: the report parser [parse_report], the size
      reader [format_size_bytes] and the planner [create_cleanup_script].

    Conventions of the model.

    - A Python [str] is a Rocq [string].  Characters are read as ASCII:
      [str.lower] folds [A-Z] only, whitespace is the ASCII part of
      [str.isspace] (codes 9-13 and 28-32), digits are [0-9], word
      characters are [[A-Za-z0-9_]]; every other code is an opaque symbol.
    - A [dict] that is only looked up is a [gmap]; a [dict] that is iterated
      is the list of its items in insertion order; a [set] is a [gset].
    - A function that can raise returns a [result]; text written to a file
      is the list of the strings passed to [f.write], in order.
    - Python floats only occur in comparisons against a short decimal
      constant ([ratio > 0.9], [a > b * 1.5]); they are modelled by exact
      rationals, which agree with the binary64 comparison for all operands
      below 2^50 (string lengths, byte counts). *)

From Stdlib Require Import Ascii String ZArith QArith Bool Lia DecimalString Sorted.
From Stdlib Require List.
From stdpp Require Import gmap strings list.

Local Open Scope string_scope.

#[local] Set Warnings "-clear-no-such-hyp".

(* ===================================================================== *)
(** * Part I: definitions                                                  *)
(* ===================================================================== *)

(** ** Python built-ins on strings *)

Module Py.

Definition code (c : ascii) : nat := nat_of_ascii c.

Definition chr (n : nat) : ascii := ascii_of_nat n.

(** Characters that cannot be written inside a string literal. *)
Definition newline : string := String (chr 10) "".
Definition dquote : string := String (chr 34) "".

(** [str.isspace] on one ASCII character. *)
Definition is_space (c : ascii) : bool :=
  let n := code c in
  ((9 <=? n)%nat && (n <=? 13)%nat) || ((28 <=? n)%nat && (n <=? 32)%nat).

Definition is_digit (c : ascii) : bool :=
  let n := code c in (48 <=? n)%nat && (n <=? 57)%nat.

Definition is_upper (c : ascii) : bool :=
  let n := code c in (65 <=? n)%nat && (n <=? 90)%nat.

Definition is_lower (c : ascii) : bool :=
  let n := code c in (97 <=? n)%nat && (n <=? 122)%nat.

Definition is_alnum (c : ascii) : bool := is_digit c || is_upper c || is_lower c.

(** [\w] of the [re] module. *)
Definition is_word (c : ascii) : bool := is_alnum c || Ascii.eqb c "_".

Definition lower_char (c : ascii) : ascii :=
  if is_upper c then chr (code c + 32) else c.

Fixpoint smap (f : ascii -> ascii) (s : string) : string :=
  match s with
  | EmptyString => EmptyString
  | String c s' => String (f c) (smap f s')
  end.

(** [s.lower()] *)
Definition lower (s : string) : string := smap lower_char s.

Definition is_empty (s : string) : bool :=
  match s with EmptyString => true | _ => false end.

(** [s.startswith(p)] *)
Definition startswith (s p : string) : bool := String.prefix p s.

(** [sub in s] *)
Fixpoint contains (s sub : string) : bool :=
  String.prefix sub s ||
  match s with
  | EmptyString => false
  | String _ s' => contains s' sub
  end.

(** [s.lstrip(chars)] and [s.rstrip(chars)], the character set given as a
    predicate. *)
Fixpoint lstrip_by (p : ascii -> bool) (s : string) : string :=
  match s with
  | EmptyString => EmptyString
  | String c s' => if p c then lstrip_by p s' else s
  end.

Fixpoint rstrip_by (p : ascii -> bool) (s : string) : string :=
  match s with
  | EmptyString => EmptyString
  | String c s' =>
      let r := rstrip_by p s' in
      if is_empty r && p c then EmptyString else String c r
  end.

(** [s.strip()] *)
Definition strip (s : string) : string := rstrip_by is_space (lstrip_by is_space s).

(** [s.split()]: the maximal runs of non-space characters.  [w] is the word
    being read. *)
Fixpoint split_from (w : string) (s : string) : list string :=
  match s with
  | EmptyString => if is_empty w then [] else [w]
  | String c s' =>
      if is_space c
      then (if is_empty w then split_from "" s' else w :: split_from "" s')
      else split_from (w ++ String c "") s'
  end.

Definition split (s : string) : list string := split_from "" s.

(** [sep.join(l)] *)
Fixpoint join (sep : string) (l : list string) : string :=
  match l with
  | [] => ""
  | [w] => w
  | w :: l' => w ++ sep ++ join sep l'
  end.

(** [s.replace(old, '')] for a one-character [old]. *)
Fixpoint remove_char (x : ascii) (s : string) : string :=
  match s with
  | EmptyString => EmptyString
  | String c s' => if Ascii.eqb c x then remove_char x s' else String c (remove_char x s')
  end.

Definition is_slash (c : ascii) : bool := Ascii.eqb c "/".

(** [os.path.split] before the head is trimmed: the text up to and
    including the last slash, and the text after it. *)
Fixpoint split_last_slash (head cur : string) (s : string) : string * string :=
  match s with
  | EmptyString => (head, cur)
  | String c s' =>
      if is_slash c
      then split_last_slash (head ++ cur ++ "/") "" s'
      else split_last_slash head (cur ++ String c "") s'
  end.

(** [os.path.basename(p)] *)
Definition basename (p : string) : string := snd (split_last_slash "" "" p).

(** [os.path.dirname(p)]: the head, with its trailing slashes removed unless
    it consists of slashes only. *)
Definition dirname (p : string) : string :=
  let head := fst (split_last_slash "" "" p) in
  if is_empty (lstrip_by is_slash head) then head else rstrip_by is_slash head.

Definition endswith_slash (s : string) : bool :=
  negb (String.eqb (rstrip_by is_slash s) s).

(** [os.path.join(a, b)] *)
Definition path_join (a b : string) : string :=
  if startswith b "/" then b
  else if is_empty a || endswith_slash a then a ++ b
  else a ++ "/" ++ b.

(** [str(n)] for a natural number. *)
Definition str_of_nat (n : nat) : string :=
  NilEmpty.string_of_uint (Nat.to_uint n).

(** What a call that may raise produces. *)
Inductive exn :=
| NameError (name : string)
| TypeError
| ValueError
| KeyError (key : string)
| AttributeError (attr : string).

Inductive result (A : Type) :=
| Ok (a : A)
| Raise (e : exn).
Arguments Ok {A} a.
Arguments Raise {A} e.

End Py.

(** ** The part of the [re] module the scripts use *)

Module Re.
Import Py.

(** Patterns.  Repetition is only ever applied to a character class in the
    scripts, so [Star] carries a class. *)
Inductive regex :=
| Eps
| Chr (p : ascii -> bool)
| Cat (r1 r2 : regex)
| Alt (r1 r2 : regex)
| Opt (r : regex)
| Star (p : ascii -> bool)
| Eol
| WordB.

(** Greedy [[p]*] followed by the continuation [k]: the longest run first,
    then shorter ones. *)
Fixpoint star_greedy (p : ascii -> bool) (prev : option ascii) (s : string)
    (k : option ascii -> string -> option string) : option string :=
  match s with
  | String c s' =>
      if p c then
        match star_greedy p (Some c) s' k with
        | Some r => Some r
        | None => k prev s
        end
      else k prev s
  | EmptyString => k prev s
  end.

Definition word_before (prev : option ascii) : bool :=
  match prev with Some c => is_word c | None => false end.

Definition word_after (s : string) : bool :=
  match s with String c _ => is_word c | EmptyString => false end.

(** [$] without [re.MULTILINE]: the end of the text, or just before a final
    newline. *)
Definition at_eol (s : string) : bool := is_empty s || String.eqb s newline.

(** The backtracking matcher: [rmatch r prev s k] matches [r] at the head of
    [s] ([prev] is the character before it) and hands what is left to [k];
    alternatives are tried in the order of the [re] engine. *)
Fixpoint rmatch (r : regex) (prev : option ascii) (s : string)
    (k : option ascii -> string -> option string) : option string :=
  match r with
  | Eps => k prev s
  | Chr p =>
      match s with
      | String c s' => if p c then k (Some c) s' else None
      | EmptyString => None
      end
  | Cat r1 r2 => rmatch r1 prev s (fun prev' s' => rmatch r2 prev' s' k)
  | Alt r1 r2 =>
      match rmatch r1 prev s k with
      | Some x => Some x
      | None => rmatch r2 prev s k
      end
  | Opt r1 =>
      match rmatch r1 prev s k with
      | Some x => Some x
      | None => k prev s
      end
  | Star p => star_greedy p prev s k
  | Eol => if at_eol s then k prev s else None
  | WordB => if xorb (word_before prev) (word_after s) then k prev s else None
  end.

(** The text left after the first (highest-priority) match at this place. *)
Definition match_here (r : regex) (prev : option ascii) (s : string) : option string :=
  rmatch r prev s (fun _ rest => Some rest).

(** [re.sub(r, '', s)]: every leftmost non-overlapping match is deleted.
    [skip] counts the characters of the current match still to be dropped.
    An empty match deletes nothing and the scan moves on. *)
Fixpoint sub_del (r : regex) (prev : option ascii) (skip : nat) (s : string) : string :=
  match s with
  | EmptyString => EmptyString
  | String c s' =>
      match skip with
      | S n => sub_del r (Some c) n s'
      | O =>
          match match_here r prev s with
          | Some rest =>
              match (String.length s - String.length rest)%nat with
              | O => String c (sub_del r (Some c) 0 s')
              | S n => sub_del r (Some c) n s'
              end
          | None => String c (sub_del r (Some c) 0 s')
          end
      end
  end.

Definition sub_empty (r : regex) (s : string) : string := sub_del r None 0 s.

(** Pattern builders. *)
Definition one_of (cs : string) : regex :=
  Chr (fun c => contains cs (String c "")).

(** A literal character under [re.IGNORECASE]. *)
Definition ci (c : ascii) : regex :=
  Chr (fun x => Ascii.eqb (lower_char x) (lower_char c)).

Fixpoint lit (s : string) : regex :=
  match s with
  | EmptyString => Eps
  | String c EmptyString => ci c
  | String c s' => Cat (ci c) (lit s')
  end.

Definition digit : regex := Chr is_digit.

Definition plus (p : ascii -> bool) : regex := Cat (Chr p) (Star p).

End Re.

(** ** [clean_media_name] (find_media_dupes.py, src/find_dupes.py) *)

Module Normalizer.
Import Py Re.

(** [[\(\[\.](?:19|20)\d{2}[\)\]\.]?] *)
Definition year_pattern : regex :=
  Cat (one_of "([.")
   (Cat (Alt (lit "19") (lit "20"))
    (Cat digit (Cat digit (Opt (one_of ")]."))))).

(** The list [patterns_to_remove], in the order of the source; all are
    applied with [flags=re.IGNORECASE]. *)
Definition patterns_to_remove : list regex :=
  [ lit "2160p"; lit "1080p"; lit "720p"; lit "480p";
    lit "bluray"; Cat (lit "web") (Cat (Opt (ci "-")) (lit "dl"));
    lit "webrip"; lit "hdtv"; lit "dvdrip";
    lit "x264"; lit "x265"; lit "hevc"; lit "xvid"; lit "divx";
    Cat (lit "aac") (Opt digit); lit "ac3"; lit "dts"; lit "hdma";
    lit "repack"; lit "proper"; lit "extended";
    Cat (lit "hdr") (Star is_digit); lit "dv"; lit "dolby"; lit "atmos";
    Cat (ci "-") (Cat (plus is_alnum) Eol);
    Cat WordB (Cat (lit "dc") WordB); lit "remux"; lit "dubbed";
    Cat WordB (Cat (lit "ws") WordB); lit "retail";
    Cat (lit "cd") digit; Cat (lit "disc") digit; lit "complete" ].

Definition is_separator (c : ascii) : bool :=
  Ascii.eqb c "." || Ascii.eqb c "_" || Ascii.eqb c "-".

(** [re.sub(r'[._-]', ' ', name)] *)
Definition separators_to_spaces (s : string) : string :=
  smap (fun c => if is_separator c then " "%char else c) s.

(** The removal stages: the year, then each pattern once, in order. *)
Definition strip_tokens (name : string) : string :=
  List.fold_left (fun nm p => sub_empty p nm) patterns_to_remove
    (sub_empty year_pattern name).

(** The closing stage: [' '.join(name.split())], then [.lower().strip()]. *)
Definition collapse (name : string) : string :=
  strip (lower (join " " (split name))).

Definition clean_media_name (name : string) : string :=
  collapse (separators_to_spaces (strip_tokens name)).

End Normalizer.

(** ** [difflib.SequenceMatcher(None, a, b).ratio()]

    The scripts call the standard library's matcher with no junk predicate
    and the default [autojunk=True].  The model follows CPython's
    [difflib.py]: [__chain_b], [find_longest_match], [get_matching_blocks]
    and [ratio]. *)

Module Difflib.

Definition seq_t := list ascii.

Definition elt (l : seq_t) (i : nat) : ascii := List.nth i l "000"%char.

(** The positions of [x] in [b], ascending: the entry [b2j[x]]. *)
Fixpoint indices_from (x : ascii) (b : seq_t) (j : nat) : list nat :=
  match b with
  | [] => []
  | c :: b' =>
      if Ascii.eqb c x then j :: indices_from x b' (S j) else indices_from x b' (S j)
  end.

(** [autojunk]: in a [b] of 200 elements or more, an element that occurs
    more than [len(b) // 100 + 1] times is purged from [b2j]. *)
Definition popular (b : seq_t) (x : ascii) : bool :=
  (200 <=? length b)%nat &&
  (length b / 100 + 1 <? length (indices_from x b 0))%nat.

Definition b2j (b : seq_t) (x : ascii) : list nat :=
  if popular b x then [] else indices_from x b 0.

(** [j2len.get(j - 1, 0)] *)
Definition j2len_get (j2len : gmap nat nat) (j : nat) : nat :=
  match j with
  | O => 0%nat
  | S j' => default 0%nat (j2len !! j')
  end.

Record best := { besti : nat; bestj : nat; bestsize : nat }.

(** The body of [for j in b2j.get(a[i], nothing)]. *)
Definition scan_j (i blo bhi : nat) (j2len : gmap nat nat)
    (st : gmap nat nat * best) (j : nat) : gmap nat nat * best :=
  let '(newj2len, bst) := st in
  if (j <? blo)%nat then st
  else if (bhi <=? j)%nat then st
  else
    let k := S (j2len_get j2len j) in
    (<[j := k]> newj2len,
     if (bestsize bst <? k)%nat
     then {| besti := i + 1 - k; bestj := j + 1 - k; bestsize := k |}
     else bst).

(** The body of [for i in range(alo, ahi)]. *)
Definition scan_i (a b : seq_t) (blo bhi : nat)
    (st : gmap nat nat * best) (i : nat) : gmap nat nat * best :=
  let '(j2len, bst) := st in
  List.fold_left (scan_j i blo bhi j2len) (b2j b (elt a i)) (∅, bst).

(** The two [while] loops that extend the match; the bound is the number of
    positions left on that side. *)
Fixpoint extend_left (a b : seq_t) (alo blo : nat) (fuel : nat) (bst : best) : best :=
  match fuel with
  | O => bst
  | S fuel' =>
      if (alo <? besti bst)%nat && (blo <? bestj bst)%nat &&
         Ascii.eqb (elt a (besti bst - 1)) (elt b (bestj bst - 1))
      then extend_left a b alo blo fuel'
             {| besti := besti bst - 1; bestj := bestj bst - 1;
                bestsize := S (bestsize bst) |}
      else bst
  end.

Fixpoint extend_right (a b : seq_t) (ahi bhi : nat) (fuel : nat) (bst : best) : best :=
  match fuel with
  | O => bst
  | S fuel' =>
      if (besti bst + bestsize bst <? ahi)%nat &&
         (bestj bst + bestsize bst <? bhi)%nat &&
         Ascii.eqb (elt a (besti bst + bestsize bst)) (elt b (bestj bst + bestsize bst))
      then extend_right a b ahi bhi fuel'
             {| besti := besti bst; bestj := bestj bst; bestsize := S (bestsize bst) |}
      else bst
  end.

(** [find_longest_match(alo, ahi, blo, bhi)].  With no junk predicate the
    two closing loops over junk elements never run. *)
Definition find_longest_match (a b : seq_t) (alo ahi blo bhi : nat) : best :=
  let init := {| besti := alo; bestj := blo; bestsize := 0 |} in
  let bst := snd (List.fold_left (scan_i a b blo bhi) (List.seq alo (ahi - alo)) (∅, init)) in
  let bst := extend_left a b alo blo (besti bst - alo) bst in
  extend_right a b ahi bhi (ahi - (besti bst + bestsize bst)) bst.

(** The total size of the blocks [get_matching_blocks] collects: the longest
    match of the window, then the windows left and right of it.  Every
    nested window is shorter on the [a] side, so [fuel] above the length of
    [a] is never used up. *)
Fixpoint matching_size (fuel : nat) (a b : seq_t) (alo ahi blo bhi : nat) : nat :=
  match fuel with
  | O => 0
  | S fuel' =>
      let m := find_longest_match a b alo ahi blo bhi in
      let i := besti m in
      let j := bestj m in
      let k := bestsize m in
      if (k =? 0)%nat then 0%nat
      else
        (k
         + (if (alo <? i)%nat && (blo <? j)%nat
            then matching_size fuel' a b alo i blo j else 0)
         + (if (i + k <? ahi)%nat && (j + k <? bhi)%nat
            then matching_size fuel' a b (i + k) ahi (j + k) bhi else 0))%nat
  end.

Definition matches (a b : string) : nat :=
  let la := list_ascii_of_string a in
  let lb := list_ascii_of_string b in
  matching_size (S (length la)) la lb 0 (length la) 0 (length lb).

(** [_calculate_ratio(matches, len(a) + len(b))] *)
Definition ratio (a b : string) : Q :=
  let total := (String.length a + String.length b)%nat in
  match total with
  | O => 1%Q
  | S _ => (Z.of_nat (2 * matches a b) # Pos.of_nat total)%Q
  end.

End Difflib.

(** ** [find_similar_media_folders] (find_media_dupes.py, src/find_dupes.py) *)

Module Grouper.
Import Py Normalizer.

(** The folder index [folder_map]: the items of the dict, in insertion
    order; a file is its path. *)
Definition folder_index := list (string * list string).

(** [folder_map[folder]] *)
Fixpoint files_of (folder_map : folder_index) (folder : string) : list string :=
  match folder_map with
  | [] => []
  | (k, v) :: rest => if String.eqb k folder then v else files_of rest folder
  end.

Record group := {
  base_folder : string;
  similar_folders : list string;
  similarity_scores : list Q;
  files : list string
}.

(** [ratio > 0.9] *)
Definition above_threshold (r : Q) : bool := negb (Qle_bool r (9 # 10)).

Section Grouping.

(** The similarity ratio, [difflib.SequenceMatcher(None, a, b).ratio()]. *)
Variable ratio : string -> string -> Q.

(** [find_media_dupes.py] also appends the files of each similar folder to
    the group ([current_group['files'].extend(...)]); [src/find_dupes.py]
    does not. *)
Variable extend_files : bool.

Variable folder_map : folder_index.

(** [cleaned_folders]: every folder name with its normalized key. *)
Definition cleaned_folders : list (string * string) :=
  List.map (fun it => (fst it, clean_media_name (fst it))) folder_map.

(** The body of the inner loop [for folder2, clean_name2 in ...]. *)
Definition scan_similar (folder1 clean_name1 : string)
    (st : group * gset string) (it : string * string) : group * gset string :=
  let '(current_group, processed) := st in
  let '(folder2, clean_name2) := it in
  if negb (String.eqb folder1 folder2)
     && bool_decide (folder2 ∉ processed)
     && negb (is_empty clean_name2)
  then
    let r := ratio clean_name1 clean_name2 in
    if above_threshold r then
      ({| base_folder := base_folder current_group;
          similar_folders := (similar_folders current_group ++ [folder2])%list;
          similarity_scores := (similarity_scores current_group ++ [r])%list;
          files := if extend_files
                   then (files current_group ++ files_of folder_map folder2)%list
                   else files current_group |},
       {[ folder2 ]} ∪ processed)
    else st
  else st.

(** The body of the outer loop [for folder1, clean_name1 in ...]. *)
Definition open_group (st : list group * gset string) (it : string * string)
    : list group * gset string :=
  let '(similar_groups, processed) := st in
  let '(folder1, clean_name1) := it in
  if bool_decide (folder1 ∈ processed) || is_empty clean_name1 then st
  else
    let current_group :=
      {| base_folder := folder1; similar_folders := [];
         similarity_scores := []; files := files_of folder_map folder1 |} in
    let '(current_group, processed) :=
      List.fold_left (scan_similar folder1 clean_name1) cleaned_folders
        (current_group, processed) in
    match similar_folders current_group with
    | [] => (similar_groups, processed)
    | _ :: _ => ((similar_groups ++ [current_group])%list, {[ folder1 ]} ∪ processed)
    end.

Definition find_similar_media_folders : list group :=
  fst (List.fold_left open_group cleaned_folders ([], ∅)).

End Grouping.

(** Every name a group holds: its base, then its similar members. *)
Definition members (g : group) : list string := base_folder g :: similar_folders g.

End Grouper.

(** ** [write_report] (src/find_dupes.py) *)

Module Report.
Import Py Grouper.

(** The line of fifty [=] that opens a group, [" = " * 50]. *)
Definition separator : string :=
  "==================================================".

Section Writing.

(** [format_size(file.stat().st_size)], or [None] when the call raises: it
    reads the file system. *)
Variable size_text : string -> option string.

(** [f"{score:.2f}"] *)
Variable fmt2 : Q -> string.

(** The names that are bound to a folder index where [write_report] runs:
    its module's globals. *)
Variable scope : gmap string folder_index.

(** Reading a name that is not a local of the function. *)
Definition load_name (name : string) : result folder_index :=
  match scope !! name with
  | Some v => Ok v
  | None => Raise (NameError name)
  end.

(** The [try: ... except: ...] around one file line. *)
Definition file_line (file : string) : string :=
  match size_text file with
  | Some size => "  " ++ file ++ " (" ++ size ++ ")" ++ newline
  | None => "  " ++ file ++ newline
  end.

Definition similar_line (folder : string) (score : Q) : string :=
  newline ++ "Similar Folder (similarity: " ++ fmt2 score ++ "): " ++ folder ++ newline.

(** [for folder, score in zip(...)]: the heading, then the files of
    [folder_map[folder]]. *)
Fixpoint write_similar (pairs : list (string * Q)) (out : list string)
    : list string * result unit :=
  match pairs with
  | [] => (out, Ok tt)
  | (folder, score) :: rest =>
      let out := (out ++ [similar_line folder score])%list in
      match load_name "folder_map" with
      | Raise e => (out, Raise e)
      | Ok folder_map =>
          write_similar rest (out ++ List.map file_line (files_of folder_map folder))%list
      end
  end.

(** What is written for a group before its files. *)
Definition group_heading (g : group) : list string :=
  [ newline ++ separator ++ newline;
    "Base Folder: " ++ base_folder g ++ newline;
    "Files:" ++ newline ].

(** [for group in results] *)
Fixpoint write_groups (results : list group) (out : list string)
    : list string * result unit :=
  match results with
  | [] => (out, Ok tt)
  | g :: rest =>
      let out :=
        (out ++ group_heading g ++ List.map file_line (files g))%list in
      match write_similar
              (List.combine (similar_folders g) (similarity_scores g)) out with
      | (out, Ok _) => write_groups rest out
      | (out, Raise e) => (out, Raise e)
      end
  end.

(** The text written, and how the call ended. *)
Definition write_report (results : list group) : list string * result unit :=
  let out := ["=== Potential Duplicate Media Report ===" ++ newline ++ newline] in
  match results with
  | [] => (List.app out ["No potential duplicates found." ++ newline], Ok tt)
  | _ :: _ => write_groups results out
  end.

End Writing.

(** The module [src/find_dupes.py] binds its imports, [logger] and its
    functions at top level; none of its globals is a folder index, and
    [write_report] has no local or parameter named [folder_map]. *)
Definition find_dupes_globals : gmap string folder_index := ∅.

End Report.

(** ** [convert_container_path_to_host_path] (get_official_paths.py) *)

Module PathMapping.
Import Py.

(** One volume mapping, as [get_docker_mappings] builds it. *)
Record mapping := {
  service : string;
  host_path : string;
  container_path : string
}.

Definition key (m : mapping) : nat := String.length (container_path m).

(** [sorted(mappings, key=..., reverse=True)]: descending by key, and
    stable, so mappings of equal key keep their order. *)
Fixpoint insert_desc (m : mapping) (l : list mapping) : list mapping :=
  match l with
  | [] => [m]
  | y :: ys => if (key m <? key y)%nat then y :: insert_desc m ys else m :: y :: ys
  end.

Fixpoint sorted_mappings (l : list mapping) : list mapping :=
  match l with
  | [] => []
  | m :: ms => insert_desc m (sorted_mappings ms)
  end.

(** [s[n:]] *)
Fixpoint drop (n : nat) (s : string) : string :=
  match n, s with
  | O, _ => s
  | S n', String _ s' => drop n' s'
  | S _, EmptyString => EmptyString
  end.

(** The mapping the loop stops at, if any. *)
Definition applied_mapping (path : string) (mappings : list mapping) : option mapping :=
  List.find (fun m => startswith path (container_path m)) (sorted_mappings mappings).

(** The body of the [if]: the path below the prefix, joined to the host
    path. *)
Definition translate (path : string) (m : mapping) : string :=
  let relative_path := lstrip_by is_slash (drop (String.length (container_path m)) path) in
  path_join (host_path m) relative_path.

Definition convert_container_path_to_host_path
    (path : string) (mappings : list mapping) : string :=
  match applied_mapping path mappings with
  | Some m => translate path m
  | None => path
  end.

End PathMapping.

(** ** [MediaServerPathLookup] (get_official_paths.py) *)

Module Lookup.
Import Py Re.

Inductive media_kind := Series | Movie.

Inductive tier := PathComparison | FuzzyName.

(** A value of [folder_to_path_map], and what the resolver returns.  An
    entry stored by [get_sonarr_series] or [get_radarr_movies] has no
    ['match_type'] key. *)
Record official_info := {
  kind : media_kind;
  title : string;
  host_path : string;
  match_type : option tier
}.

(** The fields of [sonarr_series_details] and [radarr_movie_details] that
    the resolver reads (the identifiers and flags are not read). *)
Record details := {
  d_title : string;
  d_container_path : string;
  d_host_path : string
}.

(** The object's state that the methods below read. *)
Record lookup := {
  root_folders_to_ignore : list string;
  folder_to_path_map : gmap string official_info;
  sonarr_series_details : list (string * details);
  radarr_movie_details : list (string * details)
}.

Definition media_categories : list string :=
  ["films"; "movies"; "television"; "tv"; "videos"].

Definition in_list (x : string) (l : list string) : bool :=
  List.existsb (String.eqb x) l.

(** [is_protected_path]: some configured root is the path or a directory
    above it, and the path's own basename is a main media directory. *)
Definition is_protected_path (self : lookup) (path : string) : bool :=
  List.existsb
    (fun root_folder =>
       (String.eqb path root_folder || startswith path (root_folder ++ "/"))
       && in_list (lower (basename path)) media_categories)
    (root_folders_to_ignore self).

(** The tail of [movie_pattern], [(?:\s+\((\d{4})\))?$]. *)
Definition year_suffix : regex :=
  Cat (Opt (Cat (plus is_space)
            (Cat (one_of "(")
             (Cat digit (Cat digit (Cat digit (Cat digit (one_of ")"))))))))
      Eol.

(** Group 1 of [re.match(r'(.+?)(?:\s+\((\d{4})\))?$', s)]: the shortest
    non-empty prefix without a newline after which the tail matches. *)
Fixpoint movie_name_from (acc : string) (s : string) : option string :=
  match s with
  | EmptyString => None
  | String c s' =>
      if Ascii.eqb c (chr 10) then None
      else
        let acc := acc ++ String c "" in
        match match_here year_suffix (Some c) s' with
        | Some _ => Some acc
        | None => movie_name_from acc s'
        end
  end.

Definition movie_name (s : string) : option string := movie_name_from "" s.

Definition media_dirs : list string :=
  ["Movies"; "Television"; "TV"; "Series"; "Films"; "shows"].

Definition are_related_media_paths (path1 path2 folder_name : string) : bool :=
  let basename1 := basename path1 in
  let basename2 := basename path2 in
  if String.eqb (lower basename1) (lower basename2) then true
  else if negb (is_empty folder_name)
          && (String.eqb (lower basename1) (lower folder_name)
              || String.eqb (lower basename2) (lower folder_name)) then true
  else if
    match movie_name basename1, movie_name basename2 with
    | Some g1, Some g2 =>
        let movie_name1 := strip (lower g1) in
        let movie_name2 := strip (lower g2) in
        String.eqb movie_name1 movie_name2
        || contains movie_name2 movie_name1
        || contains movie_name1 movie_name2
    | _, _ => false
    end then true
  else
    let parent1 := lower (basename (dirname path1)) in
    let parent2 := lower (basename (dirname path2)) in
    in_list parent1 (List.map lower media_dirs)
    && in_list parent2 (List.map lower media_dirs)
    && String.eqb (lower basename1) (lower basename2).

(** The two tests of the path-comparison tier on one catalog path and one
    duplicate path. *)
Definition basenames_agree (host_path dup_path : string) : bool :=
  let host_basename := lower (basename host_path) in
  let dup_basename := lower (basename dup_path) in
  String.eqb host_basename dup_basename
  || contains dup_basename host_basename
  || contains host_basename dup_basename.

Definition paths_agree (host_path dup_path folder_name : string) : bool :=
  String.eqb host_path dup_path
  || String.eqb (dirname host_path) (dirname dup_path)
  || startswith host_path (dup_path ++ "/")
  || startswith dup_path (host_path ++ "/")
  || are_related_media_paths host_path dup_path folder_name.

Definition path_match (folder_name : string) (duplicate_paths : list string)
    (it : string * details) : bool :=
  List.existsb
    (fun dup_path =>
       basenames_agree (d_host_path (snd it)) dup_path
       && paths_agree (d_host_path (snd it)) dup_path folder_name)
    duplicate_paths.

(** [folder_name.lower() == db_folder.lower() or ... in ... or ... in ...] *)
Definition fuzzy_match (folder_name : string) (it : string * details) : bool :=
  let db_folder := lower (basename (d_host_path (snd it))) in
  let name := lower folder_name in
  String.eqb name db_folder || contains db_folder name || contains name db_folder.

Definition found (k : media_kind) (t : tier) (it : string * details) : official_info :=
  {| kind := k; title := fst it; host_path := d_host_path (snd it);
     match_type := Some t |}.

(** [get_official_path_for_folder]: the direct lookup, then the two loops
    of the path comparison, then the two loops of the fuzzy match. *)
Definition get_official_path_for_folder (self : lookup)
    (folder_name : string) (duplicate_paths : list string) : option official_info :=
  match folder_to_path_map self !! folder_name with
  | Some info => Some info
  | None =>
  match List.find (path_match folder_name duplicate_paths) (sonarr_series_details self) with
  | Some it => Some (found Series PathComparison it)
  | None =>
  match List.find (path_match folder_name duplicate_paths) (radarr_movie_details self) with
  | Some it => Some (found Movie PathComparison it)
  | None =>
  if is_empty folder_name then None
  else
  match List.find (fuzzy_match folder_name) (sonarr_series_details self) with
  | Some it => Some (found Series FuzzyName it)
  | None =>
  match List.find (fuzzy_match folder_name) (radarr_movie_details self) with
  | Some it => Some (found Movie FuzzyName it)
  | None => None
  end end end end end.

(** One record of the duplicate-folders report as the two searches of
    [lookup_duplicate_folders] read it: the folder of
    [re.search(r"Folder: (.*?)$", ...)] if there is one, and the stripped
    paths of [re.finditer(r"^\s+(/.*?)$", ...)], in order. *)
Record report_record := {
  folder_match : option string;
  path_matches : list string
}.

Record lookup_result := {
  folder : string;
  duplicate_paths : list string;
  official : option official_info
}.

(** The loop that fills [duplicate_paths]. *)
Definition unprotected_paths (self : lookup) (paths : list string) : list string :=
  List.filter (fun path => negb (is_protected_path self path)) paths.

(** The body of [for record in records], as the results it appends. *)
Definition lookup_record (self : lookup) (r : report_record) : list lookup_result :=
  match folder_match r with
  | None => []
  | Some current_folder =>
      let duplicate_paths := unprotected_paths self (path_matches r) in
      match duplicate_paths with
      | [] => []
      | _ :: _ =>
          [ {| folder := current_folder;
               duplicate_paths := duplicate_paths;
               official :=
                 get_official_path_for_folder self current_folder duplicate_paths |} ]
      end
  end.

Definition lookup_duplicate_folders (self : lookup) (records : list report_record)
    : list lookup_result :=
  List.concat (List.map (lookup_record self) records).

End Lookup.

(** ** [src/cleanup_dupes.py] *)

Module Cleanup.
Import Py Re.

(** A file of the report: its path and its size text. *)
Definition file_entry := (string * string)%type.

(** A group as [parse_report] builds it. *)
Record group := {
  base_folder : option string;
  base_files : list file_entry;
  similar_folders : list string;
  similar_files : list file_entry
}.

Definition new_group : group :=
  {| base_folder := None; base_files := []; similar_folders := [];
     similar_files := [] |}.

(** A literal character, case-sensitive. *)
Definition exact_char (c : ascii) : regex := Chr (Ascii.eqb c).

Fixpoint exact (s : string) : regex :=
  match s with
  | EmptyString => Eps
  | String c EmptyString => exact_char c
  | String c s' => Cat (exact_char c) (exact s')
  end.

(** [s.replace(old, '')] *)
Definition remove_all (old s : string) : string := sub_empty (exact old) s.

(** [s.split(sep)] for a two-character separator: [w] is the part being
    read. *)
Fixpoint split_on2 (c1 c2 : ascii) (w : string) (s : string) : list string :=
  match s with
  | EmptyString => [w]
  | String a s' =>
      match s' with
      | String b s'' =>
          if Ascii.eqb a c1 && Ascii.eqb b c2
          then w :: split_on2 c1 c2 "" s''
          else split_on2 c1 c2 (w ++ String a "") s'
      | EmptyString => [w ++ String a ""]
      end
  end.

(** The path and the size of a file line: [line.strip().split(' (')], then
    [parts[0].strip()] and [parts[1].replace(')', '')] or ['Unknown']. *)
Definition read_file_line (line : string) : file_entry :=
  match split_on2 " " "(" "" (strip line) with
  | [] => ("", "Unknown")
  | [p] => (strip p, "Unknown")
  | p :: sz :: _ => (strip p, remove_char ")" sz)
  end.

(** The state of the loop of [parse_report]. *)
Record parser := {
  groups : list group;
  current_group : option group
}.

Definition set_base_folder (g : group) (name : string) : group :=
  {| base_folder := Some name; base_files := base_files g;
     similar_folders := similar_folders g; similar_files := similar_files g |}.

Definition add_similar_folder (g : group) (line : string) : group :=
  {| base_folder := base_folder g; base_files := base_files g;
     similar_folders := List.app (similar_folders g) [line];
     similar_files := similar_files g |}.

Definition add_file (g : group) (e : file_entry) : group :=
  match similar_folders g with
  | _ :: _ =>
      {| base_folder := base_folder g; base_files := base_files g;
         similar_folders := similar_folders g;
         similar_files := List.app (similar_files g) [e] |}
  | [] =>
      {| base_folder := base_folder g; base_files := List.app (base_files g) [e];
         similar_folders := similar_folders g; similar_files := similar_files g |}
  end.

Definition push_current (st : parser) : list group :=
  match current_group st with
  | Some g => List.app (groups st) [g]
  | None => groups st
  end.

(** The body of [for line in lines].  The line is stripped first, and the
    four [startswith] tests are made on the stripped line. *)
Definition parse_line (st : parser) (raw : string) : result parser :=
  let line := strip raw in
  if startswith line "===" && (10 <? String.length line)%nat then
    Ok {| groups := push_current st; current_group := Some new_group |}
  else if startswith line "Base Folder:" then
    match current_group st with
    | Some g =>
        Ok {| groups := groups st;
              current_group :=
                Some (set_base_folder g (strip (remove_all "Base Folder:" line))) |}
    | None => Ok st
    end
  else if startswith line "Similar Folder" then
    match current_group st with
    | Some g =>
        Ok {| groups := groups st; current_group := Some (add_similar_folder g line) |}
    | None => Raise TypeError
    end
  else if startswith line "  /" then
    let e := read_file_line line in
    match current_group st with
    | Some g => Ok {| groups := groups st; current_group := Some (add_file g e) |}
    | None => Ok st
    end
  else Ok st.

Fixpoint parse_lines (st : parser) (lines : list string) : result parser :=
  match lines with
  | [] => Ok st
  | l :: rest =>
      match parse_line st l with
      | Ok st' => parse_lines st' rest
      | Raise e => Raise e
      end
  end.

(** [parse_report], from the lines [f.readlines()] returns. *)
Definition parse_report (lines : list string) : result (list group) :=
  match parse_lines {| groups := []; current_group := None |} lines with
  | Ok st => Ok (push_current st)
  | Raise e => Raise e
  end.

(** The table [units]. *)
Definition units (unit : string) : option Z :=
  if String.eqb unit "B" then Some 1%Z
  else if String.eqb unit "KB" then Some 1024%Z
  else if String.eqb unit "MB" then Some (1024 ^ 2)%Z
  else if String.eqb unit "GB" then Some (1024 ^ 3)%Z
  else if String.eqb unit "TB" then Some (1024 ^ 4)%Z
  else None.

(** [int(x)]: truncation toward zero. *)
Definition int_of_Q (q : Q) : Z := Z.quot (Qnum q) (Zpos (Qden q)).

Section Planner.

(** [float(number)]: the value read, or [None] when the call raises (or
    the value is not a finite number, on which [int] raises). *)
Variable py_float : string -> option Q.

(** [str(Path(path).resolve())]: it reads the file system. *)
Variable normalize_path : string -> string.

(** What [sonarr.get_series_paths()] and [radarr.get_movie_paths()] return:
    the managed folders, keyed by normalized path, with their titles. *)
Variable sonarr_paths : gmap string string.
Variable radarr_paths : gmap string string.

Definition format_size_bytes (size_str : string) : result Z :=
  if String.eqb size_str "Unknown" then Ok 0%Z
  else
    match split size_str with
    | [number; unit] =>
        match py_float number with
        | None => Raise ValueError
        | Some x =>
            match units unit with
            | None => Raise (KeyError unit)
            | Some u => Ok (int_of_Q (x * inject_Z u))
            end
        end
    | _ => Raise ValueError
    end.

(** [check_media_server_paths]: the server that manages the parent folder
    of the file, if one does.  On a resolved path [Path.parent] is
    [os.path.dirname]. *)
Definition check_media_server_paths (file_path : string) : option string :=
  let parent_path := dirname (normalize_path file_path) in
  if bool_decide (is_Some (sonarr_paths !! parent_path)) then Some "sonarr"
  else if bool_decide (is_Some (radarr_paths !! parent_path)) then Some "radarr"
  else None.

Definition managed (e : file_entry) : bool :=
  match check_media_server_paths (fst e) with Some _ => true | None => false end.

(** [any(info['managed'] for ...)] *)
Definition side_managed (side : list file_entry) : bool := List.existsb managed side.

Definition status_text (e : file_entry) : string :=
  match check_media_server_paths (fst e) with
  | Some server => "MANAGED by " ++ server
  | None => "UNMANAGED"
  end.

(** [f'# {file} ({size}) - {status}\n'] *)
Definition info_line (e : file_entry) : string :=
  "# " ++ fst e ++ " (" ++ snd e ++ ") - " ++ status_text e ++ newline.

(** [f'safe_remove "{file}"\n'] *)
Definition removal_line (e : file_entry) : string :=
  "safe_remove " ++ dquote ++ fst e ++ dquote ++ newline.

(** [[format_size_bytes(size) for ...]]: the first failure ends it. *)
Fixpoint sizes_of (side : list file_entry) : result (list Z) :=
  match side with
  | [] => Ok []
  | e :: rest =>
      match format_size_bytes (snd e) with
      | Raise x => Raise x
      | Ok n =>
          match sizes_of rest with
          | Raise x => Raise x
          | Ok ns => Ok (n :: ns)
          end
      end
  end.

(** [max(l)] of a non-empty list. *)
Definition maximum (n : Z) (l : list Z) : Z := List.fold_left Z.max l n.

Definition keep_base_line : string :=
  "# Suggestion: Keep base files (larger size)" ++ newline.
Definition keep_similar_line : string :=
  "# Suggestion: Keep similar files (larger size)" ++ newline.

(** [a > b * 1.5] *)
Definition exceeds (a b : Z) : bool := (3 * b <? 2 * a)%Z.

(** [if base_sizes and similar_sizes: ...] *)
Definition size_suggestion (base_sizes similar_sizes : list Z) : list string :=
  match base_sizes, similar_sizes with
  | b :: bs, s :: ss =>
      let max_base := maximum b bs in
      let max_similar := maximum s ss in
      if exceeds max_base max_similar then [keep_base_line]
      else if exceeds max_similar max_base then [keep_similar_line]
      else []
  | _, _ => []
  end.

Definition keep_base_comment : string :=
  newline ++ "# Keeping base files (managed by Sonarr/Radarr) and removing duplicates" ++ newline.
Definition keep_similar_comment : string :=
  newline ++ "# Keeping similar files (managed by Sonarr/Radarr) and removing duplicates" ++ newline.
Definition manual_review_comment : string :=
  newline ++ "# Manual review required - multiple or no managed versions found" ++ newline.
Definition both_managed_comment : string :=
  "# Both versions are managed by Sonarr/Radarr" ++ newline.
Definition none_managed_comment : string :=
  "# No versions are managed by Sonarr/Radarr" ++ newline.

(** The decision logic of one group: what it writes, and how it ends. *)
Definition decision (g : group) : list string * result unit :=
  let base_managed := side_managed (base_files g) in
  let similar_managed := side_managed (similar_files g) in
  if base_managed && negb similar_managed then
    (keep_base_comment :: List.map removal_line (similar_files g), Ok tt)
  else if similar_managed && negb base_managed then
    (keep_similar_comment :: List.map removal_line (base_files g), Ok tt)
  else
    let head :=
      [ manual_review_comment;
        if base_managed && similar_managed
        then both_managed_comment else none_managed_comment ] in
    match sizes_of (base_files g) with
    | Raise x => (head, Raise x)
    | Ok base_sizes =>
        match sizes_of (similar_files g) with
        | Raise x => (head, Raise x)
        | Ok similar_sizes =>
            (List.app head (size_suggestion base_sizes similar_sizes), Ok tt)
        end
    end.

Definition base_folder_text (g : group) : string :=
  match base_folder g with Some name => name | None => "None" end.

(** What is written for group number [i] before its decision. *)
Definition group_listing (i : nat) (g : group) : list string :=
  List.app
    [ newline ++ "echo " ++ dquote ++ "Processing group " ++ str_of_nat i ++ "..."
        ++ dquote ++ newline;
      newline ++ "# Group " ++ str_of_nat i ++ ": " ++ base_folder_text g ++ newline;
      newline ++ "# Base files:" ++ newline ]
    (List.app (List.map info_line (base_files g))
       ((newline ++ "# Similar files:" ++ newline)
          :: List.map info_line (similar_files g))).

(** Everything written for group number [i]. *)
Definition group_script (i : nat) (g : group) : list string * result unit :=
  match decision g with
  | (out, Ok _) => (List.app (group_listing i g) (List.app out [newline]), Ok tt)
  | (out, Raise x) => (List.app (group_listing i g) out, Raise x)
  end.

Definition preamble : list string :=
  [ "#!/bin/bash" ++ newline ++ newline;
    "# Duplicate cleanup script" ++ newline;
    "# Generated based on Sonarr/Radarr managed paths" ++ newline ++ newline;
    "# Function to safely remove files" ++ newline;
    "safe_remove() {" ++ newline;
    "    file=" ++ dquote ++ "$1" ++ dquote ++ newline;
    "    if [ -f " ++ dquote ++ "$file" ++ dquote ++ " ]; then" ++ newline;
    "        echo " ++ dquote ++ "Removing: $file" ++ dquote ++ newline;
    "        rm " ++ dquote ++ "$file" ++ dquote ++ newline;
    "    else" ++ newline;
    "        echo " ++ dquote ++ "File not found: $file" ++ dquote ++ newline;
    "    fi" ++ newline;
    "}" ++ newline ++ newline ].

(** [for i, group in enumerate(groups, 1)] *)
Fixpoint script_groups (i : nat) (gs : list group) : list string * result unit :=
  match gs with
  | [] => ([], Ok tt)
  | g :: rest =>
      match group_script i g with
      | (out, Ok _) =>
          let '(out', r) := script_groups (S i) rest in (List.app out out', r)
      | (out, Raise x) => (out, Raise x)
      end
  end.

(** [create_cleanup_script]: the text written to [output_file], and how the
    call ended. *)
Definition create_cleanup_script (gs : list group) : list string * result unit :=
  let '(out, r) := script_groups 1 gs in (List.app preamble out, r).

(** A write that invokes the removal helper. *)
Definition is_removal (chunk : string) : bool :=
  startswith chunk ("safe_remove " ++ dquote).

Definition removals (out : list string) : list string := List.filter is_removal out.

Definition writes (chunk : string) (out : list string) : bool :=
  List.existsb (String.eqb chunk) out.

End Planner.

End Cleanup.

(** ** The server classes of [src/cleanup_dupes.py] *)

Module Servers.
Import Py Cleanup.

(** One object of the list [response.json()] returns: its values under
    ['path'] and ['title'], where it has the key. *)
Record item := {
  item_path : option string;
  item_title : option string
}.









(** A call that ended without raising. *)
Definition ended_normally {A : Type} (r : result A) : bool :=
  match r with Ok _ => true | Raise _ => false end.

End Servers.

(** ** Loading the catalogs (get_official_paths.py) *)

Module CatalogLoad.
Import Py PathMapping Lookup.




(** The value when it is truthy: there, and not the empty string. *)
Definition truthy (o : option string) : option string :=
  match o with
  | Some s => if is_empty s then None else Some s
  | None => None
  end.





(** [add_custom_mappings], from the items of the mappings file. *)
Definition add_custom_mappings (custom : list (string * official_info)) (self : lookup)
    : lookup :=
  {| root_folders_to_ignore := root_folders_to_ignore self;
     folder_to_path_map :=
       List.fold_left (fun m it => <[ fst it := snd it ]> m) custom
         (folder_to_path_map self);
     sonarr_series_details := sonarr_series_details self;
     radarr_movie_details := radarr_movie_details self |}.


End CatalogLoad.

(** ** The scan that builds the folder index (find_media_dupes.py, src/find_dupes.py) *)

Module Scanner.
Import Py Grouper.

(** [Path(p).suffix], on the last component of the path: the text from
    its last dot on, when that dot is neither its first nor its last
    character. *)
Fixpoint from_last_dot (s : string) : option string :=
  match s with
  | EmptyString => None
  | String c s' =>
      match from_last_dot s' with
      | Some r => Some r
      | None => if Ascii.eqb c "." then Some s else None
      end
  end.

Definition suffix (p : string) : string :=
  match basename p with
  | EmptyString => ""
  | String _ rest =>
      match from_last_dot rest with
      | Some r => if (1 <? String.length r)%nat then r else ""
      | None => ""
      end
  end.

Definition video_extensions : list string :=
  [".mkv"; ".mp4"; ".avi"; ".mov"; ".wmv"; ".m4v"].

Definition is_video_file (filepath : string) : bool :=
  existsb (String.eqb (lower (suffix filepath))) video_extensions.

(** [filepath.parent.name] and [filepath.parent.parent.name], for the
    absolute paths [rglob] yields under a resolved root. *)
Definition get_parent_folder_name (filepath : string) : string :=
  basename (dirname filepath).

Definition get_grandparent_folder_name (filepath : string) : string :=
  basename (dirname (dirname filepath)).

(** [folder_map[k].append(v)] on a [defaultdict(list)]. *)
Fixpoint dict_append (k v : string) (d : folder_index) : folder_index :=
  match d with
  | [] => [(k, [v])]
  | (k', vs) :: rest =>
      if String.eqb k' k then (k', List.app vs [v]) :: rest
      else (k', vs) :: dict_append k v rest
  end.

(** What the scan meets under a root: a path, whether it is a regular
    file, and whether it can be read. *)
Record entry := {
  path : string;
  is_file : bool;
  readable : bool
}.

Section Scanning.

(** [find_media_dupes.py] asks [has_read_permission] before it indexes a
    file; [src/find_dupes.py] does not. *)
Variable check_permission : bool.

(** The body of the loop over [root.rglob('*')]. *)
Definition scan_entry (folder_map : folder_index) (e : entry) : folder_index :=
  if is_file e && is_video_file (path e) then
    if negb check_permission || readable e then
      let parent := get_parent_folder_name (path e) in
      let grandparent := get_grandparent_folder_name (path e) in
      let folder_map :=
        if is_empty parent then folder_map else dict_append parent (path e) folder_map in
      if is_empty grandparent then folder_map
      else dict_append grandparent (path e) folder_map
    else folder_map
  else folder_map.

(** The index after the roots have been walked, one after the other. *)
Definition scan (entries : list entry) : folder_index :=
  List.fold_left scan_entry entries [].

End Scanning.

(** [scan_for_duplicates] of [find_media_dupes.py]: the scan, then the
    grouper. *)
Definition scan_for_duplicates (ratio : string -> string -> Q) (entries : list entry)
    : list group :=
  find_similar_media_folders ratio true (scan true entries).

End Scanner.

(** ** [format_size] (find_media_dupes.py, src/find_dupes.py) *)

Module Sizes.
Import Py.

(** [x < y] on the numbers. *)
Definition Qlt_bool (x y : Q) : bool := negb (Qle_bool y x).

Section Formatting.

(** [f"{x:.2f}"] *)
Variable fmt2 : Q -> string.

(** [for unit in units: ...], then the [return] after the loop. *)
Fixpoint format_units (units : list string) (size_bytes : Q) : string :=
  match units with
  | [] => fmt2 size_bytes ++ " TB"
  | unit :: rest =>
      if Qlt_bool size_bytes 1024 then fmt2 size_bytes ++ " " ++ unit
      else format_units rest (size_bytes / 1024)
  end.

Definition format_size (size_bytes : Q) : string :=
  format_units ["B"; "KB"; "MB"; "GB"; "TB"] size_bytes.

End Formatting.

End Sizes.

(** ** The quick finder (quick_duplicate_finder.py) *)

Module Quick.
Import Py Grouper Scanner.

(** A directory given to the scan that exists: its resolved path and
    what [os.listdir] returns for it, each item with the answer of
    [os.path.isdir]. *)
Record directory := {
  root_path : string;
  items : list (string * bool)
}.

(** The body of [for item in os.listdir(root_path)]. *)
Definition scan_item (root : string) (folder_map : folder_index) (it : string * bool)
    : folder_index :=
  if snd it then dict_append (fst it) (path_join root (fst it)) folder_map
  else folder_map.

(** [scan_directories]: the index [media_folder_map], and the folders
    with more than one path. *)
Definition media_folder_map (directories : list directory) : folder_index :=
  List.fold_left
    (fun folder_map d => List.fold_left (scan_item (root_path d)) (items d) folder_map)
    directories [].

Definition scan_directories (directories : list directory) : folder_index :=
  List.filter (fun it => (1 <? length (snd it))%nat) (media_folder_map directories).

(** An entry of [self.duplicates]. *)
Record duplicate_info := {
  folder_name : string;
  official_path : option string;
  server : option string;
  all_paths : list string;
  duplicate_paths : list string
}.

(** The part of a [MediaManager] the later steps read. *)
Record manager := {
  sonarr_series_paths : list (string * string);
  radarr_movie_paths : list (string * string);
  duplicates : list duplicate_info
}.

(** [if official_path:] *)
Definition truthy (official_path : option string) : bool :=
  match official_path with
  | Some p => negb (is_empty p)
  | None => false
  end.

(** [folder_path in path or path in folder_path] *)
Definition touches (folder_path path : string) : bool :=
  contains path folder_path || contains folder_path path.

(** One of the two loops over a catalog: [found] is the pair of
    [official_path] and [server_name]. *)
Fixpoint search (server_name : string) (catalog : list (string * string))
    (folder_paths : list string) (found : option string * option string)
    : option string * option string :=
  match catalog with
  | [] => found
  | (_, path) :: rest =>
      let found :=
        if existsb (fun folder_path => touches folder_path path) folder_paths
        then (Some path, Some server_name)
        else found in
      if truthy (fst found) then found else search server_name rest folder_paths found
  end.

Definition locate (self : manager) (folder_paths : list string)
    : option string * option string :=
  let found := search "Sonarr" (sonarr_series_paths self) folder_paths (None, None) in
  if truthy (fst found) then found
  else search "Radarr" (radarr_movie_paths self) folder_paths found.

(** The entry built for one folder. *)
Definition entry_for (self : manager) (it : string * list string) : duplicate_info :=
  let found := locate self (snd it) in
  {| folder_name := fst it;
     official_path := fst found;
     server := snd found;
     all_paths := snd it;
     duplicate_paths :=
       match fst found with
       | Some official =>
           if is_empty official then snd it
           else List.filter
                  (fun path => negb (contains official path || contains path official))
                  (snd it)
       | None => snd it
       end |}.

(** The body of [for folder_name, folder_paths in ...]: the entry is
    appended when it has a duplicate path. *)
Definition add_entry (self : manager) (dups : list duplicate_info)
    (it : string * list string) : list duplicate_info :=
  let d := entry_for self it in
  match duplicate_paths d with
  | [] => dups
  | _ :: _ => List.app dups [d]
  end.

(** [determine_official_paths]: the list [self.duplicates] afterwards. *)
Definition determine_official_paths (self : manager)
    (duplicate_folders : folder_index) : list duplicate_info :=
  List.fold_left (add_entry self) duplicate_folders (duplicates self).

End Quick.

(** ** The report of [find_media_dupes.py], written and read back *)

Module FinderReport.
Import Py Grouper Report.

Section Writing.

Variable size_text : string -> option string.
Variable fmt2 : Q -> string.

(** The body of [for group in results] in [main]: the heading, the
    files, a line for each similar folder, and an empty line. *)
Definition write_group (g : group) : list string :=
  List.app (group_heading g)
    (List.app (List.map (file_line size_text) (files g))
       (List.app
          (List.map (fun fs => similar_line fmt2 (fst fs) (snd fs))
             (List.combine (similar_folders g) (similarity_scores g)))
          [newline])).

(** Everything [main] writes to the report, write after write. *)
Definition main_report (results : list group) : list string :=
  ("=== Potential Duplicate Media Report ===" ++ newline ++ newline)
    :: match results with
       | [] => ["No potential duplicates found." ++ newline]
       | _ :: _ => List.flat_map write_group results
       end.

End Writing.

(** The content of the file after the writes. *)
Definition text_of (chunks : list string) : string :=
  List.fold_right String.append "" chunks.

Definition is_lf (c : ascii) : bool := Ascii.eqb c (chr 10).
Definition is_cr (c : ascii) : bool := Ascii.eqb c (chr 13).

(** [f.readlines()] on a file opened in text mode: a line ends after a
    line feed, a carriage return, or the two in a row, and the line read
    ends with a line feed.  [cur] is the line being read. *)
Fixpoint readlines_from (cur : string) (s : string) : list string :=
  match s with
  | EmptyString => if is_empty cur then [] else [cur]
  | String c s' =>
      if is_lf c then (cur ++ newline) :: readlines_from "" s'
      else if is_cr c then
        (cur ++ newline)
          :: match s' with
             | String d s'' => if is_lf d then readlines_from "" s'' else readlines_from "" s'
             | EmptyString => []
             end
      else readlines_from (cur ++ String c "") s'
  end.

Definition readlines (text : string) : list string := readlines_from "" text.

End FinderReport.

(** ** Notions used in the statements and in the proofs *)

(** Strings that [str.split] returns. *)
Module Tokens.
Import Py.

(** Every character of the string passes the test. *)
Fixpoint all_chars (p : ascii -> bool) (s : string) : bool :=
  match s with
  | EmptyString => true
  | String c s' => p c && all_chars p s'
  end.

Definition no_space (s : string) : bool := all_chars (fun c => negb (is_space c)) s.

(** A word of [str.split]: not empty, and free of white space. *)
Definition is_token (w : string) : bool := negb (is_empty w) && no_space w.

End Tokens.

Module ParserNotions.
Import Py Cleanup.

(** A group, and a state of the parser, that hold no file. *)
Definition no_files (g : group) : Prop := base_files g = [] /\ similar_files g = [].

Definition parser_no_files (st : parser) : Prop :=
  List.Forall no_files (groups st) /\
  (forall g, current_group st = Some g -> no_files g).

End ParserNotions.

Module GrouperNotions.
Import Py Normalizer Grouper.

(** Every name of the emitted groups, group after group. *)
Definition names (gs : list group) : list string :=
  List.concat (List.map members gs).

Section Grouping.

Variable ratio : string -> string -> Q.
Variable extend_files : bool.
Variable folder_map : folder_index.

(** The test the inner loop makes on one candidate. *)
Definition joins (folder1 clean_name1 : string) (processed : gset string)
    (it : string * string) : bool :=
  negb (String.eqb folder1 (fst it))
  && bool_decide (fst it ∉ processed)
  && negb (is_empty (snd it))
  && above_threshold (ratio clean_name1 (snd it)).

(** The candidates one pass of the inner loop adds, with their scores. *)
Fixpoint picked (folder1 clean_name1 : string) (l : list (string * string))
    (processed : gset string) : list (string * Q) :=
  match l with
  | [] => []
  | it :: l' =>
      if joins folder1 clean_name1 processed it
      then (fst it, ratio clean_name1 (snd it))
             :: picked folder1 clean_name1 l' ({[ fst it ]} ∪ processed)
      else picked folder1 clean_name1 l' processed
  end.

Definition add_all (g : group) (picks : list (string * Q)) : group :=
  {| base_folder := base_folder g;
     similar_folders := List.app (similar_folders g) (List.map fst picks);
     similarity_scores := List.app (similarity_scores g) (List.map snd picks);
     files := if extend_files
              then List.app (files g)
                     (List.concat (List.map (fun p => files_of folder_map (fst p)) picks))
              else files g |}.

(** The group a pass builds around a base. *)
Definition grown (folder1 : string) (picks : list (string * Q)) : group :=
  add_all {| base_folder := folder1; similar_folders := [];
             similarity_scores := []; files := files_of folder_map folder1 |} picks.

(** What holds of an emitted group: its base has a non-empty key, it has a
    similar member, and each member is another name with a non-empty key
    whose recorded score is the ratio of the base's key against its own,
    above the threshold. *)
Definition member_ok (base member : string) (score : Q) : Prop :=
  member <> base /\ clean_media_name member <> ""
  /\ score = ratio (clean_media_name base) (clean_media_name member)
  /\ above_threshold score = true.

Definition group_ok (g : group) : Prop :=
  clean_media_name (base_folder g) <> ""
  /\ similar_folders g <> []
  /\ List.Forall2 (member_ok (base_folder g)) (similar_folders g) (similarity_scores g).

(** The invariant of the outer loop. *)
Definition loop_inv (st : list group * gset string) : Prop :=
  List.NoDup (names (fst st))
  /\ (forall x, List.In x (names (fst st)) -> x ∈ snd st)
  /\ List.Forall group_ok (fst st).

End Grouping.

End GrouperNotions.

Module PathMappingNotions.
Import PathMapping.

(** Descending order of the keys. *)
Definition longer_first (a b : mapping) : Prop := (key b <= key a)%nat.

End PathMappingNotions.

Module LookupNotions.
Import Py Lookup.

(** When a tier can succeed. *)
Definition catalog (self : lookup) : list (string * details) :=
  List.app (sonarr_series_details self) (radarr_movie_details self).



End LookupNotions.

Module PlannerNotions.
Import Py Cleanup.

Section Planner.

Variable py_float : string -> option Q.

(** The largest file size of a side: defined when the side has a file and
    the size of each of its files can be read. *)
Definition largest (side : list file_entry) : option Z :=
  match sizes_of py_float side with
  | Ok (n :: ns) => Some (maximum n ns)
  | _ => None
  end.

End Planner.

End PlannerNotions.

(** The three tests of [are_related_media_paths] that can decide. *)
Module RelatedNotions.
Import Py Lookup.

(** The basenames are equal, case apart. *)
Definition same_basename (path1 path2 : string) : bool :=
  String.eqb (lower (basename path1)) (lower (basename path2)).

(** One of the basenames is the folder name of the group, case apart. *)
Definition named_like_folder (path1 path2 folder_name : string) : bool :=
  negb (is_empty folder_name)
  && (String.eqb (lower (basename path1)) (lower folder_name)
      || String.eqb (lower (basename path2)) (lower folder_name)).

(** Both basenames match the movie pattern, and without their year the
    names are equal or one holds the other. *)
Definition titles_overlap (path1 path2 : string) : bool :=
  match movie_name (basename path1), movie_name (basename path2) with
  | Some g1, Some g2 =>
      String.eqb (strip (lower g1)) (strip (lower g2))
      || contains (strip (lower g2)) (strip (lower g1))
      || contains (strip (lower g1)) (strip (lower g2))
  | _, _ => false
  end.

End RelatedNotions.

Module CatalogNotions.
Import Py Lookup.


End CatalogNotions.

Module ReportShape.
Import Py Cleanup.

(** The three kinds of line the parser acts on, as it tests them on the
    stripped line. *)
Definition is_heading (raw : string) : bool :=
  startswith (strip raw) "===" && (10 <? String.length (strip raw))%nat.

Definition is_base_line (raw : string) : bool := startswith (strip raw) "Base Folder:".

Definition is_similar_line (raw : string) : bool :=
  startswith (strip raw) "Similar Folder".

Definition base_name (raw : string) : string :=
  strip (remove_all "Base Folder:" (strip raw)).

(** A "Similar Folder" line comes before the first heading line. *)
Fixpoint orphan_similar (lines : list string) : bool :=
  match lines with
  | [] => false
  | l :: rest =>
      if is_heading l then false
      else if is_similar_line l then true
      else orphan_similar rest
  end.

(** The lines up to the next heading line. *)
Fixpoint body (lines : list string) : list string :=
  match lines with
  | [] => []
  | l :: rest => if is_heading l then [] else l :: body rest
  end.

(** The bodies that follow the heading lines, in order. *)
Fixpoint sections (lines : list string) : list (list string) :=
  match lines with
  | [] => []
  | l :: rest => if is_heading l then body rest :: sections rest else sections rest
  end.

(** A group after the lines of a body: the last "Base Folder" line names
    it, every "Similar Folder" line is kept whole, no file is added. *)
Definition extend (g : group) (ls : list string) : group :=
  {| base_folder :=
       List.last (List.map (fun l => Some (base_name l)) (List.filter is_base_line ls))
         (base_folder g);
     base_files := base_files g;
     similar_folders :=
       List.app (similar_folders g) (List.map strip (List.filter is_similar_line ls));
     similar_files := similar_files g |}.

Definition group_of (ls : list string) : group := extend new_group ls.

End ReportShape.

Module GrouperShape.
Import Py Normalizer Grouper GrouperNotions.

Section Grouping.

Variable ratio : string -> string -> Q.
Variable extend_files : bool.
Variable folder_map : folder_index.

(** A group is cut from the index: its names are folder names of the
    index, it has a score for each similar member, and its files are the
    files of its base, followed in [find_media_dupes.py] by the files of
    its similar members. *)
Definition from_index (g : group) : Prop :=
  List.In (base_folder g) (List.map fst folder_map)
  /\ List.Forall (fun x => List.In x (List.map fst folder_map)) (similar_folders g)
  /\ length (similarity_scores g) = length (similar_folders g)
  /\ files g
     = List.app (files_of folder_map (base_folder g))
         (if extend_files
          then List.concat (List.map (files_of folder_map) (similar_folders g))
          else []).

(** The group left no candidate behind: every folder name with a
    non-empty key that is in none of the groups up to this one scores at
    most 0.9 against its base. *)
Definition took_all (before : list group) (g : group) : Prop :=
  forall x, List.In x (List.map fst folder_map) -> clean_media_name x <> "" ->
    ~ List.In x (names (List.app before [g])) ->
    (ratio (clean_media_name (base_folder g)) (clean_media_name x) <= 9 # 10)%Q.

(** The invariant of the outer loop for these two properties. *)
Definition shape_inv (st : list group * gset string) : Prop :=
  (forall x, x ∈ snd st -> List.In x (names (fst st)))
  /\ List.Forall from_index (fst st)
  /\ (forall before g after, fst st = List.app before (g :: after) -> took_all before g).

End Grouping.

End GrouperShape.

Module KeyNotions.
Import Py Re Normalizer Tokens.

(** A pattern that cannot tell a letter from its lower-case form. *)
Fixpoint case_blind (r : regex) : Prop :=
  match r with
  | Eps | Eol | WordB => True
  | Chr p | Star p => forall c, p (lower_char c) = p c
  | Cat r1 r2 | Alt r1 r2 => case_blind r1 /\ case_blind r2
  | Opt r1 => case_blind r1
  end.

Definition no_separator (s : string) : bool :=
  all_chars (fun c => negb (is_separator c)) s.

(** A continuation that answers on the lower-cased text as [k] does on
    the text. *)
Definition follows (k' k : option ascii -> string -> option string) : Prop :=
  forall prev s, k' (option_map lower_char prev) (lower s) = option_map lower (k prev s).

End KeyNotions.

Module ScannerNotions.
Import Py Scanner.

(** The file is one the scan indexes. *)
Definition indexed (check_permission : bool) (e : entry) : bool :=
  is_file e && is_video_file (path e) && (negb check_permission || readable e).

(** The entries a file contributes to the list of a folder name: one if
    the name is that of its parent, one if it is that of its
    grandparent. *)
Definition listed_under (check_permission : bool) (name : string) (e : entry)
    : list string :=
  if indexed check_permission e then
    List.app
      (if String.eqb (get_parent_folder_name (path e)) name then [path e] else [])
      (if String.eqb (get_grandparent_folder_name (path e)) name then [path e] else [])
  else [].

(** The keys of a dict: distinct, and here never the empty name. *)
Definition keys_ok (m : Grouper.folder_index) : Prop :=
  List.NoDup (List.map fst m) /\ ~ List.In "" (List.map fst m).

End ScannerNotions.

Module QuickNotions.
Import Py Quick.

(** The paths of the subdirectories called [name], over the directories
    scanned, in order. *)
Definition occurrences (directories : list directory) (name : string) : list string :=
  List.flat_map
    (fun d =>
       List.flat_map
         (fun it => if snd it && String.eqb (fst it) name
                    then [path_join (root_path d) (fst it)] else [])
         (items d))
    directories.

(** What holds of an entry of the quick report. *)
Definition entry_ok (self : manager) (d : duplicate_info) : Prop :=
  duplicate_paths d <> []
  /\ (forall p, List.In p (duplicate_paths d) -> List.In p (all_paths d))
  /\ match official_path d with
     | Some official =>
         if is_empty official then duplicate_paths d = all_paths d
         else
           (List.In official (List.map snd (sonarr_series_paths self))
            \/ List.In official (List.map snd (radarr_movie_paths self)))
           /\ (forall p, List.In p (duplicate_paths d) ->
                 contains official p = false /\ contains p official = false)
           /\ (length (duplicate_paths d) < length (all_paths d))%nat
     | None => duplicate_paths d = all_paths d
     end.

(** A catalog path and a folder that go together. *)
Definition matches (folder_paths : list string) (it : string * string) : bool :=
  existsb (fun folder_path => touches folder_path (snd it)) folder_paths.

End QuickNotions.

Module PipelineNotions.
Import Py Cleanup.

(** The block of the script for a group left to manual review, with no
    file on either side. *)
Definition review_block (i : nat) (g : group) : list string :=
  [ newline ++ "echo " ++ dquote ++ "Processing group " ++ str_of_nat i ++ "..."
      ++ dquote ++ newline;
    newline ++ "# Group " ++ str_of_nat i ++ ": " ++ base_folder_text g ++ newline;
    newline ++ "# Base files:" ++ newline;
    newline ++ "# Similar files:" ++ newline;
    manual_review_comment;
    none_managed_comment;
    newline ].

(** The groups with their numbers, from [first] on. *)
Definition numbered (first : nat) (gs : list group) : list (nat * group) :=
  List.combine (List.seq first (length gs)) gs.

End PipelineNotions.

Module RoundTripNotions.
Import Py Tokens Report FinderReport ReportShape.

(** A text without a line end in it. *)
Definition one_line (s : string) : bool :=
  all_chars (fun c => negb (is_lf c || is_cr c)) s.

(** Lines put together, each closed by a line feed. *)
Definition unlines (ls : list string) : string :=
  List.fold_right (fun l acc => l ++ newline ++ acc) "" ls.

(** A line as [readlines] returns it. *)
Definition closed (l : string) : string := l ++ newline.

Section Writing.

Variable size_text : string -> option string.
Variable fmt2 : Q -> string.

(** The lines of the report, without their line ends. *)
Definition file_text (file : string) : string :=
  match size_text file with
  | Some size => "  " ++ file ++ " (" ++ size ++ ")"
  | None => "  " ++ file
  end.

Definition similar_text (fs : string * Q) : string :=
  "Similar Folder (similarity: " ++ fmt2 (snd fs) ++ "): " ++ fst fs.

Definition similar_pairs (g : Grouper.group) : list (string * Q) :=
  List.combine (Grouper.similar_folders g) (Grouper.similarity_scores g).

(** The lines of a group after its line of [=]. *)
Definition group_tail (g : Grouper.group) : list string :=
  ("Base Folder: " ++ Grouper.base_folder g)
    :: "Files:"
    :: List.app (List.map file_text (Grouper.files g))
         (List.app (List.flat_map (fun fs => [""; similar_text fs]) (similar_pairs g))
            [""]).

Definition group_lines (g : Grouper.group) : list string :=
  "" :: separator :: group_tail g.

Definition report_lines (results : list Grouper.group) : list string :=
  "=== Potential Duplicate Media Report ==="
    :: ""
    :: match results with
       | [] => ["No potential duplicates found."]
       | _ :: _ => List.flat_map group_lines results
       end.

(** What the parser of [src/cleanup_dupes.py] makes of a group of the
    report: the text of its base line, its "Similar Folder" lines, and no
    file. *)
Definition parsed (g : Grouper.group) : Cleanup.group :=
  {| Cleanup.base_folder :=
       Some (base_name (closed ("Base Folder: " ++ Grouper.base_folder g)));
     Cleanup.base_files := [];
     Cleanup.similar_folders :=
       List.map (fun fs => strip (closed (similar_text fs))) (similar_pairs g);
     Cleanup.similar_files := [] |}.

(** A group whose names hold no line end and whose files have absolute
    paths. *)
Definition printable (g : Grouper.group) : Prop :=
  one_line (Grouper.base_folder g) = true
  /\ List.Forall (fun x => one_line x = true) (Grouper.similar_folders g)
  /\ List.Forall (fun f => one_line f = true /\ startswith f "/" = true)
       (Grouper.files g).

(** The two formatting functions print on one line. *)
Definition prints_one_line : Prop :=
  (forall q, one_line (fmt2 q) = true)
  /\ (forall f size, size_text f = Some size -> one_line size = true).

End Writing.

(** A line the parser passes over. *)
Definition inert (l : string) : Prop :=
  is_heading l = false /\ is_base_line l = false /\ is_similar_line l = false.

End RoundTripNotions.

(** ** Sample inputs *)

Module Samples.
Import Py Grouper PathMapping Lookup Cleanup.

(** A report of one group: two files under the base folder, then a similar
    folder with one file, each line as [write_report] lays it out. *)
Definition sample_report : list string :=
  [ Report.separator;
    "Base Folder: Moonlight";
    "Files:";
    "  /mnt/a/Moonlight/film.mkv (1.00 GB)";
    "  /mnt/a/Moonlight/extras.mkv";
    "";
    "Similar Folder (similarity: 0.95): Moonlights";
    "  /mnt/b/Moonlights/film.mkv (2.00 GB)" ].

(** Three folders: the second and the third each differ from the first by
    one added letter, at opposite ends. *)
Definition moonlight_index : folder_index :=
  [ ("moonlight", ["/a/moonlight/film.mkv"]);
    ("moonlights", ["/b/moonlights/film.mkv"]);
    ("amoonlight", ["/c/amoonlight/film.mkv"]) ].

(** The two mappings of the path-translation example. *)
Definition tv : mapping :=
  {| PathMapping.service := "sonarr"; PathMapping.host_path := "/mnt/tv";
     PathMapping.container_path := "/data/tv" |}.
Definition anime : mapping :=
  {| PathMapping.service := "sonarr"; PathMapping.host_path := "/mnt/anime";
     PathMapping.container_path := "/data/tv/anime" |}.

(** A library whose canonical movies root is protected, and a report record
    that lists the root itself beside a backup copy. *)
Definition movies_lookup : lookup :=
  {| root_folders_to_ignore := ["/media/Movies"; "/media/TV"];
     folder_to_path_map := ∅;
     sonarr_series_details := [];
     radarr_movie_details :=
       [ ("Movies", {| d_title := "Movies"; d_container_path := "/movies/Movies";
                       d_host_path := "/media/Movies/Movies" |}) ] |}.

Definition movies_record : report_record :=
  {| folder_match := Some "Movies";
     path_matches := ["/media/Movies"; "/backup/Movies"] |}.

(** A series known to the catalog under the folder [Show Name], and a
    second one whose folder name contains that name: for the group
    [Show Name] both the direct lookup and the fuzzy match can succeed. *)
Definition show_entry : official_info :=
  {| kind := Series; title := "Show Name"; host_path := "/library/tv/Show Name";
     match_type := None |}.

Definition show_lookup : lookup :=
  {| root_folders_to_ignore := [];
     folder_to_path_map := {[ "Show Name" := show_entry ]};
     sonarr_series_details :=
       [ ("Show Name Extended",
          {| d_title := "Show Name Extended";
             d_container_path := "/tv/Show Name Extended";
             d_host_path := "/library/tv/Show Name Extended" |});
         ("Show Name",
          {| d_title := "Show Name"; d_container_path := "/tv/Show Name";
             d_host_path := "/library/tv/Show Name" |}) ];
     radarr_movie_details := [] |}.

(** A title folder managed by the series catalog, with a release folder
    nested in it: the scanner lists the nested file under both folder
    names, so it is a file of the base side and of the similar side. *)
Definition nested_group : group :=
  {| base_folder := Some "Show Name";
     base_files :=
       [ ("/library/tv/Show Name/pilot.mkv", "1.00 GB");
         ("/library/tv/Show Name/Show.Name.1080p/episode.mkv", "2.00 GB") ];
     similar_folders := ["Similar Folder (similarity: 1.00): Show.Name.1080p"];
     similar_files :=
       [ ("/library/tv/Show Name/Show.Name.1080p/episode.mkv", "2.00 GB") ] |}.

Definition nested_sonarr : gmap string string :=
  {[ "/library/tv/Show Name" := "Show Name" ]}.

(** Two copies of a film that no catalog manages, the second twice as
    large; and the same with the size of the second copy missing. *)
Definition unmanaged_group : group :=
  {| base_folder := Some "Moonlight";
     base_files := [ ("/mnt/a/Moonlight/film.mkv", "1.00 GB") ];
     similar_folders := ["Similar Folder (similarity: 0.95): Moonlights"];
     similar_files := [ ("/mnt/b/Moonlights/film.mkv", "2.00 GB") ] |}.

Definition unsized_group : group :=
  {| base_folder := Some "Moonlight";
     base_files := [ ("/mnt/a/Moonlight/film.mkv", "1.00 GB") ];
     similar_folders := ["Similar Folder (similarity: 0.95): Moonlights"];
     similar_files := [ ("/mnt/b/Moonlights/film.mkv", "Unknown") ] |}.

(** A reader for the numerals [format_size] writes, digits with two
    decimals: it stands for [float] in the examples.  [n] is the number
    read so far and [d] the power of ten below the point, once it has been
    passed. *)
Fixpoint decimal_from (n : Z) (d : option positive) (s : string) : option Q :=
  match s with
  | EmptyString =>
      match d with
      | Some p => Some (n # p)
      | None => Some (inject_Z n)
      end
  | String c s' =>
      if is_digit c then
        decimal_from (10 * n + Z.of_nat (code c - 48))
          (option_map (fun p => (10 * p)%positive) d) s'
      else if Ascii.eqb c "." then
        match d with
        | None => decimal_from n (Some 1%positive) s'
        | Some _ => None
        end
      else None
  end.

Definition decimal (s : string) : option Q :=
  if is_empty s then None else decimal_from 0 None s.

(** A file whose size text is not a size, in a group no catalog manages. *)
Definition unreadable_group : group :=
  {| base_folder := Some "Heat";
     base_files := [ ("/mnt/a/Heat/film.mkv", "large") ];
     similar_folders := ["Similar Folder (similarity: 1.00): Heat (1995)"];
     similar_files := [ ("/mnt/b/Heat (1995)/film.mkv", "2.00 GB") ] |}.

(** Two services that mount the same container folder on different host
    folders. *)
Definition sonarr_data : mapping :=
  {| PathMapping.service := "sonarr"; PathMapping.host_path := "/mnt/tv";
     PathMapping.container_path := "/data" |}.
Definition radarr_data : mapping :=
  {| PathMapping.service := "radarr"; PathMapping.host_path := "/mnt/movies";
     PathMapping.container_path := "/data" |}.

(** An index with a folder that resembles no other. *)
Definition heat_index : Grouper.folder_index :=
  [ ("Moonlight", ["/a/Moonlight/film.mkv"]);
    ("Heat (1995)", ["/a/Heat (1995)/heat.mkv"]);
    ("Moonlights", ["/b/Moonlights/film.mkv"]) ].

(** A manager that knows one series and one movie. *)
Definition quick_manager : Quick.manager :=
  {| Quick.sonarr_series_paths := [("Show Name", "/library/tv/Show Name")];
     Quick.radarr_movie_paths := [("Heat", "/library/movies/Heat (1995)")];
     Quick.duplicates := [] |}.

(** What a scan meets: a release folder inside the folder of a film, the
    same film elsewhere, and a file that is no video. *)
Definition scanned : list Scanner.entry :=
  [ {| Scanner.path := "/a/Moonlight/Moonlight.1080p/film.mkv";
       Scanner.is_file := true; Scanner.readable := true |};
    {| Scanner.path := "/b/Moonlights/film.mkv";
       Scanner.is_file := true; Scanner.readable := true |};
    {| Scanner.path := "/b/Moonlights/cover.jpg";
       Scanner.is_file := true; Scanner.readable := true |} ].


End Samples.

(* ===================================================================== *)
(** * Part II: properties                                                  *)
(* ===================================================================== *)

(** ** Facts about the string built-ins *)

Module PyFacts.
Import Py.

(** [String.append] is not unfolded by [simpl]; its equations are used as
    rewriting rules. *)
Lemma append_cons (c : ascii) (s t : string) : String c s ++ t = String c (s ++ t).
Proof. reflexivity. Qed.

Lemma append_nil_l (s : string) : "" ++ s = s.
Proof. reflexivity. Qed.

Lemma append_nil_r (s : string) : s ++ "" = s.
Proof. induction s as [|c s IH]; [done|]. by rewrite append_cons, IH. Qed.

Lemma append_assoc (a b c : string) : (a ++ b) ++ c = a ++ (b ++ c).
Proof. induction a as [|x a IH]; [done|]. by rewrite !append_cons, IH. Qed.

Lemma prefix_append (p rest : string) : String.prefix p (p ++ rest) = true.
Proof.
  induction p as [|c p IH]; [by destruct rest|].
  rewrite append_cons. cbn [String.prefix].
  by destruct (ascii_dec c c).
Qed.

Lemma prefix_head_ne (c d : ascii) (s t : string) :
  c <> d -> String.prefix (String c s) (String d t) = false.
Proof. intros H. cbn [String.prefix]. by destruct (ascii_dec c d). Qed.

Lemma eqb_head_ne (c d : ascii) (s t : string) :
  Ascii.eqb c d = false -> String.eqb (String c s) (String d t) = false.
Proof. intros H. cbn [String.eqb]. by rewrite H. Qed.

Lemma lstrip_by_head (p : ascii -> bool) (s : string) :
  lstrip_by p s = "" \/ exists c t, lstrip_by p s = String c t /\ p c = false.
Proof.
  induction s as [|c s IH]; simpl; [by left|].
  destruct (p c) eqn:E; [exact IH|].
  right. by exists c, s.
Qed.

Lemma rstrip_by_keeps_head (p : ascii -> bool) (c : ascii) (t : string) :
  p c = false -> rstrip_by p (String c t) = String c (rstrip_by p t).
Proof. intros H. simpl. by rewrite H, andb_false_r. Qed.

(** A stripped string is empty or starts with a character that is not
    white space. *)
Lemma strip_head (s : string) :
  strip s = "" \/ exists c t, strip s = String c t /\ is_space c = false.
Proof.
  unfold strip.
  destruct (lstrip_by_head is_space s) as [->|(c & t & -> & Hc)]; [by left|].
  right. exists c, (rstrip_by is_space t). by rewrite rstrip_by_keeps_head.
Qed.

(** No stripped string starts with a blank. *)
Lemma strip_not_indented (s rest : string) :
  startswith (strip s) (String " " rest) = false.
Proof.
  destruct (strip_head s) as [->|(c & t & -> & Hc)]; [done|].
  unfold startswith; cbn [String.prefix].
  destruct (ascii_dec " " c) as [<-|]; [by vm_compute in Hc|done].
Qed.

End PyFacts.

(** ** The report parser drops every file line (claims C9 and C10) *)

Module ParserFacts.
Import Py PyFacts Cleanup ParserNotions Samples.

Lemma push_current_no_files (st : parser) :
  parser_no_files st -> List.Forall no_files (push_current st).
Proof.
  intros [Hg Hc]. unfold push_current.
  destruct (current_group st) as [g|]; [|done].
  apply List.Forall_app. split; [done|]. constructor; [by apply Hc|constructor].
Qed.

(** The branch for file lines is never taken: the test [startswith('  /')]
    is made on the stripped line. *)
Lemma parse_line_no_files (st st' : parser) (raw : string) :
  parser_no_files st -> parse_line st raw = Ok st' -> parser_no_files st'.
Proof.
  intros Hst. unfold parse_line.
  rewrite (strip_not_indented raw " /").
  destruct (startswith (strip raw) "===" && _) eqn:E1.
  { intros [= <-]. split; simpl; [by apply push_current_no_files|].
    by intros g [= <-]. }
  destruct (startswith (strip raw) "Base Folder:") eqn:E2.
  { destruct (current_group st) as [g|] eqn:Eg; intros [= <-]; [|done].
    destruct Hst as [Hg Hc]. split; simpl; [done|].
    intros g' [= <-]. destruct (Hc g Eg) as [H1 H2]. by split. }
  destruct (startswith (strip raw) "Similar Folder") eqn:E3.
  { destruct (current_group st) as [g|] eqn:Eg; [|done]. intros [= <-].
    destruct Hst as [Hg Hc]. split; simpl; [done|].
    intros g' [= <-]. destruct (Hc g Eg) as [H1 H2]. by split. }
  by intros [= <-].
Qed.

Lemma parse_lines_no_files (lines : list string) (st st' : parser) :
  parser_no_files st -> parse_lines st lines = Ok st' -> parser_no_files st'.
Proof.
  revert st. induction lines as [|l lines IH]; intros st Hst; simpl.
  - by intros [= <-].
  - destruct (parse_line st l) as [st1|e] eqn:E; [|done].
    apply IH. by eapply parse_line_no_files.
Qed.

(** Whatever the report holds, no group [parse_report] returns has a file
    on either side. *)
Lemma parse_report_records_no_file (lines : list string) (gs : list group) :
  parse_report lines = Ok gs -> List.Forall no_files gs.
Proof.
  unfold parse_report.
  destruct (parse_lines _ lines) as [st|e] eqn:E; [|done].
  intros [= <-]. apply push_current_no_files.
  eapply parse_lines_no_files; [|exact E].
  split; simpl; [constructor|done].
Qed.

(** For every report: when [parse_report] returns, none of the groups it
    returns has a file on either side. *)
Lemma parse_report_never_records_a_file (lines : list string) :
  match parse_report lines with
  | Ok gs => List.Forall (fun g => base_files g = [] /\ similar_files g = []) gs
  | Raise _ => True
  end.
Proof.
  destruct (parse_report lines) as [gs|e] eqn:E; [|done].
  by apply parse_report_records_no_file in E.
Qed.

(** The branch the parser never reaches classifies a file by position
    only: on the base side as long as the group has no "Similar Folder"
    line, on the similar side afterwards. *)
Lemma add_file_side (g : group) (e : file_entry) :
  (similar_folders g = [] ->
   base_files (add_file g e) = List.app (base_files g) [e]
   /\ similar_files (add_file g e) = similar_files g)
  /\ (similar_folders g <> [] ->
      base_files (add_file g e) = base_files g
      /\ similar_files (add_file g e) = List.app (similar_files g) [e]).
Proof.
  unfold add_file. destruct (similar_folders g); split; intros H; try done.
Qed.

(** C9 (the code departs from the claim).  On [sample_report] the parser
    returns the group with its base folder and its similar-folder line, and
    with no file on the base side and none on the similar side: the two
    path lines before the "Similar Folder" line are not recorded as base
    files and the path line after it is not recorded as a similar file. *)
Theorem parse_report_drops_path_lines :
  parse_report sample_report =
    Ok [ {| base_folder := Some "Moonlight";
            base_files := [];
            similar_folders := ["Similar Folder (similarity: 0.95): Moonlights"];
            similar_files := [] |} ].
Proof. vm_compute. reflexivity. Qed.

(** The branch that the parser never reaches would have read the path and
    the size of a file line, and ['Unknown'] where no size is given. *)
Lemma read_file_line_sized :
  read_file_line "  /mnt/a/Moonlight/film.mkv (1.00 GB)"
  = ("/mnt/a/Moonlight/film.mkv", "1.00 GB").
Proof. vm_compute. reflexivity. Qed.

Lemma read_file_line_unsized :
  read_file_line "  /mnt/a/Moonlight/extras.mkv"
  = ("/mnt/a/Moonlight/extras.mkv", "Unknown").
Proof. vm_compute. reflexivity. Qed.

(** C10 (the code departs from the claim).  A file line without a size
    annotation is not parsed with size ['Unknown']: it is not recorded at
    all, so the report of one such line parses to a group without files. *)
Theorem unsized_file_line_is_dropped :
  parse_report
    [ Report.separator; "Base Folder: Moonlight"; "Files:";
      "  /mnt/a/Moonlight/extras.mkv" ]
  = Ok [ {| base_folder := Some "Moonlight"; base_files := [];
            similar_folders := []; similar_files := [] |} ].
Proof. vm_compute. reflexivity. Qed.

End ParserFacts.

(** ** The grouper (claims C3 and C4) *)

Module GrouperFacts.
Import Py Normalizer Grouper GrouperNotions Samples.

Section Grouping.

Variable ratio : string -> string -> Q.
Variable extend_files : bool.
Variable folder_map : folder_index.

Lemma add_all_nil (g : group) : add_all extend_files folder_map g [] = g.
Proof.
  destruct g; unfold add_all; simpl.
  rewrite !List.app_nil_r. by destruct extend_files.
Qed.

(** The inner loop adds exactly the picked candidates. *)
Lemma scan_similar_fold (folder1 clean_name1 : string) (l : list (string * string))
    (g : group) (processed : gset string) :
  List.fold_left (scan_similar ratio extend_files folder_map folder1 clean_name1) l
    (g, processed)
  = (add_all extend_files folder_map g (picked ratio folder1 clean_name1 l processed),
     list_to_set (List.map fst (picked ratio folder1 clean_name1 l processed)) ∪ processed).
Proof.
  revert g processed. induction l as [|[x c] l IH]; intros g processed.
  - simpl. rewrite add_all_nil. f_equal. set_solver.
  - cbn [List.fold_left picked]. unfold scan_similar at 2, joins. cbn [fst snd].
    destruct (negb (String.eqb folder1 x) && bool_decide (x ∉ processed)
              && negb (is_empty c)) eqn:E; cbn [andb].
    + destruct (above_threshold (ratio clean_name1 c)) eqn:Ea.
      * rewrite IH. f_equal.
        -- unfold add_all; cbn [base_folder similar_folders similarity_scores files].
           cbn [List.map List.concat fst snd].
           rewrite <- !List.app_assoc. cbn [List.app].
           destruct extend_files; [|done].
           by rewrite <- !List.app_assoc.
        -- cbn [List.map fst]. set_solver.
      * apply IH.
    + apply IH.
Qed.

(** What is known of a picked candidate. *)
Lemma picked_sound (folder1 clean_name1 : string) (l : list (string * string))
    (processed : gset string) (x : string) (r : Q) :
  List.In (x, r) (picked ratio folder1 clean_name1 l processed) ->
  (x ∉ processed) /\ x <> folder1 /\
  exists c, List.In (x, c) l /\ c <> "" /\ r = ratio clean_name1 c
            /\ above_threshold r = true.
Proof.
  revert processed. induction l as [|[y c] l IH]; intros processed; cbn [picked].
  - intros [].
  - unfold joins; cbn [fst snd].
    destruct (negb (String.eqb folder1 y)) eqn:E1; cbn [andb];
      [|intros H; destruct (IH _ H) as (?&?&c'&?&?); repeat split; eauto;
        exists c'; split; [by right|done]].
    destruct (bool_decide (y ∉ processed)) eqn:E2; cbn [andb];
      [|intros H; destruct (IH _ H) as (?&?&c'&?&?); repeat split; eauto;
        exists c'; split; [by right|done]].
    destruct (negb (is_empty c)) eqn:E3; cbn [andb];
      [|intros H; destruct (IH _ H) as (?&?&c'&?&?); repeat split; eauto;
        exists c'; split; [by right|done]].
    destruct (above_threshold (ratio clean_name1 c)) eqn:E4;
      [|intros H; destruct (IH _ H) as (?&?&c'&?&?); repeat split; eauto;
        exists c'; split; [by right|done]].
    intros [[= <- <-]|H].
    + apply bool_decide_eq_true in E2. apply negb_true_iff in E1.
      apply String.eqb_neq in E1.
      split; [done|]. split; [congruence|].
      exists c. split; [by left|]. split; [|done].
      by destruct c.
    + destruct (IH _ H) as (Hn & Hne & c' & Hin & Hrest).
      split; [set_solver|]. split; [done|].
      exists c'. split; [by right|done].
Qed.

Lemma picked_fresh (folder1 clean_name1 : string) (l : list (string * string))
    (processed : gset string) (x : string) :
  List.In x (List.map fst (picked ratio folder1 clean_name1 l processed)) -> x ∉ processed.
Proof.
  intros H. apply List.in_map_iff in H as ([y r] & <- & H).
  by apply picked_sound in H as [? _].
Qed.

(** No candidate is picked twice. *)
Lemma picked_NoDup (folder1 clean_name1 : string) (l : list (string * string))
    (processed : gset string) :
  List.NoDup (List.map fst (picked ratio folder1 clean_name1 l processed)).
Proof.
  revert processed. induction l as [|[y c] l IH]; intros processed; cbn [picked].
  - constructor.
  - destruct (joins ratio folder1 clean_name1 processed (y, c)); [|apply IH].
    cbn [List.map fst]. constructor; [|apply IH].
    intros H. apply picked_fresh in H. set_solver.
Qed.

(** A candidate that passes the test when the pass starts is picked. *)
Lemma picked_complete (folder1 clean_name1 : string) (l : list (string * string))
    (processed : gset string) (x c : string) :
  List.In (x, c) l -> joins ratio folder1 clean_name1 processed (x, c) = true ->
  List.In x (List.map fst (picked ratio folder1 clean_name1 l processed)).
Proof.
  revert processed. induction l as [|[y d] l IH]; intros processed; [intros []|].
  intros Hin Hj. cbn [picked].
  destruct (String.eqb y x) eqn:Eyx.
  - apply String.eqb_eq in Eyx as ->.
    destruct (joins ratio folder1 clean_name1 processed (x, d)) eqn:Ed; [by left|].
    destruct Hin as [[= ->]|Hin]; [congruence|]. by apply IH.
  - apply String.eqb_neq in Eyx.
    destruct Hin as [[= -> ->]|Hin]; [done|].
    destruct (joins ratio folder1 clean_name1 processed (y, d)) eqn:Ed; [|by apply IH].
    right. apply IH; [done|].
    unfold joins in *; cbn [fst snd] in *.
    apply andb_true_iff in Hj as [Hj Hj4]. apply andb_true_iff in Hj as [Hj Hj3].
    apply andb_true_iff in Hj as [Hj1 Hj2]. apply bool_decide_eq_true in Hj2.
    rewrite Hj1, Hj3, Hj4. cbn [andb]. rewrite !andb_true_r.
    apply bool_decide_eq_true. set_solver.
Qed.

(** One turn of the outer loop, in terms of the picked candidates. *)
Lemma open_group_eq (similar_groups : list group) (processed : gset string)
    (folder1 clean_name1 : string) :
  open_group ratio extend_files folder_map (similar_groups, processed)
    (folder1, clean_name1)
  = if bool_decide (folder1 ∈ processed) || is_empty clean_name1
    then (similar_groups, processed)
    else
      let picks := picked ratio folder1 clean_name1 (cleaned_folders folder_map) processed in
      match picks with
      | [] => (similar_groups, processed)
      | _ :: _ =>
          (List.app similar_groups [grown extend_files folder_map folder1 picks],
           {[ folder1 ]} ∪ (list_to_set (List.map fst picks) ∪ processed))
      end.
Proof.
  unfold open_group.
  destruct (bool_decide (folder1 ∈ processed) || is_empty clean_name1); [done|].
  rewrite scan_similar_fold. cbn zeta.
  destruct (picked ratio folder1 clean_name1 (cleaned_folders folder_map) processed)
    as [|p ps] eqn:E.
  - cbn. f_equal. set_solver.
  - reflexivity.
Qed.

Lemma cleaned_folders_key (x c : string) :
  List.In (x, c) (cleaned_folders folder_map) -> c = clean_media_name x.
Proof.
  unfold cleaned_folders. intros H.
  apply List.in_map_iff in H as (it & [= <- <-] & _). reflexivity.
Qed.

Lemma Forall2_picks (R : string -> Q -> Prop) (picks : list (string * Q)) :
  (forall x r, List.In (x, r) picks -> R x r) ->
  List.Forall2 R (List.map fst picks) (List.map snd picks).
Proof.
  induction picks as [|[x r] picks IH]; intros H; cbn [List.map fst snd].
  - constructor.
  - constructor; [apply H; by left|]. apply IH. intros y q Hy. apply H. by right.
Qed.

Lemma names_snoc (gs : list group) (g : group) :
  names (List.app gs [g]) = List.app (names gs) (members g).
Proof.
  unfold names. rewrite List.map_app, List.concat_app. cbn.
  by rewrite List.app_nil_r.
Qed.

Lemma members_grown (folder1 : string) (picks : list (string * Q)) :
  members (grown extend_files folder_map folder1 picks) = folder1 :: List.map fst picks.
Proof. reflexivity. Qed.

Lemma open_group_inv (st : list group * gset string) (folder1 : string) :
  loop_inv ratio st ->
  loop_inv ratio (open_group ratio extend_files folder_map st
              (folder1, clean_media_name folder1)).
Proof.
  destruct st as [gs P]. intros (Hnd & Hin & Hok).
  rewrite open_group_eq.
  destruct (bool_decide (folder1 ∈ P)) eqn:E1; cbn [orb]; [done|].
  destruct (is_empty (clean_media_name folder1)) eqn:E2; [done|].
  apply bool_decide_eq_false in E1. cbn zeta.
  set (picks := picked ratio folder1 (clean_media_name folder1)
                  (cleaned_folders folder_map) P).
  destruct picks as [|p ps] eqn:Ep; [done|]. rewrite <- Ep.
  assert (Hs : forall x r, List.In (x, r) picks ->
             (x ∉ P) /\ member_ok ratio folder1 x r).
  { intros x r Hx. apply picked_sound in Hx as (H1 & H2 & c & H3 & H4 & H5 & H6).
    pose proof (cleaned_folders_key _ _ H3) as ->.
    split; [done|]. by repeat split. }
  assert (Hm : forall x, List.In x (List.map fst picks) -> (x ∉ P) /\ x <> folder1).
  { intros x Hx. apply List.in_map_iff in Hx as ([y r] & <- & Hy).
    destruct (Hs _ _ Hy) as [? [? _]]. by split. }
  unfold loop_inv; cbn [fst snd]. rewrite names_snoc, members_grown.
  split; [|split].
  - apply List.NoDup_app; [done| |].
    + constructor; [|apply picked_NoDup].
      intros H. by destruct (Hm _ H).
    + intros x Hx [<-|Hy]; [by apply Hin in Hx|].
      apply Hin in Hx. by destruct (Hm _ Hy).
  - intros x Hx. apply List.in_app_iff in Hx as [Hx|[<-|Hx]].
    + apply Hin in Hx. by apply elem_of_union_r, elem_of_union_r.
    + by apply elem_of_union_l, elem_of_singleton.
    + apply elem_of_union_r, elem_of_union_l, elem_of_list_to_set.
      by apply list_elem_of_In.
  - apply List.Forall_app. split; [done|]. constructor; [|constructor].
    unfold group_ok, grown, add_all;
      cbn [base_folder similar_folders similarity_scores List.app].
    split; [by destruct (clean_media_name folder1)|].
    split; [by rewrite Ep|].
    apply Forall2_picks. intros x r Hx. by destruct (Hs _ _ Hx).
Qed.

Lemma loop_inv_fold (l : list (string * string)) (st : list group * gset string) :
  (forall x c, List.In (x, c) l -> c = clean_media_name x) ->
  loop_inv ratio st ->
  loop_inv ratio (List.fold_left (open_group ratio extend_files folder_map) l st).
Proof.
  revert st. induction l as [|[x c] l IH]; intros st Hl Hst; [done|].
  cbn [List.fold_left]. apply IH; [intros; apply Hl; by right|].
  rewrite (Hl x c); [|by left]. by apply open_group_inv.
Qed.

Lemma find_similar_media_folders_inv :
  List.NoDup (names (find_similar_media_folders ratio extend_files folder_map))
  /\ List.Forall (group_ok ratio) (find_similar_media_folders ratio extend_files folder_map).
Proof.
  unfold find_similar_media_folders.
  destruct (loop_inv_fold (cleaned_folders folder_map) ([], ∅)) as (H1 & _ & H3).
  - apply cleaned_folders_key.
  - split; [constructor|]. split; [intros x []|constructor].
  - by split.
Qed.

(** A candidate that passes the test when a base is opened ends up in the
    group that is emitted for that base. *)
Lemma open_group_complete (similar_groups : list group) (processed : gset string)
    (folder1 folder2 : string) :
  List.In folder2 (List.map fst folder_map) ->
  folder1 ∉ processed -> folder2 ∉ processed -> folder1 <> folder2 ->
  clean_media_name folder1 <> "" -> clean_media_name folder2 <> "" ->
  above_threshold
    (ratio (clean_media_name folder1) (clean_media_name folder2)) = true ->
  exists g,
    fst (open_group ratio extend_files folder_map (similar_groups, processed)
           (folder1, clean_media_name folder1))
    = List.app similar_groups [g]
    /\ base_folder g = folder1 /\ List.In folder2 (similar_folders g).
Proof.
  intros Hin H1 H2 Hne Hc1 Hc2 Hr. rewrite open_group_eq.
  rewrite bool_decide_eq_false_2 by done. cbn [orb].
  assert (He : is_empty (clean_media_name folder1) = false)
    by (by destruct (clean_media_name folder1)).
  rewrite He. cbn zeta.
  assert (Hp : List.In folder2
                 (List.map fst (picked ratio folder1 (clean_media_name folder1)
                                  (cleaned_folders folder_map) processed))).
  { apply picked_complete with (c := clean_media_name folder2).
    - unfold cleaned_folders. apply List.in_map_iff in Hin as (it & <- & Hit).
      apply List.in_map_iff. by exists it.
    - unfold joins; cbn [fst snd]. rewrite Hr, andb_true_r.
      rewrite bool_decide_eq_true_2 by done.
      apply String.eqb_neq in Hne. rewrite Hne.
      by destruct (clean_media_name folder2). }
  destruct (picked ratio folder1 (clean_media_name folder1) (cleaned_folders folder_map)
              processed) as [|p ps] eqn:Ep; [done|].
  exists (grown extend_files folder_map folder1 (p :: ps)). cbn [fst]. split; [done|]. split; [done|].
  exact Hp.
Qed.

End Grouping.

(** C3.  Whatever the folder index, the similarity function and the
    variant of the grouper (with or without the merge of the files), no
    folder name occurs twice among the bases and similar members of all the
    groups returned: a name that entered a group, as base or as similar
    member, is in no other group and not twice in its own. *)
Theorem group_membership_is_partitioned
    (ratio : string -> string -> Q) (extend_files : bool) (folder_map : folder_index) :
  List.NoDup
    (List.concat
       (List.map members (find_similar_media_folders ratio extend_files folder_map))).
Proof. apply find_similar_media_folders_inv. Qed.

Lemma above_threshold_iff (r : Q) : above_threshold r = true <-> (9 # 10 < r)%Q.
Proof.
  unfold above_threshold. rewrite negb_true_iff.
  split.
  - intros H. apply Qnot_le_lt. intros Hle.
    apply Qle_bool_iff in Hle. congruence.
  - intros H. destruct (Qle_bool r (9 # 10)) eqn:E; [|done].
    apply Qle_bool_iff in E. exfalso. by apply (Qlt_not_le _ _ H).
Qed.

(** C4, as stated, fails.  On [moonlight_index] the grouper returns one
    group, with base [moonlight] and similar members [moonlights] and
    [amoonlight].  The two similar members are distinct names with
    non-empty keys, they are in the same group, and the ratio of their keys
    is exactly 0.9 in either order: both were compared with the base only,
    against which each scores 18/19. *)
Lemma similar_members_at_exact_threshold :
  List.map members (find_similar_media_folders Difflib.ratio true moonlight_index)
    = [ ["moonlight"; "moonlights"; "amoonlight"] ]
  /\ List.map members (find_similar_media_folders Difflib.ratio false moonlight_index)
    = [ ["moonlight"; "moonlights"; "amoonlight"] ]
  /\ clean_media_name "moonlights" = "moonlights"
  /\ clean_media_name "amoonlight" = "amoonlight"
  /\ (Difflib.ratio "moonlights" "amoonlight" == 9 # 10)%Q
  /\ (Difflib.ratio "amoonlight" "moonlights" == 9 # 10)%Q
  /\ above_threshold (Difflib.ratio "moonlights" "amoonlight") = false
  /\ above_threshold (Difflib.ratio "amoonlight" "moonlights") = false.
Proof. repeat split; vm_compute; reflexivity. Qed.

(** C4, amended.  The threshold is applied to the base and each candidate,
    not to every pair of a group.  In every group returned, the base has a
    non-empty key, and each similar member is another name, with a
    non-empty key, whose recorded score is the ratio of the base's key
    against its own key and is strictly greater than 0.9 (so a candidate at
    exactly 0.9 against the base never joins).  Conversely, when the outer
    loop opens a base that is not yet processed, every other name of the
    index that is not yet processed, has a non-empty key and scores
    strictly above 0.9 against the base is a similar member of the group
    emitted for that base. *)
Theorem similar_member_iff_above_threshold
    (ratio : string -> string -> Q) (extend_files : bool) (folder_map : folder_index) :
  List.Forall
    (fun g =>
       clean_media_name (base_folder g) <> "" /\
       List.Forall2
         (fun member score =>
            member <> base_folder g
            /\ clean_media_name member <> ""
            /\ score = ratio (clean_media_name (base_folder g)) (clean_media_name member)
            /\ (9 # 10 < score)%Q)
         (similar_folders g) (similarity_scores g))
    (find_similar_media_folders ratio extend_files folder_map)
  /\
  (forall (similar_groups : list group) (processed : gset string)
          (folder1 folder2 : string),
     List.In folder2 (List.map fst folder_map) ->
     folder1 ∉ processed -> folder2 ∉ processed -> folder1 <> folder2 ->
     clean_media_name folder1 <> "" -> clean_media_name folder2 <> "" ->
     (9 # 10 < ratio (clean_media_name folder1) (clean_media_name folder2))%Q ->
     exists g,
       fst (open_group ratio extend_files folder_map (similar_groups, processed)
              (folder1, clean_media_name folder1))
       = List.app similar_groups [g]
       /\ base_folder g = folder1 /\ List.In folder2 (similar_folders g)).
Proof.
  split.
  - destruct (find_similar_media_folders_inv ratio extend_files folder_map) as [_ H].
    eapply List.Forall_impl; [|exact H].
    intros g (Hb & _ & Hm). split; [done|].
    eapply List.Forall2_impl; [|exact Hm].
    intros member score (H1 & H2 & H3 & H4).
    repeat split; try done. by apply above_threshold_iff.
  - intros gs P f1 f2 Hin H1 H2 Hne Hc1 Hc2 Hr.
    apply open_group_complete; try done. by apply above_threshold_iff.
Qed.

(** The amended statement at work on [moonlight_index], where both parts
    apply: the group returned satisfies the first part, and [moonlights]
    joins the group opened for [moonlight]. *)
Lemma similar_member_iff_above_threshold_applies :
  List.Forall
    (fun g =>
       clean_media_name (base_folder g) <> "" /\
       List.Forall2
         (fun member score =>
            member <> base_folder g
            /\ clean_media_name member <> ""
            /\ score = Difflib.ratio (clean_media_name (base_folder g))
                         (clean_media_name member)
            /\ (9 # 10 < score)%Q)
         (similar_folders g) (similarity_scores g))
    (find_similar_media_folders Difflib.ratio true moonlight_index)
  /\
  exists g,
    fst (open_group Difflib.ratio true moonlight_index ([], ∅)
           ("moonlight", clean_media_name "moonlight"))
    = List.app [] [g]
    /\ base_folder g = "moonlight" /\ List.In "moonlights" (similar_folders g).
Proof.
  split.
  - exact (proj1 (similar_member_iff_above_threshold Difflib.ratio true moonlight_index)).
  - apply (proj2 (similar_member_iff_above_threshold Difflib.ratio true moonlight_index)).
    + cbn. tauto.
    + apply not_elem_of_empty.
    + apply not_elem_of_empty.
    + discriminate.
    + vm_compute. discriminate.
    + vm_compute. discriminate.
    + vm_compute. reflexivity.
Defined.

End GrouperFacts.

(** ** The report writer (claim C8) *)

Module ReportFacts.
Import Py Normalizer Grouper GrouperNotions GrouperFacts Report Samples.

Section Writing.

Variable size_text : string -> option string.
Variable fmt2 : Q -> string.

(** With no folder index in scope, a group that has a similar folder makes
    the loop over [zip(...)] raise at its first turn. *)
Lemma write_groups_raises (g : group) (rest : list group) (out : list string) :
  similar_folders g <> [] ->
  length (similarity_scores g) = length (similar_folders g) ->
  snd (write_groups size_text fmt2 find_dupes_globals (g :: rest) out)
  = Raise (NameError "folder_map").
Proof.
  intros Hne Hlen. cbn [write_groups].
  destruct (similar_folders g) as [|f fs]; [done|].
  destruct (similarity_scores g) as [|r rs]; [done|].
  reflexivity.
Qed.

(** Had the module bound [folder_map], the writer would have ended
    normally on every input. *)
Lemma write_similar_ends (scope : gmap string folder_index) (fm : folder_index)
    (pairs : list (string * Q)) (out : list string) :
  scope !! "folder_map" = Some fm ->
  snd (write_similar size_text fmt2 scope pairs out) = Ok tt.
Proof.
  intros Hs. revert out. induction pairs as [|[f r] pairs IH]; intros out; [done|].
  cbn [write_similar]. unfold load_name. rewrite Hs. apply IH.
Qed.

Lemma write_report_ends (scope : gmap string folder_index) (fm : folder_index)
    (results : list group) :
  scope !! "folder_map" = Some fm ->
  snd (write_report size_text fmt2 scope results) = Ok tt.
Proof.
  intros Hs. unfold write_report. destruct results as [|g0 rest0]; [done|].
  generalize (g0 :: rest0).
  generalize ["=== Potential Duplicate Media Report ===" ++ newline ++ newline].
  intros out l. revert out. induction l as [|g l IH]; intros out; [done|].
  cbn [write_groups].
  pose proof (write_similar_ends scope fm
                (List.combine (similar_folders g) (similarity_scores g))
                (List.app out
                   (List.app (group_heading g)
                      (List.map (file_line size_text) (files g)))) Hs) as H.
  destruct (write_similar _ _ _ _ _) as [out' [[]|e]]; [apply IH|done].
Qed.

End Writing.

(** C8 (the code departs from the claim).  Whatever the grouper returns,
    [write_report] ends normally only when there is no group: on one group
    or more it raises [NameError] for [folder_map], after the heading of
    the first similar folder has been written. *)
Theorem write_report_raises_on_every_group
    (ratio : string -> string -> Q) (extend_files : bool) (folder_map : folder_index)
    (size_text : string -> option string) (fmt2 : Q -> string) :
  snd (write_report size_text fmt2 find_dupes_globals
         (find_similar_media_folders ratio extend_files folder_map))
  = match find_similar_media_folders ratio extend_files folder_map with
    | [] => Ok tt
    | _ :: _ => Raise (NameError "folder_map")
    end.
Proof.
  destruct (find_similar_media_folders_inv ratio extend_files folder_map) as [_ H].
  destruct (find_similar_media_folders ratio extend_files folder_map) as [|g gs];
    [reflexivity|].
  apply List.Forall_inv in H as (_ & Hne & Hm).
  unfold write_report. apply write_groups_raises; [done|].
  symmetry. by eapply List.Forall2_length.
Qed.

(** The fault is the missing binding and nothing else: in a scope that
    binds [folder_map], the writer ends normally on every list of groups. *)
Lemma write_report_ends_when_bound
    (size_text : string -> option string) (fmt2 : Q -> string)
    (scope : gmap string folder_index) (folder_map : folder_index)
    (results : list group) :
  snd (write_report size_text fmt2 (<[ "folder_map" := folder_map ]> scope) results)
  = Ok tt.
Proof. apply (write_report_ends _ _ _ folder_map). apply lookup_insert_eq. Qed.

(** The same on the index of three folders, with what has been written
    when the fault occurs. *)
Lemma write_report_raises_on_moonlight :
  write_report (fun _ => None) (fun _ => "0.95") find_dupes_globals
    (find_similar_media_folders Difflib.ratio false moonlight_index)
  = ([ "=== Potential Duplicate Media Report ===" ++ newline ++ newline;
       newline ++ separator ++ newline;
       "Base Folder: moonlight" ++ newline;
       "Files:" ++ newline;
       "  /a/moonlight/film.mkv" ++ newline;
       newline ++ "Similar Folder (similarity: 0.95): moonlights" ++ newline ],
     Raise (NameError "folder_map")).
Proof. vm_compute. reflexivity. Qed.

End ReportFacts.

(** ** Container-to-host path translation (claim C7) *)

Module PathMappingFacts.
Import Py PathMapping PathMappingNotions Samples.

Lemma insert_desc_In (m x : mapping) (l : list mapping) :
  List.In x (insert_desc m l) <-> x = m \/ List.In x l.
Proof.
  induction l as [|y ys IH]; cbn [insert_desc].
  - cbn. intuition.
  - destruct (key m <? key y)%nat; cbn [List.In]; [rewrite IH|]; intuition.
Qed.

Lemma sorted_mappings_In (x : mapping) (l : list mapping) :
  List.In x (sorted_mappings l) <-> List.In x l.
Proof.
  induction l as [|m ms IH]; cbn [sorted_mappings]; [done|].
  rewrite insert_desc_In, IH. cbn. intuition.
Qed.

Lemma insert_desc_sorted (m : mapping) (l : list mapping) :
  StronglySorted longer_first l -> StronglySorted longer_first (insert_desc m l).
Proof.
  induction l as [|y ys IH]; intros Hs; cbn [insert_desc].
  - repeat constructor.
  - apply StronglySorted_inv in Hs as [Hs Hy].
    destruct (key m <? key y)%nat eqn:E.
    + apply Nat.ltb_lt in E. constructor; [by apply IH|].
      apply List.Forall_forall. intros x Hx.
      apply insert_desc_In in Hx as [->|Hx].
      * unfold longer_first. lia.
      * rewrite List.Forall_forall in Hy. by apply Hy.
    + apply Nat.ltb_ge in E. constructor; [by constructor|].
      constructor; [done|].
      eapply List.Forall_impl; [|exact Hy].
      unfold longer_first. intros x Hx. lia.
Qed.

Lemma sorted_mappings_sorted (l : list mapping) :
  StronglySorted longer_first (sorted_mappings l).
Proof.
  induction l as [|m ms IH]; cbn [sorted_mappings]; [constructor|].
  by apply insert_desc_sorted.
Qed.

(** In a list sorted by descending key, the first element that passes a
    test has the largest key of all that pass it. *)
Lemma find_sorted_is_longest (p : mapping -> bool) (l : list mapping) (m : mapping) :
  StronglySorted longer_first l -> List.find p l = Some m ->
  forall m', List.In m' l -> p m' = true -> (key m' <= key m)%nat.
Proof.
  induction l as [|y ys IH]; intros Hs Hf m' Hin Hp; [done|].
  apply StronglySorted_inv in Hs as [Hs Hy].
  cbn [List.find] in Hf. destruct (p y) eqn:E.
  - injection Hf as <-. destruct Hin as [<-|Hin]; [done|].
    rewrite List.Forall_forall in Hy. by apply Hy.
  - destruct Hin as [<-|Hin]; [congruence|]. by apply IH.
Qed.

(** C7.  For every container path and every list of mappings: either some
    mapping of the list is applied, and then its container path is a
    textual prefix of the input, no mapping of the list whose container
    path is a prefix of the input has a longer one, and the result is the
    host path joined with what follows the prefix; or no mapping of the
    list has a container path that is a prefix of the input, and the input
    is returned unchanged.  With the mappings [/data/tv -> /mnt/tv] and
    [/data/tv/anime -> /mnt/anime], in either order, [/data/tv/anime/Show]
    becomes [/mnt/anime/Show]. *)
Theorem most_specific_prefix_wins :
  (forall (path : string) (mappings : list mapping),
     (exists m,
        List.In m mappings
        /\ startswith path (container_path m) = true
        /\ (forall m', List.In m' mappings ->
                       startswith path (container_path m') = true ->
                       (String.length (container_path m')
                        <= String.length (container_path m))%nat)
        /\ convert_container_path_to_host_path path mappings
           = path_join (host_path m)
               (lstrip_by is_slash (drop (String.length (container_path m)) path)))
     \/
     ((forall m', List.In m' mappings -> startswith path (container_path m') = false)
      /\ convert_container_path_to_host_path path mappings = path))
  /\ convert_container_path_to_host_path "/data/tv/anime/Show" [tv; anime]
     = "/mnt/anime/Show"
  /\ convert_container_path_to_host_path "/data/tv/anime/Show" [anime; tv]
     = "/mnt/anime/Show".
Proof.
  split; [|split; vm_compute; reflexivity].
  intros path mappings. unfold convert_container_path_to_host_path, applied_mapping.
  destruct (List.find _ (sorted_mappings mappings)) as [m|] eqn:E.
  - left. exists m. pose proof (List.find_some _ _ E) as [Hin Hp].
    split; [by apply sorted_mappings_In|]. split; [done|]. split; [|done].
    intros m' Hin' Hp'.
    apply (find_sorted_is_longest _ _ _ (sorted_mappings_sorted mappings) E m');
      [by apply sorted_mappings_In|done].
  - right. split; [|done]. intros m' Hin'.
    apply (List.find_none _ _ E). by apply sorted_mappings_In.
Qed.

End PathMappingFacts.

(** ** Protected paths and matching tiers (claims C1 and C6) *)

Module LookupFacts.
Import Py Lookup LookupNotions Samples.

Lemma in_list_In (x : string) (l : list string) : in_list x l = true <-> List.In x l.
Proof.
  unfold in_list. rewrite List.existsb_exists. split.
  - intros (y & Hy & E). apply String.eqb_eq in E. by subst.
  - intros H. exists x. split; [done|]. apply String.eqb_refl.
Qed.

(** [is_protected_path] says yes exactly on the paths that are a configured
    root or below one and whose own basename is a main media directory. *)
Lemma is_protected_path_iff (self : lookup) (path : string) :
  is_protected_path self path = true <->
  (exists root, List.In root (root_folders_to_ignore self)
                /\ (path = root \/ startswith path (root ++ "/") = true))
  /\ List.In (lower (basename path)) media_categories.
Proof.
  unfold is_protected_path. rewrite List.existsb_exists. split.
  - intros (root & Hin & H). apply andb_true_iff in H as [H1 H2].
    split; [|by apply in_list_In]. exists root. split; [done|].
    apply orb_true_iff in H1 as [H1|H1]; [left; by apply String.eqb_eq|by right].
  - intros [(root & Hin & H) Hb]. exists root. split; [done|].
    apply andb_true_iff. split; [|by apply in_list_In].
    apply orb_true_iff. destruct H as [->|H]; [left; apply String.eqb_refl|by right].
Qed.

Lemma unprotected_paths_spec (self : lookup) (paths : list string) (path : string) :
  List.In path (unprotected_paths self paths) <->
  List.In path paths /\ is_protected_path self path = false.
Proof.
  unfold unprotected_paths. rewrite List.filter_In. by rewrite negb_true_iff.
Qed.

(** C1.  For every list of protected roots and every path: if the path is
    one of the roots or lies below one (the root, then a slash, is a prefix
    of it) and its own basename, lower-cased, is one of films, movies,
    television, tv, videos, then [is_protected_path] holds of it, no result
    of [lookup_duplicate_folders] lists it among its duplicate paths, and
    the matching tiers of each result were run on that filtered list. *)
Theorem protected_path_is_never_a_duplicate_target
    (self : lookup) (records : list report_record) (root path : string) :
  List.In root (root_folders_to_ignore self) ->
  path = root \/ startswith path (root ++ "/") = true ->
  List.In (lower (basename path)) media_categories ->
  is_protected_path self path = true
  /\ List.Forall
       (fun r =>
          ~ List.In path (duplicate_paths r)
          /\ official r
             = get_official_path_for_folder self (folder r) (duplicate_paths r))
       (lookup_duplicate_folders self records).
Proof.
  intros Hroot Hpre Hbase.
  assert (Hp : is_protected_path self path = true).
  { apply is_protected_path_iff. split; [|done]. by exists root. }
  split; [done|].
  unfold lookup_duplicate_folders. apply List.Forall_concat.
  apply List.Forall_map, List.Forall_forall. intros rec _.
  unfold lookup_record. destruct (folder_match rec) as [current|]; [|constructor].
  destruct (unprotected_paths self (path_matches rec)) as [|p ps] eqn:E; [constructor|].
  constructor; [|constructor]. cbn [duplicate_paths official folder].
  split; [|done]. rewrite <- E. intros Hin.
  apply unprotected_paths_spec in Hin as [_ Hin]. congruence.
Qed.

Lemma protected_path_is_never_a_duplicate_target_applies :
  is_protected_path movies_lookup "/media/Movies" = true
  /\ List.Forall
       (fun r =>
          ~ List.In "/media/Movies" (duplicate_paths r)
          /\ official r
             = get_official_path_for_folder movies_lookup (folder r) (duplicate_paths r))
       (lookup_duplicate_folders movies_lookup [movies_record]).
Proof.
  apply (protected_path_is_never_a_duplicate_target movies_lookup [movies_record]
           "/media/Movies" "/media/Movies").
  - cbn. tauto.
  - left. reflexivity.
  - vm_compute. tauto.
Defined.





End LookupFacts.

(** ** The name normalizer (claim C5) *)

Module NormalizerFacts.
Import Py PyFacts Normalizer Tokens.

Lemma no_space_app (a b : string) :
  no_space (a ++ b) = no_space a && no_space b.
Proof.
  unfold no_space. induction a as [|c a IH]; [done|].
  rewrite append_cons. cbn [all_chars]. by rewrite IH, andb_assoc.
Qed.

Lemma is_empty_app_char (a : string) (c : ascii) : is_empty (a ++ String c "") = false.
Proof. by destruct a. Qed.

(** [split] returns tokens only. *)
Lemma split_from_tokens (s w : string) :
  no_space w = true -> List.Forall (fun x => is_token x = true) (split_from w s).
Proof.
  revert w. induction s as [|c s IH]; intros w Hw; cbn [split_from].
  - destruct (is_empty w) eqn:E; [constructor|].
    constructor; [|constructor]. unfold is_token. by rewrite E, Hw.
  - destruct (is_space c) eqn:Ec.
    + destruct (is_empty w) eqn:E; [by apply IH|].
      constructor; [unfold is_token; by rewrite E, Hw|by apply IH].
    + apply IH. rewrite no_space_app, Hw. unfold no_space. cbn [all_chars andb].
      by rewrite Ec.
Qed.

(** Reading a run of non-space characters extends the current word. *)
Lemma split_from_run (u w rest : string) :
  no_space u = true -> split_from w (u ++ rest) = split_from (w ++ u) rest.
Proof.
  revert w. induction u as [|c u IH]; intros w Hu.
  - change ("" ++ rest) with rest. by rewrite append_nil_r.
  - cbn in Hu. apply andb_true_iff in Hu as [Hc Hu]. apply negb_true_iff in Hc.
    rewrite append_cons. cbn [split_from]. rewrite Hc, IH by done.
    by rewrite append_assoc.
Qed.

Lemma split_join (l : list string) :
  List.Forall (fun x => is_token x = true) l -> split (join " " l) = l.
Proof.
  unfold split. induction l as [|w l IH]; intros H; [done|].
  apply List.Forall_cons_iff in H as [Hw Hl].
  unfold is_token in Hw. apply andb_true_iff in Hw as [Hne Hns].
  destruct l as [|w2 l].
  - cbn [join]. rewrite <- (append_nil_r w) at 1.
    rewrite split_from_run by done. rewrite append_nil_l.
    cbn [split_from]. by destruct w.
  - change (join " " (w :: w2 :: l)) with (w ++ " " ++ join " " (w2 :: l)).
    rewrite split_from_run by done.
    rewrite append_nil_l, append_cons, append_nil_l. cbn [split_from].
    change (is_space " ") with true. cbn match.
    destruct w; [done|]. cbn [is_empty]. by rewrite IH.
Qed.

Lemma lower_char_space (c : ascii) : is_space (lower_char c) = is_space c.
Proof. destruct c as [[] [] [] [] [] [] [] []]; reflexivity. Qed.

Lemma lower_char_idem (c : ascii) : lower_char (lower_char c) = lower_char c.
Proof. destruct c as [[] [] [] [] [] [] [] []]; reflexivity. Qed.

Lemma lower_idem (s : string) : lower (lower s) = lower s.
Proof.
  unfold lower. induction s as [|c s IH]; cbn; [done|].
  by rewrite lower_char_idem, IH.
Qed.

Lemma lower_app (a b : string) : lower (a ++ b) = lower a ++ lower b.
Proof.
  unfold lower. induction a as [|c a IH]; [done|].
  rewrite append_cons. cbn [smap]. by rewrite IH.
Qed.

Lemma lower_join (l : list string) :
  lower (join " " l) = join " " (List.map lower l).
Proof.
  induction l as [|w l IH]; [done|].
  destruct l as [|w2 l]; [done|].
  change (join " " (w :: w2 :: l)) with (w ++ " " ++ join " " (w2 :: l)).
  rewrite !lower_app, IH. reflexivity.
Qed.

Lemma lower_token (w : string) : is_token (lower w) = is_token w.
Proof.
  unfold is_token, no_space, lower. f_equal; [by destruct w|].
  induction w as [|c w IH]; cbn; [done|]. by rewrite lower_char_space, IH.
Qed.

Lemma lower_tokens (l : list string) :
  List.Forall (fun x => is_token x = true) l ->
  List.Forall (fun x => is_token x = true) (List.map lower l).
Proof.
  intros H. apply List.Forall_map. eapply List.Forall_impl; [|exact H].
  intros w Hw. by rewrite lower_token.
Qed.

Lemma rstrip_token (w : string) : no_space w = true -> rstrip_by is_space w = w.
Proof.
  induction w as [|c w IH]; [done|]. cbn. intros H.
  apply andb_true_iff in H as [Hc Hw]. apply negb_true_iff in Hc.
  by rewrite Hc, andb_false_r, IH.
Qed.

Lemma rstrip_app (a b : string) :
  rstrip_by is_space b = b -> b <> "" -> rstrip_by is_space (a ++ b) = a ++ b.
Proof.
  intros Hb Hne. induction a as [|c a IH]; [done|].
  rewrite append_cons. cbn [rstrip_by]. rewrite IH.
  by destruct (a ++ b) eqn:E; [destruct a, b|].
Qed.

Lemma join_tokens_nonempty (w : string) (l : list string) :
  is_token w = true -> join " " (w :: l) <> "".
Proof. destruct w; [done|]. destruct l; cbn [join]; by rewrite ?append_cons. Qed.

(** Words joined by single blanks have nothing to strip. *)
Lemma strip_join (l : list string) :
  List.Forall (fun x => is_token x = true) l -> strip (join " " l) = join " " l.
Proof.
  intros H. unfold strip.
  assert (Hl : lstrip_by is_space (join " " l) = join " " l).
  { destruct l as [|w l]; [done|].
    apply List.Forall_cons_iff in H as [Hw _].
    unfold is_token in Hw. apply andb_true_iff in Hw as [Hne Hns].
    destruct w as [|c w]; [done|].
    cbn in Hns. apply andb_true_iff in Hns as [Hc _]. apply negb_true_iff in Hc.
    destruct l as [|w2 l]; cbn [join]; rewrite ?append_cons; cbn [lstrip_by];
      by rewrite Hc. }
  rewrite Hl. clear Hl.
  induction l as [|w l IH]; [done|].
  apply List.Forall_cons_iff in H as [Hw Hl].
  destruct l as [|w2 l].
  - apply rstrip_token. unfold is_token in Hw. by apply andb_true_iff in Hw as [_ ?].
  - change (join " " (w :: w2 :: l)) with (w ++ " " ++ join " " (w2 :: l)).
    rewrite <- append_assoc. apply rstrip_app; [by apply IH|].
    apply List.Forall_cons_iff in Hl as [Hw2 _]. by apply join_tokens_nonempty.
Qed.

(** The closing stage yields the lower-cased words joined by blanks. *)
Lemma collapse_eq (s : string) :
  collapse s = join " " (List.map lower (split s)).
Proof.
  unfold collapse. rewrite lower_join. apply strip_join, lower_tokens.
  by apply split_from_tokens.
Qed.

Lemma collapse_idem (s : string) : collapse (collapse s) = collapse s.
Proof.
  rewrite (collapse_eq (collapse s)), (collapse_eq s).
  rewrite split_join by (apply lower_tokens; by apply split_from_tokens).
  rewrite List.map_map. f_equal. apply List.map_ext. intros w. apply lower_idem.
Qed.

(** C5, as stated, fails.  In [Batman_DC_Animated] the token [DC] stands
    between underscores, which are word characters, so the pattern for a
    director's cut does not match; the key is [batman dc animated].  In the
    key the token stands between blanks, and the second pass removes it. *)
Lemma clean_media_name_not_idempotent :
  clean_media_name "Batman_DC_Animated" = "batman dc animated"
  /\ clean_media_name (clean_media_name "Batman_DC_Animated") = "batman animated"
  /\ clean_media_name "hehevcvc" = "hevc"
  /\ clean_media_name (clean_media_name "hehevcvc") = "".
Proof. repeat split; vm_compute; reflexivity. Qed.

(** C5, amended.  The closing stage of the normalizer (collapse the white
    space, lower-case, trim) is idempotent on every string; and normalizing
    a key again returns the key whenever the removal stages leave the key
    as it is, that is when the key holds no year token, no pattern of the
    removal list and no separator. *)
Theorem clean_media_name_idempotent_on_stable_keys :
  (forall s, collapse (collapse s) = collapse s)
  /\ (forall x,
       separators_to_spaces (strip_tokens (clean_media_name x)) = clean_media_name x ->
       clean_media_name (clean_media_name x) = clean_media_name x).
Proof.
  split; [apply collapse_idem|].
  intros x H. unfold clean_media_name at 1. rewrite H.
  unfold clean_media_name. apply collapse_idem.
Qed.

Lemma clean_media_name_idempotent_on_stable_keys_applies :
  clean_media_name "The.Movie.2160p.HDR.BluRay.x265-GROUP" = "the movie"
  /\ clean_media_name (clean_media_name "The.Movie.2160p.HDR.BluRay.x265-GROUP")
     = clean_media_name "The.Movie.2160p.HDR.BluRay.x265-GROUP".
Proof.
  split; [vm_compute; reflexivity|].
  apply (proj2 clean_media_name_idempotent_on_stable_keys).
  vm_compute. reflexivity.
Defined.

End NormalizerFacts.

(** ** The cleanup planner (claims C2 and C10) *)

Module PlannerFacts.
Import Py PyFacts Cleanup PlannerNotions Samples.

(** A chunk whose first character is not the [s] of [safe_remove] is no
    removal; two chunks with different first characters differ. *)
Ltac expose_heads :=
  unfold is_removal, startswith, removal_line, keep_base_comment,
    keep_similar_comment, manual_review_comment, both_managed_comment,
    none_managed_comment, keep_base_line, keep_similar_line, newline, dquote;
  rewrite ?append_cons.

Ltac not_removal :=
  expose_heads; apply prefix_head_ne; let H := fresh in
  intros H; vm_compute in H; discriminate H.

Ltac heads_differ :=
  expose_heads; apply eqb_head_ne; vm_compute; reflexivity.



Lemma removals_app (a b : list string) :
  removals (List.app a b) = List.app (removals a) (removals b).
Proof. apply List.filter_app. Qed.

Lemma existsb_map_none {A : Type} (p : string -> bool) (f : A -> string) (l : list A) :
  (forall x, p (f x) = false) -> List.existsb p (List.map f l) = false.
Proof.
  intros H. induction l as [|x l IH]; [done|].
  cbn [List.map List.existsb]. by rewrite H, IH.
Qed.

Lemma maximum_ge_init (l : list Z) (n : Z) : (n <= maximum n l)%Z.
Proof.
  unfold maximum. revert n. induction l as [|x l IH]; intros n; cbn; [lia|].
  specialize (IH (Z.max n x)). lia.
Qed.

(** [maximum] is the largest element of the list. *)
Lemma maximum_spec (n : Z) (l : list Z) :
  List.In (maximum n l) (n :: l)
  /\ forall x, List.In x (n :: l) -> (x <= maximum n l)%Z.
Proof.
  unfold maximum. revert n. induction l as [|y l IH]; intros n.
  - cbn. split; [by left|]. intros x [->|[]]. lia.
  - cbn [List.fold_left]. destruct (IH (Z.max n y)) as [Hin Hle]. split.
    + destruct Hin as [Hin|Hin].
      * rewrite <- Hin. destruct (Z.max_spec n y) as [[_ ->]|[_ ->]];
          [right; by left|by left].
      * right. by right.
    + intros x [<-|[<-|Hx]].
      * specialize (Hle (Z.max n y) (or_introl eq_refl)). lia.
      * specialize (Hle (Z.max n y) (or_introl eq_refl)). lia.
      * apply Hle. by right.
Qed.

(** [exceeds a b] is the comparison [a > b * 1.5] of the source. *)
Lemma exceeds_iff (a b : Z) :
  exceeds a b = true <-> (inject_Z b * (3 # 2) < inject_Z a)%Q.
Proof.
  unfold exceeds, Qlt, Qmult, inject_Z. cbn [Qnum Qden].
  rewrite Z.ltb_lt. lia.
Qed.

Section Planner.

Variable py_float : string -> option Q.
Variable normalize_path : string -> string.
Variable sonarr_paths : gmap string string.
Variable radarr_paths : gmap string string.

Abbreviation side_is_managed := (side_managed normalize_path sonarr_paths radarr_paths).
Abbreviation decision_of :=
  (decision py_float normalize_path sonarr_paths radarr_paths).
Abbreviation script_of :=
  (group_script py_float normalize_path sonarr_paths radarr_paths).

Lemma is_removal_info_line (e : file_entry) :
  is_removal (info_line normalize_path sonarr_paths radarr_paths e) = false.
Proof. unfold info_line. not_removal. Qed.

Lemma removals_info_lines (side : list file_entry) :
  removals (List.map (info_line normalize_path sonarr_paths radarr_paths) side) = [].
Proof.
  unfold removals. induction side as [|e side IH]; [done|].
  cbn [List.map List.filter]. by rewrite is_removal_info_line.
Qed.

(** The listing that precedes the decision invokes no removal. *)
Lemma removals_group_listing (i : nat) (g : group) :
  removals (group_listing normalize_path sonarr_paths radarr_paths i g) = [].
Proof.
  unfold group_listing.
  rewrite !removals_app, removals_info_lines. unfold removals at 2.
  cbn [List.filter].
  assert (is_removal (newline ++ "# Similar files:" ++ newline) = false) as ->
    by not_removal.
  fold (removals (List.map (info_line normalize_path sonarr_paths radarr_paths)
                    (similar_files g))).
  rewrite removals_info_lines. unfold removals. cbn [List.filter].
  assert (is_removal (newline ++ "echo " ++ dquote ++ "Processing group "
                        ++ str_of_nat i ++ "..." ++ dquote ++ newline) = false) as ->
    by not_removal.
  assert (is_removal (newline ++ "# Group " ++ str_of_nat i ++ ": "
                        ++ base_folder_text g ++ newline) = false) as ->
    by not_removal.
  assert (is_removal (newline ++ "# Base files:" ++ newline) = false) as ->
    by not_removal.
  reflexivity.
Qed.



Lemma removals_group_script (i : nat) (g : group) :
  removals (fst (script_of i g)) = removals (fst (decision_of g)).
Proof.
  unfold group_script. destruct (decision_of g) as [out [[]|x]]; cbn [fst].
  - rewrite !removals_app, removals_group_listing. cbn [List.app].
    assert (removals [newline] = []) as -> by done.
    by rewrite List.app_nil_r.
  - by rewrite removals_app, removals_group_listing.
Qed.

Lemma writes_app (chunk : string) (a b : list string) :
  writes chunk (List.app a b) = writes chunk a || writes chunk b.
Proof. apply List.existsb_app. Qed.

Lemma writes_removal_lines (chunk : string) (side : list file_entry) :
  (forall e, String.eqb chunk (removal_line e) = false) ->
  writes chunk (List.map removal_line side) = false.
Proof. apply existsb_map_none. Qed.

(** What the size heuristic writes. *)
Lemma writes_keep_base_suggestion (bs ss : list Z) :
  writes keep_base_line (size_suggestion bs ss)
  = match bs, ss with
    | b :: bs', s :: ss' => exceeds (maximum b bs') (maximum s ss')
    | _, _ => false
    end.
Proof.
  unfold size_suggestion. destruct bs as [|b bs], ss as [|s ss]; try done.
  destruct (exceeds (maximum b bs) (maximum s ss)); [done|].
  by destruct (exceeds _ _).
Qed.

Lemma writes_keep_similar_suggestion (bs ss : list Z) :
  writes keep_similar_line (size_suggestion bs ss)
  = match bs, ss with
    | b :: bs', s :: ss' =>
        negb (exceeds (maximum b bs') (maximum s ss'))
        && exceeds (maximum s ss') (maximum b bs')
    | _, _ => false
    end.
Proof.
  unfold size_suggestion. destruct bs as [|b bs], ss as [|s ss]; try done.
  destruct (exceeds (maximum b bs) (maximum s ss)); [done|].
  by destruct (exceeds _ _).
Qed.

(** The comments the decision writes. *)
Lemma comments_decision (g : group) :
  writes manual_review_comment (fst (decision_of g))
  = Bool.eqb (side_is_managed (base_files g)) (side_is_managed (similar_files g))
  /\ writes keep_base_line (fst (decision_of g))
     = Bool.eqb (side_is_managed (base_files g)) (side_is_managed (similar_files g))
       && match largest py_float (base_files g), largest py_float (similar_files g) with
          | Some max_base, Some max_similar => exceeds max_base max_similar
          | _, _ => false
          end
  /\ writes keep_similar_line (fst (decision_of g))
     = Bool.eqb (side_is_managed (base_files g)) (side_is_managed (similar_files g))
       && match largest py_float (base_files g), largest py_float (similar_files g) with
          | Some max_base, Some max_similar =>
              negb (exceeds max_base max_similar) && exceeds max_similar max_base
          | _, _ => false
          end.
Proof.
  unfold decision, largest.
  destruct (side_is_managed (base_files g)) eqn:Eb,
           (side_is_managed (similar_files g)) eqn:Es; cbn [andb negb Bool.eqb fst].
  - (* both sides managed *)
    destruct (sizes_of py_float (base_files g)) as [bs|x];
      [|repeat split; reflexivity].
    destruct (sizes_of py_float (similar_files g)) as [ss|x];
      [|repeat split; cbn [fst]; try reflexivity; by destruct bs].
    cbn [fst]. rewrite !writes_app.
    rewrite writes_keep_base_suggestion, writes_keep_similar_suggestion.
    repeat split; try reflexivity; by destruct bs, ss.
  - (* only the base side managed *)
    unfold writes; cbn [List.existsb].
    assert (String.eqb manual_review_comment keep_base_comment = false) as -> by done.
    assert (String.eqb keep_base_line keep_base_comment = false) as -> by done.
    assert (String.eqb keep_similar_line keep_base_comment = false) as -> by done.
    cbn [orb].
    repeat split; apply existsb_map_none; intros e; heads_differ.
  - (* only the similar side managed *)
    unfold writes; cbn [List.existsb].
    assert (String.eqb manual_review_comment keep_similar_comment = false) as -> by done.
    assert (String.eqb keep_base_line keep_similar_comment = false) as -> by done.
    assert (String.eqb keep_similar_line keep_similar_comment = false) as -> by done.
    cbn [orb].
    repeat split; apply existsb_map_none; intros e; heads_differ.
  - (* neither side managed *)
    destruct (sizes_of py_float (base_files g)) as [bs|x];
      [|repeat split; reflexivity].
    destruct (sizes_of py_float (similar_files g)) as [ss|x];
      [|repeat split; cbn [fst]; try reflexivity; by destruct bs].
    cbn [fst]. rewrite !writes_app.
    rewrite writes_keep_base_suggestion, writes_keep_similar_suggestion.
    repeat split; try reflexivity; by destruct bs, ss.
Qed.

(** ['Unknown'] reads as 0 bytes. *)
Lemma format_size_bytes_unknown : format_size_bytes py_float "Unknown" = Ok 0%Z.
Proof. reflexivity. Qed.

(** A side that has a file and only files of unknown size has 0 as its
    largest size. *)
Lemma largest_of_unknown_side (e : file_entry) (side : list file_entry) :
  List.Forall (fun x => snd x = "Unknown") (e :: side) ->
  largest py_float (e :: side) = Some 0%Z.
Proof.
  intros H. unfold largest.
  assert (Hs : forall l, List.Forall (fun x => snd x = "Unknown") l ->
                 exists ns, sizes_of py_float l = Ok ns
                            /\ List.Forall (fun n => n = 0%Z) ns
                            /\ length ns = length l).
  { induction l as [|x l IH]; intros Hl; [by exists []|].
    apply List.Forall_cons_iff in Hl as [Hx Hl].
    destruct (IH Hl) as (ns & E & Hz & Hlen).
    exists (0%Z :: ns). cbn [sizes_of]. rewrite Hx, format_size_bytes_unknown, E.
    split; [done|]. split; [by constructor|]. cbn. by rewrite Hlen. }
  destruct (Hs _ H) as (ns & -> & Hz & Hlen).
  destruct ns as [|n ns]; [done|].
  apply List.Forall_cons_iff in Hz as [-> Hz]. f_equal.
  destruct (maximum_spec 0 ns) as [Hin _].
  destruct Hin as [<-|Hin]; [done|].
  rewrite List.Forall_forall in Hz. by apply Hz.
Qed.

End Planner.



(** The part of C10 that the planner alone decides.  ['Unknown'] reads as
    0 bytes; a side that has a file and only files of unknown size has 0 as
    its largest size; and when both sides or neither side hold a managed
    file, the suggestion to keep the base side is written against such a
    side as soon as the base side's largest size is positive. *)
Lemma unknown_size_counts_as_zero
    (py_float : string -> option Q) (normalize_path : string -> string)
    (sonarr_paths radarr_paths : gmap string string) :
  format_size_bytes py_float "Unknown" = Ok 0%Z
  /\ (forall e side,
        List.Forall (fun x => snd x = "Unknown") (e :: side) ->
        largest py_float (e :: side) = Some 0%Z)
  /\ (forall g e side max_base,
        similar_files g = e :: side ->
        List.Forall (fun x => snd x = "Unknown") (e :: side) ->
        side_managed normalize_path sonarr_paths radarr_paths (base_files g)
        = side_managed normalize_path sonarr_paths radarr_paths (similar_files g) ->
        largest py_float (base_files g) = Some max_base ->
        (0 < max_base)%Z ->
        writes keep_base_line
          (fst (decision py_float normalize_path sonarr_paths radarr_paths g)) = true).
Proof.
  split; [reflexivity|]. split; [apply largest_of_unknown_side|].
  intros g e side mb Hs Hu Hm Hl Hpos.
  destruct (comments_decision py_float normalize_path sonarr_paths radarr_paths g)
    as (_ & -> & _).
  rewrite Hm, Hl, Hs, (largest_of_unknown_side py_float e side Hu).
  rewrite Bool.eqb_reflx. cbn [andb]. unfold exceeds. apply Z.ltb_lt. lia.
Qed.

(** No catalog, sizes 1 GB and 2 GB: manual review, and the suggestion to
    keep the larger, similar side; no removal. *)
Lemma unmanaged_group_script :
  fst (decision decimal (fun p => p) ∅ ∅ unmanaged_group)
  = [ manual_review_comment; none_managed_comment; keep_similar_line ]
  /\ removals (fst (group_script decimal (fun p => p) ∅ ∅ 1 unmanaged_group)) = [].
Proof. split; vm_compute; reflexivity. Qed.

(** The same with the size of the similar file unknown: it counts as 0 and
    the suggestion goes to the base side. *)
Lemma unsized_group_script :
  fst (decision decimal (fun p => p) ∅ ∅ unsized_group)
  = [ manual_review_comment; none_managed_comment; keep_base_line ].
Proof. vm_compute. reflexivity. Qed.

(** Only the base side managed: the similar side is removed, file by
    file. *)
Lemma nested_group_script :
  fst (decision decimal (fun p => p) nested_sonarr ∅ nested_group)
  = [ keep_base_comment;
      removal_line ("/library/tv/Show Name/Show.Name.1080p/episode.mkv", "2.00 GB") ].
Proof. vm_compute. reflexivity. Qed.

End PlannerFacts.

(** ** The planner with the servers as shipped, and its faults *)

Module ScriptFacts.
Import Py PyFacts Cleanup PlannerNotions Servers Samples PlannerFacts.


Section Planner.

Variable py_float : string -> option Q.
Variable normalize_path : string -> string.


Lemma removals_script_groups (sonarr_paths radarr_paths : gmap string string)
    (gs : list group) (i : nat) :
  List.Forall
    (fun g => removals (fst (decision py_float normalize_path sonarr_paths radarr_paths g))
              = []) gs ->
  removals (fst (script_groups py_float normalize_path sonarr_paths radarr_paths i gs))
  = [].
Proof.
  revert i. induction gs as [|g gs IH]; intros i H; [done|].
  apply List.Forall_cons_iff in H as [Hg Hgs]. cbn [script_groups].
  pose proof (removals_group_script py_float normalize_path sonarr_paths radarr_paths
                i g) as Hr.
  rewrite Hg in Hr.
  destruct (group_script _ _ _ _ i g) as [out [[]|x]]; cbn [fst] in *; [|done].
  specialize (IH (S i) Hgs).
  destruct (script_groups _ _ _ _ (S i) gs) as [out' r]. cbn [fst] in *.
  by rewrite removals_app, Hr, IH.
Qed.

(** The planner reads the sizes only when review is required. *)
Lemma decision_ended_normally (sonarr_paths radarr_paths : gmap string string)
    (g : group) :
  ended_normally (snd (decision py_float normalize_path sonarr_paths radarr_paths g))
  = xorb (side_managed normalize_path sonarr_paths radarr_paths (base_files g))
         (side_managed normalize_path sonarr_paths radarr_paths (similar_files g))
    || (ended_normally (sizes_of py_float (base_files g))
        && ended_normally (sizes_of py_float (similar_files g))).
Proof.
  unfold decision.
  destruct (side_managed _ _ _ (base_files g)), (side_managed _ _ _ (similar_files g));
    cbn [andb negb xorb orb]; try reflexivity.
  - destruct (sizes_of py_float (base_files g)); [|done].
    by destruct (sizes_of py_float (similar_files g)).
  - destruct (sizes_of py_float (base_files g)); [|done].
    by destruct (sizes_of py_float (similar_files g)).
Qed.

Lemma group_script_ended (sonarr_paths radarr_paths : gmap string string)
    (i : nat) (g : group) :
  snd (group_script py_float normalize_path sonarr_paths radarr_paths i g)
  = snd (decision py_float normalize_path sonarr_paths radarr_paths g).
Proof.
  unfold group_script.
  by destruct (decision _ _ _ _ g) as [out [[]|x]].
Qed.

(** Groups that end normally are written one after the other. *)
Lemma script_groups_app (sonarr_paths radarr_paths : gmap string string)
    (gs1 gs2 : list group) (i : nat) :
  List.Forall
    (fun g => snd (decision py_float normalize_path sonarr_paths radarr_paths g) = Ok tt)
    gs1 ->
  script_groups py_float normalize_path sonarr_paths radarr_paths i (List.app gs1 gs2)
  = (List.app
       (fst (script_groups py_float normalize_path sonarr_paths radarr_paths i gs1))
       (fst (script_groups py_float normalize_path sonarr_paths radarr_paths
               (i + length gs1) gs2)),
     snd (script_groups py_float normalize_path sonarr_paths radarr_paths
            (i + length gs1) gs2)).
Proof.
  revert i. induction gs1 as [|g gs1 IH]; intros i H.
  - cbn [List.app length script_groups fst]. rewrite Nat.add_0_r.
    by destruct (script_groups _ _ _ _ i gs2).
  - apply List.Forall_cons_iff in H as [Hg Hgs].
    cbn [List.app script_groups length].
    pose proof (group_script_ended sonarr_paths radarr_paths i g) as He.
    rewrite Hg in He.
    destruct (group_script _ _ _ _ i g) as [out r]. cbn [snd] in He. subst r.
    rewrite (IH (S i) Hgs).
    replace (S i + length gs1) with (i + S (length gs1)) by lia.
    destruct (script_groups _ _ _ _ (S i) gs1) as [out1 r1]. cbn [fst].
    by rewrite List.app_assoc.
Qed.

End Planner.


(** The sizes are read only for a group that needs review: the planner
    ends normally on a group exactly when one side alone holds a managed
    file, or every size text of both sides can be read.  An unreadable size
    is harmless in a group whose decision is automatic. *)
Theorem planner_reads_sizes_for_review_only
    (py_float : string -> option Q) (normalize_path : string -> string)
    (sonarr_paths radarr_paths : gmap string string) (i : nat) (g : group) :
  ended_normally
    (snd (group_script py_float normalize_path sonarr_paths radarr_paths i g))
  = xorb (side_managed normalize_path sonarr_paths radarr_paths (base_files g))
         (side_managed normalize_path sonarr_paths radarr_paths (similar_files g))
    || (ended_normally (sizes_of py_float (base_files g))
        && ended_normally (sizes_of py_float (similar_files g))).
Proof. rewrite group_script_ended. apply decision_ended_normally. Qed.

(** The script ends at the first group that faults.  If the groups before
    it end normally, the text written is the preamble, those groups, and
    the faulting group up to its review comment; the exception leaves
    [create_cleanup_script], and nothing is written for the groups that
    follow, whatever they are. *)
Theorem script_stops_at_first_fault
    (py_float : string -> option Q) (normalize_path : string -> string)
    (sonarr_paths radarr_paths : gmap string string)
    (before after : list group) (g : group) (e : exn) :
  List.Forall
    (fun g' => snd (decision py_float normalize_path sonarr_paths radarr_paths g')
               = Ok tt) before ->
  snd (decision py_float normalize_path sonarr_paths radarr_paths g) = Raise e ->
  create_cleanup_script py_float normalize_path sonarr_paths radarr_paths
    (List.app before (g :: after))
  = (List.app preamble
       (List.app
          (fst (script_groups py_float normalize_path sonarr_paths radarr_paths 1 before))
          (List.app
             (group_listing normalize_path sonarr_paths radarr_paths
                (S (length before)) g)
             (fst (decision py_float normalize_path sonarr_paths radarr_paths g)))),
     Raise e).
Proof.
  intros Hb Hg. unfold create_cleanup_script.
  rewrite (script_groups_app py_float normalize_path sonarr_paths radarr_paths
             before (g :: after) 1 Hb).
  cbn [script_groups]. replace (1 + length before) with (S (length before)) by lia.
  unfold group_script.
  destruct (decision py_float normalize_path sonarr_paths radarr_paths g) as [out r].
  cbn [snd] in Hg. subst r. reflexivity.
Qed.

Lemma script_stops_at_first_fault_applies :
  create_cleanup_script decimal (fun p => p) ∅ ∅
    (List.app [unmanaged_group] (unreadable_group :: [unsized_group; nested_group]))
  = (List.app preamble
       (List.app
          (fst (script_groups decimal (fun p => p) ∅ ∅ 1 [unmanaged_group]))
          (List.app
             (group_listing (fun p => p) ∅ ∅ 2 unreadable_group)
             (fst (decision decimal (fun p => p) ∅ ∅ unreadable_group)))),
     Raise ValueError).
Proof.
  apply (script_stops_at_first_fault decimal (fun p => p) ∅ ∅
           [unmanaged_group] [unsized_group; nested_group] unreadable_group ValueError).
  - repeat constructor.
  - vm_compute. reflexivity.
Defined.

End ScriptFacts.

(** ** More on the path translation *)

Module PathMappingMore.
Import Py PyFacts PathMapping PathMappingNotions PathMappingFacts Samples.

Lemma lstrip_slash_head (s : string) : startswith (lstrip_by is_slash s) "/" = false.
Proof.
  destruct (lstrip_by_head is_slash s) as [->|(c & t & -> & Hc)]; [done|].
  unfold startswith. cbn [String.prefix].
  destruct (ascii_dec "/" c) as [<-|]; [done|done].
Qed.

Lemma path_join_under (a b : string) :
  startswith b "/" = false -> startswith (path_join a b) a = true.
Proof.
  intros H. unfold path_join. rewrite H.
  destruct (is_empty a || endswith_slash a); unfold startswith; apply prefix_append.
Qed.

(** The first match of the sorted list, by recursion on the list as given. *)
Lemma find_insert_desc (p : mapping -> bool) (x : mapping) (l : list mapping) :
  StronglySorted longer_first l ->
  List.find p (insert_desc x l)
  = match List.find p l with
    | Some y => if p x && (key y <=? key x)%nat then Some x else Some y
    | None => if p x then Some x else None
    end.
Proof.
  induction l as [|y ys IH]; intros Hs; cbn [insert_desc List.find].
  - by destruct (p x).
  - apply StronglySorted_inv in Hs as [Hs Hy].
    destruct (key x <? key y)%nat eqn:E; cbn [List.find].
    + apply Nat.ltb_lt in E. destruct (p y) eqn:Ey.
      * assert ((key y <=? key x)%nat = false) as -> by (apply Nat.leb_gt; lia).
        by rewrite andb_false_r.
      * by apply IH.
    + apply Nat.ltb_ge in E. destruct (p x) eqn:Ex; cbn [andb]; [|by destruct (p y), (List.find p ys)].
      destruct (p y) eqn:Ey.
      * assert ((key y <=? key x)%nat = true) as -> by (apply Nat.leb_le; lia).
        reflexivity.
      * destruct (List.find p ys) as [z|] eqn:Ez; [|done].
        apply List.find_some in Ez as [Hz _].
        rewrite List.Forall_forall in Hy. specialize (Hy z Hz).
        unfold longer_first in Hy.
        assert ((key z <=? key x)%nat = true) as -> by (apply Nat.leb_le; lia).
        reflexivity.
Qed.

Lemma applied_mapping_cons (path : string) (x : mapping) (ms : list mapping) :
  applied_mapping path (x :: ms)
  = match applied_mapping path ms with
    | Some y =>
        if startswith path (container_path x) && (key y <=? key x)%nat
        then Some x else Some y
    | None => if startswith path (container_path x) then Some x else None
    end.
Proof.
  unfold applied_mapping. cbn [sorted_mappings].
  apply (find_insert_desc (fun m => startswith path (container_path m))).
  apply sorted_mappings_sorted.
Qed.

(** A path that a mapping is applied to is translated to a path under the
    host path of that mapping: the slashes that follow the prefix are
    dropped before the join, so the join never starts over from the root. *)
Theorem translated_path_is_under_the_host_path
    (path : string) (mappings : list mapping) :
  match applied_mapping path mappings with
  | Some m =>
      startswith (convert_container_path_to_host_path path mappings) (host_path m)
      = true
  | None => convert_container_path_to_host_path path mappings = path
  end.
Proof.
  unfold convert_container_path_to_host_path.
  destruct (applied_mapping path mappings) as [m|]; [|done].
  unfold translate. apply path_join_under, lstrip_slash_head.
Qed.

(** Among the mappings whose container path is a prefix of the input, the
    one applied is the first of the list that has the longest container
    path: a mapping is applied when every matching mapping before it is
    strictly shorter and no matching mapping after it is longer.  The
    service of a mapping plays no part. *)
Theorem first_longest_mapping_is_applied
    (path : string) (before after : list mapping) (m : mapping) :
  startswith path (container_path m) = true ->
  (forall m', List.In m' before -> startswith path (container_path m') = true ->
              (String.length (container_path m')
               < String.length (container_path m))%nat) ->
  (forall m', List.In m' after -> startswith path (container_path m') = true ->
              (String.length (container_path m')
               <= String.length (container_path m))%nat) ->
  applied_mapping path (List.app before (m :: after)) = Some m
  /\ convert_container_path_to_host_path path (List.app before (m :: after))
     = path_join (host_path m)
         (lstrip_by is_slash (drop (String.length (container_path m)) path)).
Proof.
  intros Hm Hb Ha.
  assert (H : applied_mapping path (List.app before (m :: after)) = Some m).
  { induction before as [|x before IH]; cbn [List.app]; rewrite applied_mapping_cons.
    - rewrite Hm. destruct (applied_mapping path after) as [y|] eqn:E; [|done].
      unfold applied_mapping in E. apply List.find_some in E as [Hy Hp].
      apply (proj1 (sorted_mappings_In _ _)) in Hy.
      cbn beta in Hp.
      assert ((key y <=? key m)%nat = true) as ->
        by (apply Nat.leb_le; unfold key; by apply Ha).
      reflexivity.
    - rewrite IH by (intros; apply Hb; [by right|done]).
      destruct (startswith path (container_path x)) eqn:Ex; [|done].
      assert ((key m <=? key x)%nat = false) as ->; [|done].
      apply Nat.leb_gt. unfold key. apply Hb; [by left|done]. }
  split; [done|]. unfold convert_container_path_to_host_path. by rewrite H.
Qed.

Lemma first_longest_mapping_is_applied_applies :
  applied_mapping "/data/Heat (1995)" (List.app [tv] (sonarr_data :: [radarr_data]))
  = Some sonarr_data
  /\ convert_container_path_to_host_path "/data/Heat (1995)"
       (List.app [tv] (sonarr_data :: [radarr_data]))
     = path_join (PathMapping.host_path sonarr_data)
         (lstrip_by is_slash
            (drop (String.length (container_path sonarr_data)) "/data/Heat (1995)")).
Proof.
  apply (first_longest_mapping_is_applied "/data/Heat (1995)" [tv] [radarr_data]
           sonarr_data).
  - reflexivity.
  - intros m' [<-|[]]. vm_compute. discriminate.
  - intros m' [<-|[]] _. vm_compute. lia.
Defined.

End PathMappingMore.

(** ** More on the resolver *)

Module LookupMore.
Import Py Lookup LookupNotions RelatedNotions Samples LookupFacts.

(** The fourth test of [are_related_media_paths], on the parent folders,
    asks again for equal basenames, which the first test has settled: the
    function is the disjunction of its first three tests. *)
Theorem related_paths_by_three_tests (path1 path2 folder_name : string) :
  are_related_media_paths path1 path2 folder_name
  = same_basename path1 path2
    || named_like_folder path1 path2 folder_name
    || titles_overlap path1 path2.
Proof.
  unfold are_related_media_paths, same_basename, named_like_folder, titles_overlap.
  destruct (String.eqb (lower (basename path1)) (lower (basename path2))) eqn:E1;
    [done|]. cbn [orb].
  destruct (negb (is_empty folder_name) && _) eqn:E2; [done|]. cbn [orb].
  destruct (movie_name (basename path1)) as [g1|];
    [destruct (movie_name (basename path2)) as [g2|]|].
  - destruct (String.eqb (strip (lower g1)) (strip (lower g2))
              || contains (strip (lower g2)) (strip (lower g1))
              || contains (strip (lower g1)) (strip (lower g2))); [done|].
    by rewrite andb_false_r.
  - by rewrite andb_false_r.
  - by rewrite andb_false_r.
Qed.

(** [are_related_media_paths] does not depend on the order of its two
    paths. *)
Theorem related_paths_symmetric (path1 path2 folder_name : string) :
  are_related_media_paths path1 path2 folder_name
  = are_related_media_paths path2 path1 folder_name.
Proof.
  rewrite !related_paths_by_three_tests.
  unfold same_basename, named_like_folder, titles_overlap.
  rewrite (String.eqb_sym (lower (basename path1)) (lower (basename path2))).
  rewrite (orb_comm (String.eqb (lower (basename path1)) (lower folder_name))).
  f_equal.
  destruct (movie_name (basename path1)) as [g1|],
           (movie_name (basename path2)) as [g2|]; try reflexivity.
  rewrite (String.eqb_sym (strip (lower g1)) (strip (lower g2))).
  rewrite <- !orb_assoc. f_equal. apply orb_comm.
Qed.

(** Every result of [lookup_duplicate_folders] lists at least one path, and
    none of the paths it lists is protected; a record without a folder
    line, or whose paths are all protected, gives no result at all. *)
Theorem lookup_results_list_unprotected_paths
    (self : lookup) (records : list report_record) :
  List.Forall
    (fun r =>
       duplicate_paths r <> []
       /\ List.Forall (fun p => is_protected_path self p = false) (duplicate_paths r))
    (lookup_duplicate_folders self records)
  /\ (forall r,
        folder_match r = None
        \/ List.Forall (fun p => is_protected_path self p = true) (path_matches r) ->
        lookup_record self r = []).
Proof.
  split.
  - unfold lookup_duplicate_folders. apply List.Forall_concat.
    apply List.Forall_map, List.Forall_forall. intros rec _.
    unfold lookup_record. destruct (folder_match rec) as [current|]; [|constructor].
    destruct (unprotected_paths self (path_matches rec)) as [|p ps] eqn:E;
      [constructor|].
    constructor; [|constructor]. cbn [duplicate_paths]. split; [done|].
    rewrite <- E. apply List.Forall_forall. intros q Hq.
    by apply unprotected_paths_spec in Hq as [_ ?].
  - intros r [H|H]; unfold lookup_record; [by rewrite H|].
    destruct (folder_match r) as [current|]; [|done].
    destruct (unprotected_paths self (path_matches r)) as [|p ps] eqn:E; [done|].
    exfalso.
    assert (Hp : List.In p (unprotected_paths self (path_matches r)))
      by (rewrite E; by left).
    apply unprotected_paths_spec in Hp as [Hin Hf].
    rewrite List.Forall_forall in H. specialize (H p Hin). congruence.
Qed.

End LookupMore.

(** ** Loading the catalogs *)

Module CatalogFacts.
Import Py PathMapping Lookup CatalogLoad CatalogNotions Samples.











Lemma fold_insert_last (custom : list (string * official_info))
    (m : gmap string official_info) (k : string) (info : official_info) :
  ~ List.In k (List.map fst custom) ->
  m !! k = Some info ->
  List.fold_left (fun m it => <[ fst it := snd it ]> m) custom m !! k = Some info.
Proof.
  revert m. induction custom as [|[k' v] custom IH]; intros m Hn Hm; [done|].
  cbn [List.fold_left fst snd]. apply IH.
  - intros H. apply Hn. by right.
  - rewrite lookup_insert_ne; [done|]. intros ->. apply Hn. by left.
Qed.

(** A custom mapping has the last word.  For a folder name of the mappings
    file, the resolver answers with the value the file gives it (the last
    one, if the name occurs twice), whatever the catalogs hold under that
    name and whatever the other tiers would find. *)
Theorem custom_mapping_overrides_the_catalogs
    (self : lookup) (before after : list (string * official_info))
    (folder_name : string) (info : official_info) (duplicate_paths : list string) :
  ~ List.In folder_name (List.map fst after) ->
  get_official_path_for_folder
    (add_custom_mappings (List.app before ((folder_name, info) :: after)) self)
    folder_name duplicate_paths
  = Some info.
Proof.
  intros Hn. unfold get_official_path_for_folder, add_custom_mappings.
  cbn [folder_to_path_map].
  rewrite List.fold_left_app. cbn [List.fold_left fst snd].
  rewrite (fold_insert_last after _ folder_name info Hn); [done|].
  apply lookup_insert_eq.
Qed.

Lemma custom_mapping_overrides_the_catalogs_applies :
  get_official_path_for_folder
    (add_custom_mappings
       (List.app []
          (("Show Name",
            {| kind := Movie; title := "Show Name: The Movie";
               host_path := "/library/movies/Show Name"; match_type := None |})
             :: []))
       show_lookup)
    "Show Name" ["/backup/tv/Show.Name.WEBRip"]
  = Some {| kind := Movie; title := "Show Name: The Movie";
            host_path := "/library/movies/Show Name"; match_type := None |}.
Proof.
  apply (custom_mapping_overrides_the_catalogs show_lookup [] []).
  intros [].
Defined.

End CatalogFacts.

(** ** What the report parser returns *)

Module ParserMore.
Import Py PyFacts Cleanup ReportShape.

Lemma startswith_head (s p : string) (c : ascii) :
  startswith s (String c p) = true -> exists t, s = String c t.
Proof.
  unfold startswith. destruct s as [|d s]; cbn [String.prefix]; [done|].
  destruct (ascii_dec c d) as [->|]; [|done]. by exists s.
Qed.

Lemma base_line_not_similar (raw : string) :
  is_base_line raw = true -> is_similar_line raw = false.
Proof.
  unfold is_base_line, is_similar_line. intros H.
  apply startswith_head in H as [t ->].
  unfold startswith. by apply prefix_head_ne.
Qed.

Lemma last_cons {A : Type} (a d : A) (l : list A) :
  List.last (a :: l) d = List.last l a.
Proof.
  revert a d. induction l as [|b l IH]; intros a d; [done|].
  change (List.last (a :: b :: l) d) with (List.last (b :: l) d).
  by rewrite !IH.
Qed.

Lemma extend_nil (g : group) : extend g [] = g.
Proof. destruct g. unfold extend. cbn. by rewrite List.app_nil_r. Qed.

Lemma extend_cons (g : group) (l : string) (ls : list string) :
  extend (extend g [l]) ls = extend g (l :: ls).
Proof.
  unfold extend. cbn [List.filter base_folder base_files similar_folders similar_files].
  f_equal.
  - destruct (is_base_line l); cbn [List.map]; [|done].
    change (List.last [Some (base_name l)] (base_folder g)) with (Some (base_name l)).
    by rewrite last_cons.
  - rewrite <- List.app_assoc. f_equal.
    by destruct (is_similar_line l).
Qed.

(** One line inside a group. *)
Lemma parse_line_in_group (gs : list group) (g : group) (l : string) :
  is_heading l = false ->
  parse_line {| groups := gs; current_group := Some g |} l
  = Ok {| groups := gs; current_group := Some (extend g [l]) |}.
Proof.
  intros Hh. unfold parse_line.
  rewrite (strip_not_indented l " /").
  change (startswith (strip l) "===" && (10 <? String.length (strip l))%nat)
    with (is_heading l).
  change (startswith (strip l) "Base Folder:") with (is_base_line l).
  change (startswith (strip l) "Similar Folder") with (is_similar_line l).
  rewrite Hh. cbn [current_group groups].
  unfold extend. cbn [List.filter].
  destruct (is_base_line l) eqn:Eb.
  { rewrite (base_line_not_similar l Eb). cbn. by rewrite List.app_nil_r. }
  destruct (is_similar_line l) eqn:Es; [done|].
  cbn. rewrite List.app_nil_r. by destruct g.
Qed.

Lemma parse_lines_in_group (lines : list string) (gs : list group) (g : group) :
  exists st,
    parse_lines {| groups := gs; current_group := Some g |} lines = Ok st
    /\ push_current st
       = List.app gs (extend g (body lines) :: List.map group_of (sections lines)).
Proof.
  revert gs g. induction lines as [|l lines IH]; intros gs g.
  - eexists. split; [done|]. cbn. by rewrite extend_nil.
  - cbn [parse_lines body sections]. destruct (is_heading l) eqn:Eh.
    + assert (parse_line {| groups := gs; current_group := Some g |} l
              = Ok {| groups := List.app gs [g]; current_group := Some new_group |})
        as ->.
      { unfold parse_line. unfold is_heading in Eh. by rewrite Eh. }
      destruct (IH (List.app gs [g]) new_group) as (st & -> & Hst).
      exists st. split; [done|]. rewrite Hst, extend_nil.
      by rewrite <- List.app_assoc.
    + rewrite (parse_line_in_group gs g l Eh).
      destruct (IH gs (extend g [l])) as (st & -> & Hst).
      exists st. split; [done|]. by rewrite Hst, extend_cons.
Qed.

Lemma parse_lines_before_groups (lines : list string) :
  if orphan_similar lines
  then parse_lines {| groups := []; current_group := None |} lines = Raise TypeError
  else exists st,
    parse_lines {| groups := []; current_group := None |} lines = Ok st
    /\ push_current st = List.map group_of (sections lines).
Proof.
  induction lines as [|l lines IH]; [by eexists|].
  cbn [orphan_similar parse_lines sections].
  destruct (is_heading l) eqn:Eh.
  - assert (parse_line {| groups := []; current_group := None |} l
            = Ok {| groups := []; current_group := Some new_group |}) as ->.
    { unfold parse_line. unfold is_heading in Eh. by rewrite Eh. }
    destruct (parse_lines_in_group lines [] new_group) as (st & -> & Hst).
    by exists st.
  - assert (parse_line {| groups := []; current_group := None |} l
            = if is_similar_line l then Raise TypeError
              else Ok {| groups := []; current_group := None |}) as ->.
    { unfold parse_line. rewrite (strip_not_indented l " /").
      unfold is_heading in Eh. rewrite Eh. cbn [current_group].
      destruct (startswith (strip l) "Base Folder:") eqn:Eb.
      - by rewrite (base_line_not_similar l Eb).
      - done. }
    by destruct (is_similar_line l).
Qed.

(** What [parse_report] returns, for every file.  It raises [TypeError]
    exactly when a "Similar Folder" line comes before the first heading
    line (a line that starts with [===] and is longer than ten
    characters once stripped).  Otherwise it returns one group for every
    heading line, in order, built from the lines up to the next heading:
    the base folder is the text of the last "Base Folder:" line ([None]
    without one), every "Similar Folder" line is kept whole, and both
    file lists are empty. *)
Theorem parse_report_by_sections (lines : list string) :
  parse_report lines
  = if orphan_similar lines then Raise TypeError
    else Ok (List.map group_of (sections lines)).
Proof.
  unfold parse_report. pose proof (parse_lines_before_groups lines) as H.
  destruct (orphan_similar lines).
  - by rewrite H.
  - destruct H as (st & -> & Hst). by rewrite Hst.
Qed.

End ParserMore.

(** ** The shape of the groups *)

Module GrouperMore.
Import Py Normalizer Grouper GrouperNotions GrouperShape Samples GrouperFacts.

Section Grouping.

Variable ratio : string -> string -> Q.
Variable extend_files : bool.
Variable folder_map : folder_index.

Lemma grown_from_index (folder1 : string) (picks : list (string * Q)) :
  List.In folder1 (List.map fst folder_map) ->
  (forall x, List.In x (List.map fst picks) -> List.In x (List.map fst folder_map)) ->
  from_index extend_files folder_map (grown extend_files folder_map folder1 picks).
Proof.
  intros H1 H2. unfold from_index, grown, add_all.
  cbn [base_folder similar_folders similarity_scores files List.app].
  split; [done|]. split; [by apply List.Forall_forall|].
  split; [by rewrite !List.length_map|].
  destruct extend_files; [|by rewrite List.app_nil_r].
  by rewrite List.map_map.
Qed.

Lemma snoc_decompose {A : Type} (gs before after : list A) (g g' : A) :
  List.app gs [g'] = List.app before (g :: after) ->
  (before = gs /\ g = g' /\ after = [])
  \/ exists after', after = List.app after' [g'] /\ gs = List.app before (g :: after').
Proof.
  destruct (List.exists_last (l := g :: after)) as (l & z & Hl); [done|].
  intros H. rewrite Hl, List.app_assoc in H.
  apply List.app_inj_tail in H as [-> ->].
  destruct after as [|a after].
  - left. destruct l as [|? l]; [|by destruct l].
    cbn in Hl. injection Hl as ->. by rewrite List.app_nil_r.
  - right. destruct l as [|b l]; [done|].
    cbn in Hl. injection Hl as <- Hl.
    exists (List.removelast (a :: after)).
    assert (a :: after = List.app l [z]) as Ha by done.
    rewrite Ha, List.removelast_last. by split.
Qed.

Lemma open_group_shape (st : list group * gset string) (folder1 : string) :
  List.In folder1 (List.map fst folder_map) ->
  shape_inv ratio extend_files folder_map st ->
  shape_inv ratio extend_files folder_map
    (open_group ratio extend_files folder_map st (folder1, clean_media_name folder1)).
Proof.
  destruct st as [gs P]. intros Hkey (Hp & Hfrom & Htook).
  rewrite open_group_eq.
  destruct (bool_decide (folder1 ∈ P)) eqn:E1; cbn [orb]; [done|].
  destruct (is_empty (clean_media_name folder1)) eqn:E2; [done|].
  apply bool_decide_eq_false in E1. cbn zeta.
  set (picks := picked ratio folder1 (clean_media_name folder1)
                  (cleaned_folders folder_map) P).
  destruct picks as [|p ps] eqn:Ep; [done|]. rewrite <- Ep.
  assert (Hkeys : forall x, List.In x (List.map fst picks) ->
                            List.In x (List.map fst folder_map)).
  { intros x Hx. apply List.in_map_iff in Hx as ([y r] & <- & Hy).
    apply picked_sound in Hy as (_ & _ & c & Hc & _).
    unfold cleaned_folders in Hc. apply List.in_map_iff in Hc as (it & [= <- _] & Hit).
    apply List.in_map_iff. by exists it. }
  unfold shape_inv; cbn [fst snd]. split; [|split].
  - intros x Hx. rewrite names_snoc, members_grown. apply List.in_app_iff.
    apply elem_of_union in Hx as [Hx|Hx].
    { apply elem_of_singleton in Hx as ->. right. by left. }
    apply elem_of_union in Hx as [Hx|Hx].
    + right. right. apply list_elem_of_In. by apply elem_of_list_to_set in Hx.
    + left. by apply Hp.
  - apply List.Forall_app. split; [done|]. constructor; [|constructor].
    by apply grown_from_index.
  - intros before g after Hd.
    apply snoc_decompose in Hd as [(-> & -> & ->)|(after' & -> & ->)].
    2: { by apply (Htook before g after'). }
    intros x Hx Hc Hn. rewrite names_snoc, members_grown in Hn.
    cbn [base_folder grown add_all].
    destruct (above_threshold
                (ratio (clean_media_name folder1) (clean_media_name x))) eqn:Ea.
    2: { unfold above_threshold in Ea. apply negb_false_iff in Ea.
         by apply Qle_bool_iff. }
    exfalso. apply Hn. apply List.in_app_iff. right. right.
    apply picked_complete with (c := clean_media_name x).
    + unfold cleaned_folders. apply List.in_map_iff in Hx as (it & <- & Hit).
      apply List.in_map_iff. by exists it.
    + unfold joins; cbn [fst snd]. rewrite Ea, andb_true_r.
      assert (x <> folder1) as Hne.
      { intros ->. apply Hn. apply List.in_app_iff. right. by left. }
      assert (x ∉ P) as HP.
      { intros HxP. apply Hn. apply List.in_app_iff. left. by apply Hp. }
      rewrite bool_decide_eq_true_2 by done.
      assert (String.eqb folder1 x = false) as -> by (by apply String.eqb_neq).
      by destruct (clean_media_name x).
Qed.

Lemma shape_inv_fold (l : list (string * string)) (st : list group * gset string) :
  (forall x c, List.In (x, c) l ->
     c = clean_media_name x /\ List.In x (List.map fst folder_map)) ->
  shape_inv ratio extend_files folder_map st ->
  shape_inv ratio extend_files folder_map
    (List.fold_left (open_group ratio extend_files folder_map) l st).
Proof.
  revert st. induction l as [|[x c] l IH]; intros st Hl Hst; [done|].
  cbn [List.fold_left]. apply IH; [intros; apply Hl; by right|].
  destruct (Hl x c) as [-> Hx]; [by left|]. by apply open_group_shape.
Qed.

Lemma find_similar_media_folders_shape :
  shape_inv ratio extend_files folder_map
    (List.fold_left (open_group ratio extend_files folder_map)
       (cleaned_folders folder_map) ([], ∅)).
Proof.
  apply shape_inv_fold.
  - intros x c H. unfold cleaned_folders in H.
    apply List.in_map_iff in H as (it & [= <- <-] & Hit).
    split; [done|]. apply List.in_map_iff. by exists it.
  - split; [|split].
    + intros x Hx. by apply not_elem_of_empty in Hx.
    + constructor.
    + intros before g after H. by destruct before.
Qed.

End Grouping.

(** Every group is cut from the index.  The base and the similar members
    of a group returned are folder names of the index, the group has one
    score for each similar member, and its file list is the file list of
    its base in the index, followed, in [find_media_dupes.py] only, by
    the file lists of its similar members in the order in which they
    joined. *)
Theorem groups_are_cut_from_the_index
    (ratio : string -> string -> Q) (extend_files : bool) (folder_map : folder_index) :
  List.Forall
    (fun g =>
       List.In (base_folder g) (List.map fst folder_map)
       /\ List.Forall (fun x => List.In x (List.map fst folder_map)) (similar_folders g)
       /\ length (similarity_scores g) = length (similar_folders g)
       /\ files g
          = List.app (files_of folder_map (base_folder g))
              (if extend_files
               then List.concat (List.map (files_of folder_map) (similar_folders g))
               else []))
    (find_similar_media_folders ratio extend_files folder_map).
Proof.
  destruct (find_similar_media_folders_shape ratio extend_files folder_map)
    as (_ & H & _).
  exact H.
Qed.

(** A group leaves no candidate behind.  For a group of the result, every
    folder name of the index that has a non-empty key and is in none of
    the groups up to and including this one (it is in a later group, or in
    no group) scores at most 0.9 against the base of the group. *)
Theorem group_takes_every_candidate
    (ratio : string -> string -> Q) (extend_files : bool) (folder_map : folder_index)
    (before after : list group) (g : group) (x : string) :
  find_similar_media_folders ratio extend_files folder_map
    = List.app before (g :: after) ->
  List.In x (List.map fst folder_map) ->
  clean_media_name x <> "" ->
  ~ List.In x (List.concat (List.map members (List.app before [g]))) ->
  (ratio (clean_media_name (base_folder g)) (clean_media_name x) <= 9 # 10)%Q.
Proof.
  intros Hd Hx Hc Hn.
  destruct (find_similar_media_folders_shape ratio extend_files folder_map)
    as (_ & _ & H).
  by apply (H before g after Hd x).
Qed.

Lemma group_takes_every_candidate_applies :
  (Difflib.ratio (clean_media_name "Moonlight") (clean_media_name "Heat (1995)")
   <= 9 # 10)%Q.
Proof.
  apply (group_takes_every_candidate Difflib.ratio true heat_index []
           []
           {| base_folder := "Moonlight"; similar_folders := ["Moonlights"];
              similarity_scores := [Difflib.ratio "moonlight" "moonlights"];
              files := ["/a/Moonlight/film.mkv"; "/b/Moonlights/film.mkv"] |}
           "Heat (1995)").
  - vm_compute. reflexivity.
  - right. left. reflexivity.
  - vm_compute. discriminate.
  - cbn. intros [H|[H|[]]]; discriminate.
Defined.

End GrouperMore.

(** ** The keys of the normalizer *)

Module KeyFacts.
Import Py PyFacts Re Normalizer Tokens KeyNotions NormalizerFacts.

Ltac by_cases_on c := destruct c as [[] [] [] [] [] [] [] []]; reflexivity.

Lemma lower_char_word (c : ascii) : is_word (lower_char c) = is_word c.
Proof. by_cases_on c. Qed.

Lemma lower_char_digit (c : ascii) : is_digit (lower_char c) = is_digit c.
Proof. by_cases_on c. Qed.

Lemma lower_char_alnum (c : ascii) : is_alnum (lower_char c) = is_alnum c.
Proof. by_cases_on c. Qed.

Lemma lower_char_separator (c : ascii) : is_separator (lower_char c) = is_separator c.
Proof. by_cases_on c. Qed.

Lemma lower_char_newline (c : ascii) :
  Ascii.eqb (lower_char c) (chr 10) = Ascii.eqb c (chr 10).
Proof. by_cases_on c. Qed.

Lemma lower_char_opening (c : ascii) :
  contains "([." (String (lower_char c) "") = contains "([." (String c "").
Proof. by_cases_on c. Qed.

Lemma lower_char_closing (c : ascii) :
  contains ")]." (String (lower_char c) "") = contains ")]." (String c "").
Proof. by_cases_on c. Qed.

Lemma ci_blind (c : ascii) : case_blind (ci c).
Proof. intros x. cbn beta. by rewrite lower_char_idem. Qed.

Lemma lit_blind (s : string) : case_blind (lit s).
Proof.
  induction s as [|c s IH]; [done|].
  destruct s as [|d s]; [apply ci_blind|].
  split; [apply ci_blind|exact IH].
Qed.

Lemma digit_blind : case_blind digit.
Proof. exact lower_char_digit. Qed.

Lemma opening_blind : case_blind (one_of "([.").
Proof. exact lower_char_opening. Qed.

Lemma closing_blind : case_blind (Opt (one_of ")].")).
Proof. exact lower_char_closing. Qed.

Lemma digits_blind : case_blind (Star is_digit).
Proof. exact lower_char_digit. Qed.

Lemma alnum_blind : case_blind (Chr is_alnum).
Proof. exact lower_char_alnum. Qed.

Lemma alnums_blind : case_blind (Star is_alnum).
Proof. exact lower_char_alnum. Qed.

Lemma opt_blind (r : regex) : case_blind r -> case_blind (Opt r).
Proof. done. Qed.

Lemma year_pattern_blind : case_blind year_pattern.
Proof.
  repeat split;
    auto using lit_blind, ci_blind, digit_blind, opening_blind, closing_blind.
Qed.

Lemma patterns_to_remove_blind : List.Forall case_blind patterns_to_remove.
Proof.
  unfold patterns_to_remove.
  repeat (apply List.Forall_cons; [|]); try apply List.Forall_nil;
    try apply lit_blind;
    repeat split;
    auto using lit_blind, ci_blind, digit_blind, digits_blind, alnum_blind,
      alnums_blind, opt_blind.
Qed.

Lemma length_lower (s : string) : String.length (lower s) = String.length s.
Proof. unfold lower. induction s as [|c s IH]; [done|]. cbn. by rewrite IH. Qed.

Lemma at_eol_lower (s : string) : at_eol (lower s) = at_eol s.
Proof.
  unfold at_eol. destruct s as [|c s]; [done|].
  cbn [lower smap is_empty orb newline String.eqb].
  rewrite lower_char_newline. by destruct s.
Qed.

Lemma word_after_lower (s : string) : word_after (lower s) = word_after s.
Proof. destruct s as [|c s]; [done|]. apply lower_char_word. Qed.

Lemma word_before_lower (prev : option ascii) :
  word_before (option_map lower_char prev) = word_before prev.
Proof. destruct prev as [c|]; [|done]. apply lower_char_word. Qed.

Lemma star_greedy_lower (p : ascii -> bool) (s : string) (prev : option ascii)
    (k' k : option ascii -> string -> option string) :
  (forall c, p (lower_char c) = p c) -> follows k' k ->
  star_greedy p (option_map lower_char prev) (lower s) k'
  = option_map lower (star_greedy p prev s k).
Proof.
  intros Hp Hk. revert prev. induction s as [|c s IH]; intros prev.
  - apply (Hk prev "").
  - cbn [lower smap star_greedy]. rewrite Hp.
    destruct (p c); [|apply (Hk prev (String c s))].
    change (smap lower_char s) with (lower s).
    pose proof (IH (Some c)) as H. cbn [option_map] in H. rewrite H.
    destruct (star_greedy p (Some c) s k); [done|].
    apply (Hk prev (String c s)).
Qed.

Lemma rmatch_lower (r : regex) :
  case_blind r ->
  forall (prev : option ascii) (s : string)
         (k' k : option ascii -> string -> option string),
    follows k' k ->
    rmatch r (option_map lower_char prev) (lower s) k'
    = option_map lower (rmatch r prev s k).
Proof.
  induction r as [|p|r1 IH1 r2 IH2|r1 IH1 r2 IH2|r1 IH1|p| |];
    intros Hb prev s k' k Hk; cbn [rmatch].
  - apply Hk.
  - destruct s as [|c s]; [done|]. cbn [lower smap]. rewrite (Hb c).
    destruct (p c); [|done]. apply (Hk (Some c) s).
  - destruct Hb as [Hb1 Hb2]. apply IH1; [done|].
    intros prev' s'. by apply IH2.
  - destruct Hb as [Hb1 Hb2].
    rewrite (IH1 Hb1 prev s k' k Hk), (IH2 Hb2 prev s k' k Hk).
    by destruct (rmatch r1 prev s k).
  - rewrite (IH1 Hb prev s k' k Hk), (Hk prev s).
    by destruct (rmatch r1 prev s k).
  - by apply star_greedy_lower.
  - rewrite at_eol_lower. destruct (at_eol s); [apply Hk|done].
  - rewrite word_before_lower, word_after_lower.
    destruct (xorb _ _); [apply Hk|done].
Qed.

Lemma match_here_lower (r : regex) (prev : option ascii) (s : string) :
  case_blind r ->
  match_here r (option_map lower_char prev) (lower s)
  = option_map lower (match_here r prev s).
Proof. intros Hb. unfold match_here. by apply rmatch_lower. Qed.

Lemma sub_del_lower (r : regex) (s : string) (prev : option ascii) (skip : nat) :
  case_blind r ->
  sub_del r (option_map lower_char prev) skip (lower s) = lower (sub_del r prev skip s).
Proof.
  intros Hb. revert prev skip. induction s as [|c s IH]; intros prev skip; [done|].
  cbn [lower smap sub_del]. change (smap lower_char s) with (lower s).
  destruct skip as [|n]; [|apply (IH (Some c))].
  change (String (lower_char c) (lower s)) with (lower (String c s)).
  rewrite (match_here_lower r prev (String c s) Hb).
  destruct (match_here r prev (String c s)) as [rest|]; cbn [option_map].
  - rewrite !length_lower.
    destruct (String.length (String c s) - String.length rest)%nat.
    + cbn [lower smap]. f_equal. apply (IH (Some c)).
    + apply (IH (Some c)).
  - cbn [lower smap]. f_equal. apply (IH (Some c)).
Qed.

Lemma sub_empty_lower (r : regex) (s : string) :
  case_blind r -> sub_empty r (lower s) = lower (sub_empty r s).
Proof. intros Hb. by apply (sub_del_lower r s None 0). Qed.

Lemma fold_sub_lower (ps : list regex) (s : string) :
  List.Forall case_blind ps ->
  List.fold_left (fun nm p => sub_empty p nm) ps (lower s)
  = lower (List.fold_left (fun nm p => sub_empty p nm) ps s).
Proof.
  intros H. revert s. induction H as [|p ps Hp Hps IH]; intros s; [done|].
  cbn [List.fold_left]. by rewrite sub_empty_lower, IH.
Qed.

Lemma strip_tokens_lower (s : string) : strip_tokens (lower s) = lower (strip_tokens s).
Proof.
  unfold strip_tokens. rewrite (sub_empty_lower _ _ year_pattern_blind).
  apply fold_sub_lower, patterns_to_remove_blind.
Qed.

Lemma separators_to_spaces_lower (s : string) :
  separators_to_spaces (lower s) = lower (separators_to_spaces s).
Proof.
  unfold separators_to_spaces, lower. induction s as [|c s IH]; [done|].
  cbn [smap]. rewrite IH, lower_char_separator. by destruct (is_separator c).
Qed.

Lemma is_empty_lower (s : string) : is_empty (lower s) = is_empty s.
Proof. by destruct s. Qed.

Lemma split_from_lower (s w : string) :
  split_from (lower w) (lower s) = List.map lower (split_from w s).
Proof.
  revert w. induction s as [|c s IH]; intros w.
  - cbn [lower smap split_from]. change (smap lower_char w) with (lower w).
    rewrite is_empty_lower. by destruct (is_empty w).
  - cbn [lower smap split_from]. change (smap lower_char s) with (lower s).
    change (smap lower_char w) with (lower w).
    rewrite lower_char_space, is_empty_lower.
    destruct (is_space c).
    + destruct (is_empty w); cbn [List.map]; by rewrite <- (IH "").
    + rewrite <- IH. by rewrite lower_app.
Qed.

Lemma collapse_lower (s : string) : collapse (lower s) = collapse s.
Proof.
  rewrite !collapse_eq. unfold split.
  change (split_from "" (lower s)) with (split_from (lower "") (lower s)).
  rewrite (split_from_lower s ""), List.map_map.
  f_equal. apply List.map_ext. intros w. apply lower_idem.
Qed.

Lemma clean_media_name_lower (x : string) :
  clean_media_name (lower x) = clean_media_name x.
Proof.
  unfold clean_media_name.
  by rewrite strip_tokens_lower, separators_to_spaces_lower, collapse_lower.
Qed.

(** The key does not depend on letter case.  Two names that are equal
    once lower-cased have the same key: every pattern is applied without
    regard to case, and the key is lower-cased at the end. *)
Theorem key_ignores_letter_case (x y : string) :
  lower x = lower y -> clean_media_name x = clean_media_name y.
Proof.
  intros H. by rewrite <- (clean_media_name_lower x), H, clean_media_name_lower.
Qed.

Lemma key_ignores_letter_case_applies :
  clean_media_name "The.MOVIE.2160P.BluRay-GRP" = clean_media_name "the.movie.2160p.bluray-grp".
Proof.
  apply (key_ignores_letter_case "The.MOVIE.2160P.BluRay-GRP" "the.movie.2160p.bluray-grp").
  vm_compute. reflexivity.
Defined.

Lemma all_chars_app (p : ascii -> bool) (a b : string) :
  all_chars p (a ++ b) = all_chars p a && all_chars p b.
Proof.
  induction a as [|c a IH]; [done|].
  rewrite append_cons. cbn [all_chars]. by rewrite IH, andb_assoc.
Qed.

Lemma all_chars_split_from (p : ascii -> bool) (s w : string) :
  all_chars p w = true -> all_chars p s = true ->
  List.Forall (fun x => all_chars p x = true) (split_from w s).
Proof.
  revert w. induction s as [|c s IH]; intros w Hw Hs; cbn [split_from].
  - destruct (is_empty w); by repeat constructor.
  - cbn [all_chars] in Hs. apply andb_true_iff in Hs as [Hc Hs].
    destruct (is_space c).
    + destruct (is_empty w); [by apply IH|]. constructor; [done|by apply IH].
    + apply IH; [|done]. rewrite all_chars_app, Hw. cbn [all_chars]. by rewrite Hc.
Qed.

Lemma all_chars_join (p : ascii -> bool) (l : list string) :
  p " "%char = true -> List.Forall (fun x => all_chars p x = true) l ->
  all_chars p (join " " l) = true.
Proof.
  intros Hp H. induction H as [|w l Hw Hl IH]; [done|].
  destruct l as [|w2 l]; [done|].
  change (join " " (w :: w2 :: l)) with (w ++ " " ++ join " " (w2 :: l)).
  rewrite !all_chars_app, Hw, IH. cbn [all_chars]. by rewrite Hp.
Qed.

Lemma all_chars_lower (p : ascii -> bool) (s : string) :
  (forall c, p (lower_char c) = p c) -> all_chars p (lower s) = all_chars p s.
Proof.
  intros Hp. induction s as [|c s IH]; [done|].
  cbn [lower smap all_chars]. change (smap lower_char s) with (lower s).
  by rewrite Hp, IH.
Qed.

Lemma separators_to_spaces_clear (s : string) :
  no_separator (separators_to_spaces s) = true.
Proof.
  unfold no_separator, separators_to_spaces. induction s as [|c s IH]; [done|].
  cbn [smap all_chars]. rewrite IH, andb_true_r.
  by destruct (is_separator c) eqn:E; [|rewrite E].
Qed.

(** Every key is in canonical form.  Whatever the name, its key is in
    lower case, holds none of the separators [.], [_] and [-], and is
    made of words joined by single blanks: it has no white space at
    either end and no white space other than one blank between two
    words. *)
Theorem key_is_canonical (x : string) :
  lower (clean_media_name x) = clean_media_name x
  /\ no_separator (clean_media_name x) = true
  /\ join " " (split (clean_media_name x)) = clean_media_name x
  /\ strip (clean_media_name x) = clean_media_name x.
Proof.
  unfold clean_media_name.
  set (s := separators_to_spaces (strip_tokens x)).
  assert (Ht : List.Forall (fun w => is_token w = true) (List.map lower (split s)))
    by (apply lower_tokens; by apply split_from_tokens).
  rewrite collapse_eq. split; [|split; [|split]].
  - rewrite lower_join, List.map_map. f_equal.
    apply List.map_ext. intros w. apply lower_idem.
  - unfold no_separator. apply all_chars_join; [done|].
    apply List.Forall_map.
    pose proof (all_chars_split_from (fun c => negb (is_separator c)) s "") as H.
    eapply List.Forall_impl; [|apply H; [done|apply separators_to_spaces_clear]].
    intros w Hw. cbn beta. rewrite all_chars_lower; [done|].
    intros c. by rewrite lower_char_separator.
  - by rewrite split_join.
  - by apply strip_join.
Qed.

End KeyFacts.

(** ** The folder index *)

Module ScannerFacts.
Import Py Grouper Scanner ScannerNotions.

Lemma files_of_dict_append (k v name : string) (m : folder_index) :
  files_of (dict_append k v m) name
  = if String.eqb k name then List.app (files_of m name) [v] else files_of m name.
Proof.
  induction m as [|[k' vs] m IH]; cbn [dict_append files_of].
  - by destruct (String.eqb k name).
  - destruct (String.eqb k' k) eqn:E; cbn [files_of].
    + apply String.eqb_eq in E as ->. by destruct (String.eqb k name).
    + destruct (String.eqb k' name) eqn:E2; [|exact IH].
      apply String.eqb_eq in E2 as ->.
      rewrite String.eqb_sym in E. by rewrite E.
Qed.

Lemma keys_dict_append (k v : string) (m : folder_index) :
  (List.In k (List.map fst m) /\ List.map fst (dict_append k v m) = List.map fst m)
  \/ (~ List.In k (List.map fst m)
      /\ List.map fst (dict_append k v m) = List.app (List.map fst m) [k]).
Proof.
  induction m as [|[k' vs] m IH]; [right; split; [intros []|done]|].
  cbn [dict_append]. destruct (String.eqb k' k) eqn:E.
  - apply String.eqb_eq in E as ->. left. split; [by left|done].
  - apply String.eqb_neq in E. cbn [List.map fst].
    destruct IH as [[Hin ->]|[Hn ->]].
    + left. split; [by right|done].
    + right. split; [|done]. by intros [?|?].
Qed.

Lemma dict_append_keys_ok (k v : string) (m : folder_index) :
  k <> "" -> keys_ok m -> keys_ok (dict_append k v m).
Proof.
  intros Hk [Hnd Hne]. unfold keys_ok.
  destruct (keys_dict_append k v m) as [[Hin ->]|[Hn ->]]; [done|]. split.
  - apply List.NoDup_app; [done| |].
    + constructor; [intros []|constructor].
    + intros x Hx [<-|[]]. done.
  - intros H. apply List.in_app_iff in H as [H|[H|[]]]; [done|]. by apply Hk.
Qed.

Lemma is_empty_false_ne (s : string) : is_empty s = false -> s <> "".
Proof. by destruct s. Qed.

Lemma scan_entry_keys_ok (check : bool) (m : folder_index) (e : entry) :
  keys_ok m -> keys_ok (scan_entry check m e).
Proof.
  intros H. unfold scan_entry.
  destruct (is_file e && is_video_file (path e)); [|done].
  destruct (negb check || readable e); [|done]. cbn zeta.
  destruct (is_empty (get_parent_folder_name (path e))) eqn:E1;
    destruct (is_empty (get_grandparent_folder_name (path e))) eqn:E2;
    auto using dict_append_keys_ok, is_empty_false_ne.
Qed.

Lemma scan_entry_files (check : bool) (m : folder_index) (e : entry) (name : string) :
  name <> "" ->
  files_of (scan_entry check m e) name
  = List.app (files_of m name) (listed_under check name e).
Proof.
  intros Hn. unfold scan_entry, listed_under, indexed.
  destruct (is_file e && is_video_file (path e)); cbn [andb];
    [|by rewrite List.app_nil_r].
  destruct (negb check || readable e); [|by rewrite List.app_nil_r]. cbn zeta.
  assert (Hempty : forall k, is_empty k = true -> String.eqb k name = false).
  { intros k Hk. destruct k; [|done]. apply String.eqb_neq. congruence. }
  destruct (is_empty (get_parent_folder_name (path e))) eqn:E1;
    destruct (is_empty (get_grandparent_folder_name (path e))) eqn:E2;
    rewrite ?files_of_dict_append, ?(Hempty _ E1), ?(Hempty _ E2);
    repeat match goal with |- context [String.eqb ?a name] =>
             destruct (String.eqb a name) end;
    cbn [List.app]; by rewrite ?List.app_nil_r, <- ?List.app_assoc.
Qed.

Lemma scan_from (check : bool) (entries : list entry) (m : folder_index) (name : string) :
  name <> "" -> keys_ok m ->
  files_of (List.fold_left (scan_entry check) entries m) name
  = List.app (files_of m name) (List.flat_map (listed_under check name) entries)
  /\ keys_ok (List.fold_left (scan_entry check) entries m).
Proof.
  intros Hn. revert m. induction entries as [|e entries IH]; intros m Hm.
  - cbn. by rewrite List.app_nil_r.
  - cbn [List.fold_left List.flat_map].
    destruct (IH (scan_entry check m e)) as [-> Hk]; [by apply scan_entry_keys_ok|].
    split; [|done]. by rewrite scan_entry_files, List.app_assoc.
Qed.

Lemma files_of_absent (m : folder_index) (name : string) :
  ~ List.In name (List.map fst m) -> files_of m name = [].
Proof.
  induction m as [|[k vs] m IH]; [done|]. cbn [List.map fst files_of]. intros H.
  destruct (String.eqb k name) eqn:E.
  - apply String.eqb_eq in E. exfalso. apply H. by left.
  - apply IH. intros Hin. apply H. by right.
Qed.

(** What the index holds, for both scanners.  The folder names of the
    index are distinct and none is empty.  The list of a folder name is
    made of the regular video files met (readable ones, in
    [find_media_dupes.py]), in the order of the walk, each listed once
    if the name is that of its parent folder and once more if it is that
    of its grandparent folder: a file is in the lists of two folders, and
    twice in one list when parent and grandparent have the same name. *)
Theorem index_lists_files_under_parent_and_grandparent
    (check_permission : bool) (entries : list entry) (name : string) :
  files_of (scan check_permission entries) name
  = (if is_empty name then []
     else List.flat_map (listed_under check_permission name) entries)
  /\ List.NoDup (List.map fst (scan check_permission entries))
  /\ ~ List.In "" (List.map fst (scan check_permission entries)).
Proof.
  unfold scan.
  assert (H0 : keys_ok []) by (split; [constructor|intros []]).
  destruct (scan_from check_permission entries [] "x" ltac:(done) H0) as [_ [Hnd Hne]].
  split; [|by split]. destruct name as [|c name]; cbn [is_empty].
  - by apply files_of_absent.
  - by destruct (scan_from check_permission entries [] (String c name) ltac:(done) H0)
      as [-> _].
Qed.

End ScannerFacts.

(** ** The unit [format_size] chooses *)

Module SizesFacts.
Import Py Sizes.

Lemma Qlt_bool_div (x c : Q) :
  Qlt_bool (x / 1024) c = Qlt_bool x (c * 1024).
Proof.
  unfold Qlt_bool. f_equal. destruct x as [xn xd], c as [cn cd].
  unfold Qle_bool, Qdiv, Qmult, Qinv. cbn [Qnum Qden].
  apply Bool.eq_iff_eq_true. rewrite !Z.leb_le, !Pos2Z.inj_mul. lia.
Qed.

Lemma Qlt_bool_comp (x c d : Q) : (c == d)%Q -> Qlt_bool x c = Qlt_bool x d.
Proof.
  intros H. unfold Qlt_bool. f_equal.
  apply Bool.eq_iff_eq_true. rewrite !Qle_bool_iff. by rewrite H.
Qed.

Section Formatting.

Variable fmt2 : Q -> string.

(** The unit and the number [format_size] prints, by the magnitude of
    the size.  Below 1024 the size is printed in B, below 1024^2 in KB,
    below 1024^3 in MB, below 1024^4 in GB and below 1024^5 in TB, each
    time divided by 1024 once per step.  From 1024^5 bytes on the size is
    divided five times, and is still labelled TB: the number printed is
    the size in units of 1024 TB. *)
Theorem format_size_by_magnitude (size_bytes : Q) :
  format_size fmt2 size_bytes
  = if Qlt_bool size_bytes 1024 then fmt2 size_bytes ++ " B"
    else if Qlt_bool size_bytes 1048576 then fmt2 (size_bytes / 1024) ++ " KB"
    else if Qlt_bool size_bytes 1073741824
         then fmt2 (size_bytes / 1024 / 1024) ++ " MB"
    else if Qlt_bool size_bytes 1099511627776
         then fmt2 (size_bytes / 1024 / 1024 / 1024) ++ " GB"
    else if Qlt_bool size_bytes 1125899906842624
         then fmt2 (size_bytes / 1024 / 1024 / 1024 / 1024) ++ " TB"
    else fmt2 (size_bytes / 1024 / 1024 / 1024 / 1024 / 1024) ++ " TB".
Proof.
  unfold format_size. cbn [format_units].
  rewrite !Qlt_bool_div.
  rewrite (Qlt_bool_comp size_bytes (1024 * 1024) 1048576) by reflexivity.
  rewrite (Qlt_bool_comp size_bytes (1024 * 1024 * 1024) 1073741824) by reflexivity.
  rewrite (Qlt_bool_comp size_bytes (1024 * 1024 * 1024 * 1024) 1099511627776)
    by reflexivity.
  rewrite (Qlt_bool_comp size_bytes (1024 * 1024 * 1024 * 1024 * 1024)
             1125899906842624) by reflexivity.
  reflexivity.
Qed.

End Formatting.

End SizesFacts.

(** ** The quick finder *)

Module QuickFacts.
Import Py Grouper Scanner Quick QuickNotions ScannerFacts Samples.

Lemma search_spec (server_name : string) (catalog : list (string * string))
    (folder_paths : list string) (found : option string * option string) :
  search server_name catalog folder_paths found = found
  \/ exists path,
       search server_name catalog folder_paths found = (Some path, Some server_name)
       /\ List.In path (List.map snd catalog)
       /\ existsb (fun folder_path => touches folder_path path) folder_paths = true.
Proof.
  revert found. induction catalog as [|[t path] catalog IH]; intros found; [by left|].
  cbn [search List.map snd].
  destruct (existsb (fun folder_path => touches folder_path path) folder_paths) eqn:E.
  - right. cbn [fst]. destruct (truthy (Some path)).
    + exists path. split; [done|]. split; [by left|done].
    + destruct (IH (Some path, Some server_name)) as [->|(p & -> & Hin & Hp)].
      * exists path. split; [done|]. split; [by left|done].
      * exists p. split; [done|]. split; [by right|done].
  - destruct (truthy (fst found)); [by left|].
    destruct (IH found) as [->|(p & -> & Hin & Hp)]; [by left|].
    right. exists p. split; [done|]. split; [by right|done].
Qed.

Lemma locate_spec (self : manager) (folder_paths : list string) :
  locate self folder_paths = (None, None)
  \/ exists path server_name,
       locate self folder_paths = (Some path, Some server_name)
       /\ (List.In path (List.map snd (sonarr_series_paths self))
           \/ List.In path (List.map snd (radarr_movie_paths self)))
       /\ existsb (fun folder_path => touches folder_path path) folder_paths = true.
Proof.
  unfold locate.
  destruct (search_spec "Sonarr" (sonarr_series_paths self) folder_paths (None, None))
    as [->|(p & -> & Hin & Hp)].
  - cbn [fst truthy].
    destruct (search_spec "Radarr" (radarr_movie_paths self) folder_paths (None, None))
      as [->|(p & -> & Hin & Hp)]; [by left|].
    right. exists p, "Radarr". split; [done|]. split; [by right|done].
  - right. cbn [fst]. destruct (truthy (Some p)).
    + exists p, "Sonarr". split; [done|]. split; [by left|done].
    + destruct (search_spec "Radarr" (radarr_movie_paths self) folder_paths
                  (Some p, Some "Sonarr")) as [->|(q & -> & Hq & Hq')].
      * exists p, "Sonarr". split; [done|]. split; [by left|done].
      * exists q, "Radarr". split; [done|]. split; [by right|done].
Qed.

Lemma filter_length_lt {A : Type} (f : A -> bool) (l : list A) (x : A) :
  List.In x l -> f x = false -> (length (List.filter f l) < length l)%nat.
Proof.
  intros Hin Hx. induction l as [|a l IH]; [done|].
  pose proof (List.filter_length_le f l) as Hle.
  cbn [List.filter]. destruct Hin as [->|Hin].
  - rewrite Hx. cbn [length]. lia.
  - specialize (IH Hin). destruct (f a); cbn [length]; lia.
Qed.

Lemma entry_for_ok (self : manager) (it : string * list string) :
  duplicate_paths (entry_for self it) <> [] -> entry_ok self (entry_for self it).
Proof.
  intros Hne. unfold entry_ok. split; [done|].
  unfold entry_for in *. cbn [duplicate_paths all_paths official_path] in *.
  destruct (locate_spec self (snd it)) as [->|(path & sv & -> & Hin & Hp)];
    cbn [fst] in *; [by split|].
  destruct (is_empty path) eqn:Ee; [by split|].
  split; [|split; [done|split]].
  - intros p Hp'. by apply List.filter_In in Hp' as [? _].
  - intros p Hp'. apply List.filter_In in Hp' as [_ Hf].
    apply negb_true_iff in Hf. by apply orb_false_elim in Hf.
  - apply List.existsb_exists in Hp as (fp & Hfp & Ht).
    apply (filter_length_lt _ _ fp Hfp). unfold touches in Ht. by rewrite Ht.
Qed.

Lemma determine_fold (self : manager) (duplicate_folders : folder_index)
    (dups : list duplicate_info) :
  exists new,
    List.fold_left (add_entry self) duplicate_folders dups = List.app dups new
    /\ List.Forall
         (fun d => entry_ok self d
                   /\ List.In (folder_name d, all_paths d) duplicate_folders) new.
Proof.
  revert dups. induction duplicate_folders as [|it l IH]; intros dups.
  - exists []. split; [by rewrite List.app_nil_r|constructor].
  - cbn [List.fold_left]. unfold add_entry at 2.
    destruct (duplicate_paths (entry_for self it)) as [|p ps] eqn:E.
    + destruct (IH dups) as (new & -> & Hnew). exists new. split; [done|].
      eapply List.Forall_impl; [|exact Hnew]. intros d [? ?]. split; [done|by right].
    + destruct (IH (List.app dups [entry_for self it])) as (new & -> & Hnew).
      exists (entry_for self it :: new). split; [by rewrite <- List.app_assoc|].
      constructor.
      * split; [apply entry_for_ok; by rewrite E|]. left. by destruct it.
      * eapply List.Forall_impl; [|exact Hnew]. intros d [? ?]. split; [done|by right].
Qed.

(** What the quick report lists.  [determine_official_paths] keeps the
    entries it had and adds entries for folders it was given.  Each
    added entry has at least one duplicate path, and its duplicate paths
    are paths of the folder.  When an official path was found, it is a
    path of one of the two catalogs, no duplicate path contains it or is
    contained in it, and at least one path of the folder is left out of
    the duplicate paths; when none was found, every path of the folder
    is listed as a duplicate. *)
Theorem quick_entries_leave_out_the_official_path
    (self : manager) (duplicate_folders : folder_index) :
  exists new,
    determine_official_paths self duplicate_folders = List.app (duplicates self) new
    /\ List.Forall
         (fun d =>
            List.In (folder_name d, all_paths d) duplicate_folders
            /\ duplicate_paths d <> []
            /\ (forall p, List.In p (duplicate_paths d) -> List.In p (all_paths d))
            /\ match official_path d with
               | Some official =>
                   if is_empty official then duplicate_paths d = all_paths d
                   else
                     (List.In official (List.map snd (sonarr_series_paths self))
                      \/ List.In official (List.map snd (radarr_movie_paths self)))
                     /\ (forall p, List.In p (duplicate_paths d) ->
                           contains official p = false /\ contains p official = false)
                     /\ (length (duplicate_paths d) < length (all_paths d))%nat
               | None => duplicate_paths d = all_paths d
               end)
         new.
Proof.
  destruct (determine_fold self duplicate_folders (duplicates self))
    as (new & H & Hnew).
  exists new. split; [exact H|].
  eapply List.Forall_impl; [|exact Hnew].
  intros d [(H1 & H2 & H3) H4]. by repeat split.
Qed.

Lemma search_first_match (server_name : string) (catalog : list (string * string))
    (folder_paths : list string) (found : option string * option string) :
  List.Forall (fun it => snd it <> "") catalog ->
  truthy (fst found) = false ->
  search server_name catalog folder_paths found
  = match List.find (matches folder_paths) catalog with
    | Some it => (Some (snd it), Some server_name)
    | None => found
    end.
Proof.
  intros H Hf. induction H as [|[t path] catalog Hp Hc IH]; [done|].
  cbn [search List.find]. unfold matches at 1. cbn [snd] in *.
  destruct (existsb (fun folder_path => touches folder_path path) folder_paths).
  - cbn [fst truthy]. by destruct path.
  - by rewrite Hf.
Qed.

(** Which path is official.  When no path of the two catalogs is empty
    (the loaders store none), the official path of a folder is the first
    path of the Sonarr catalog that contains one of the folder's paths or
    is contained in one, and the server is Sonarr; without such a path,
    it is the first such path of the Radarr catalog; without one there
    either, there is no official path and no server. *)
Theorem official_path_is_first_match (self : manager) (folder_paths : list string) :
  List.Forall (fun it => snd it <> "") (sonarr_series_paths self) ->
  List.Forall (fun it => snd it <> "") (radarr_movie_paths self) ->
  locate self folder_paths
  = match List.find (matches folder_paths) (sonarr_series_paths self) with
    | Some it => (Some (snd it), Some "Sonarr")
    | None =>
        match List.find (matches folder_paths) (radarr_movie_paths self) with
        | Some it => (Some (snd it), Some "Radarr")
        | None => (None, None)
        end
    end.
Proof.
  intros Hs Hr. unfold locate.
  rewrite (search_first_match _ _ _ _ Hs) by done.
  destruct (List.find (matches folder_paths) (sonarr_series_paths self)) as [[t p]|] eqn:E.
  - apply List.find_some in E as [Hin _].
    rewrite List.Forall_forall in Hs. specialize (Hs _ Hin). cbn [fst snd truthy] in *.
    by destruct p.
  - cbn [fst truthy]. by rewrite (search_first_match _ _ _ _ Hr).
Qed.

Lemma official_path_is_first_match_applies :
  locate quick_manager ["/backup/Heat (1995)"; "/library/movies/Heat (1995)"]
  = (Some "/library/movies/Heat (1995)", Some "Radarr").
Proof.
  apply (official_path_is_first_match quick_manager
           ["/backup/Heat (1995)"; "/library/movies/Heat (1995)"]).
  - repeat constructor; discriminate.
  - repeat constructor; discriminate.
Defined.

Lemma files_of_scan_item (root name : string) (its : list (string * bool))
    (m : folder_index) :
  files_of (List.fold_left (scan_item root) its m) name
  = List.app (files_of m name)
      (List.flat_map
         (fun it => if snd it && String.eqb (fst it) name
                    then [path_join root (fst it)] else [])
         its).
Proof.
  revert m. induction its as [|[item isdir] its IH]; intros m.
  - cbn. by rewrite List.app_nil_r.
  - cbn [List.fold_left List.flat_map]. rewrite IH. unfold scan_item.
    cbn [fst snd]. destruct isdir; cbn [andb]; [|done].
    rewrite files_of_dict_append.
    destruct (String.eqb item name); [|done]. by rewrite <- List.app_assoc.
Qed.

Lemma files_of_media_folder_map (directories : list directory) (name : string)
    (m : folder_index) :
  files_of
    (List.fold_left
       (fun folder_map d => List.fold_left (scan_item (root_path d)) (items d) folder_map)
       directories m) name
  = List.app (files_of m name) (occurrences directories name).
Proof.
  revert m. induction directories as [|d ds IH]; intros m.
  - cbn. by rewrite List.app_nil_r.
  - cbn [List.fold_left]. rewrite IH, files_of_scan_item.
    unfold occurrences. cbn [List.flat_map]. by rewrite <- List.app_assoc.
Qed.

Lemma dict_append_NoDup (k v : string) (m : folder_index) :
  List.NoDup (List.map fst m) -> List.NoDup (List.map fst (dict_append k v m)).
Proof.
  intros Hnd. destruct (keys_dict_append k v m) as [[Hin ->]|[Hn ->]]; [done|].
  apply List.NoDup_app; [done| |].
  - constructor; [intros []|constructor].
  - intros x Hx [<-|[]]. done.
Qed.

Lemma scan_item_NoDup (root : string) (its : list (string * bool)) (m : folder_index) :
  List.NoDup (List.map fst m) ->
  List.NoDup (List.map fst (List.fold_left (scan_item root) its m)).
Proof.
  revert m. induction its as [|it its IH]; intros m H; [done|].
  cbn [List.fold_left]. apply IH. unfold scan_item.
  destruct (snd it); [by apply dict_append_NoDup|done].
Qed.

Lemma media_folder_map_NoDup (directories : list directory) :
  List.NoDup (List.map fst (media_folder_map directories)).
Proof.
  unfold media_folder_map.
  assert (H : List.NoDup (List.map fst ([] : folder_index))) by constructor.
  revert H. generalize ([] : folder_index).
  induction directories as [|d ds IH]; intros m H; [done|].
  cbn [List.fold_left]. by apply IH, scan_item_NoDup.
Qed.

Lemma filter_keys (f : string * list string -> bool) (m : folder_index) (x : string) :
  List.In x (List.map fst (List.filter f m)) -> List.In x (List.map fst m).
Proof.
  intros H. apply List.in_map_iff in H as (it & <- & Hit).
  apply List.filter_In in Hit as [Hit _]. apply List.in_map_iff. by exists it.
Qed.

Lemma filter_NoDup (f : string * list string -> bool) (m : folder_index) :
  List.NoDup (List.map fst m) -> List.NoDup (List.map fst (List.filter f m)).
Proof.
  induction m as [|[k vs] m IH]; [done|]. cbn [List.map fst List.filter].
  intros H. apply List.NoDup_cons_iff in H as [Hk Hnd].
  destruct (f (k, vs)); [|by apply IH].
  cbn [List.map fst]. constructor; [|by apply IH].
  intros Hin. by apply filter_keys in Hin.
Qed.

Lemma files_of_met_twice (m : folder_index) (name : string) :
  List.NoDup (List.map fst m) ->
  files_of (List.filter (fun it => (1 <? length (snd it))%nat) m) name
  = if (1 <? length (files_of m name))%nat then files_of m name else [].
Proof.
  induction m as [|[k vs] m IH]; [done|]. cbn [List.map fst List.filter files_of snd].
  intros H. apply List.NoDup_cons_iff in H as [Hk Hnd].
  destruct (String.eqb k name) eqn:E.
  - apply String.eqb_eq in E as ->.
    destruct (1 <? length vs)%nat; cbn [files_of].
    + by rewrite String.eqb_refl.
    + apply files_of_absent. intros Hin. by apply filter_keys in Hin.
  - destruct (1 <? length vs)%nat; cbn [files_of]; rewrite ?E; by apply IH.
Qed.

(** What the quick scan reports.  The folder names reported are
    distinct, and the paths reported for a name are the paths of all the
    subdirectories of that name met in the directories scanned, in
    order, when there are at least two of them, and none otherwise: a
    directory that is given twice makes each of its folders a duplicate
    of itself. *)
Theorem quick_scan_reports_names_met_twice
    (directories : list directory) (name : string) :
  files_of (scan_directories directories) name
  = (if (1 <? length (occurrences directories name))%nat
     then occurrences directories name else [])
  /\ List.NoDup (List.map fst (scan_directories directories)).
Proof.
  unfold scan_directories. split.
  - rewrite files_of_met_twice by apply media_folder_map_NoDup.
    unfold media_folder_map. by rewrite files_of_media_folder_map.
  - apply filter_NoDup, media_folder_map_NoDup.
Qed.

End QuickFacts.

(** ** From a report to the cleanup script *)

Module PipelineFacts.
Import Py Cleanup ParserNotions ReportShape PipelineNotions ParserFacts ParserMore
  PlannerFacts.

Section Planner.

Variable py_float : string -> option Q.
Variable normalize_path : string -> string.
Variable sonarr_paths radarr_paths : gmap string string.

Lemma group_script_no_files (i : nat) (g : group) :
  no_files g ->
  group_script py_float normalize_path sonarr_paths radarr_paths i g
  = (review_block i g, Ok tt).
Proof.
  destruct g as [bf b sf sm]. intros [Hb Hs]. cbn in Hb, Hs. subst b sm.
  reflexivity.
Qed.

Lemma script_groups_no_files (gs : list group) (i : nat) :
  List.Forall no_files gs ->
  script_groups py_float normalize_path sonarr_paths radarr_paths i gs
  = (List.concat
       (List.map (fun ig => review_block (fst ig) (snd ig)) (numbered i gs)),
     Ok tt).
Proof.
  intros H. revert i. induction H as [|g gs Hg Hgs IH]; intros i; [done|].
  cbn [script_groups]. rewrite (group_script_no_files i g Hg), (IH (S i)).
  reflexivity.
Qed.

Lemma decision_no_files (g : group) :
  no_files g ->
  decision py_float normalize_path sonarr_paths radarr_paths g
  = ([manual_review_comment; none_managed_comment], Ok tt).
Proof.
  destruct g as [bf b sf sm]. intros [Hb Hs]. cbn in Hb, Hs. subst b sm.
  reflexivity.
Qed.

End Planner.

(** From any report to its cleanup script.  Whatever the report file,
    the tables of the two servers and the reading of numbers:
    [parse_report] either raises [TypeError], or returns groups from
    which [create_cleanup_script] ends normally and writes the preamble
    followed, for each group in order, by the same block: the group's
    number and base folder, two empty file lists, the manual-review
    comment and the line saying that no version is managed.  The script
    holds no removal command. *)
Theorem cleanup_of_any_report_is_manual_review
    (py_float : string -> option Q) (normalize_path : string -> string)
    (sonarr_paths radarr_paths : gmap string string) (lines : list string) :
  match parse_report lines with
  | Ok gs =>
      create_cleanup_script py_float normalize_path sonarr_paths radarr_paths gs
      = (List.app preamble
           (List.concat
              (List.map (fun ig => review_block (fst ig) (snd ig)) (numbered 1 gs))),
         Ok tt)
      /\ removals
           (fst (create_cleanup_script py_float normalize_path sonarr_paths
                   radarr_paths gs))
         = []
  | Raise e => e = TypeError
  end.
Proof.
  pose proof (parse_lines_before_groups lines) as Hp.
  destruct (parse_report lines) as [gs|e] eqn:E.
  - pose proof (parse_report_records_no_file lines gs E) as Hn.
    unfold create_cleanup_script.
    split.
    + by rewrite (script_groups_no_files py_float normalize_path sonarr_paths
                    radarr_paths gs 1 Hn).
    + destruct (script_groups py_float normalize_path sonarr_paths radarr_paths 1 gs)
        as [out r] eqn:Es.
      cbn [fst]. rewrite removals_app.
      assert (removals preamble = []) as -> by (vm_compute; reflexivity).
      pose proof (ScriptFacts.removals_script_groups py_float normalize_path
                    sonarr_paths radarr_paths gs 1) as Hr.
      rewrite Es in Hr. cbn [fst] in Hr. apply Hr.
      eapply List.Forall_impl; [|exact Hn].
      intros g Hg. rewrite (decision_no_files _ _ _ _ g Hg).
      vm_compute. reflexivity.
  - unfold parse_report in E. destruct (orphan_similar lines).
    + rewrite Hp in E. by injection E as <-.
    + destruct Hp as (st & Hst & _). by rewrite Hst in E.
Qed.

End PipelineFacts.

(** ** The report of the finder, read by the cleanup script *)

Module RoundTripFacts.
Import Py PyFacts Tokens Report FinderReport Cleanup ReportShape RoundTripNotions
  ParserMore KeyFacts.

Lemma text_of_app (a b : list string) :
  text_of (List.app a b) = text_of a ++ text_of b.
Proof.
  unfold text_of. induction a as [|x a IH]; [done|].
  cbn [List.app List.fold_right]. by rewrite IH, append_assoc.
Qed.

Lemma unlines_app (a b : list string) :
  unlines (List.app a b) = unlines a ++ unlines b.
Proof.
  unfold unlines. induction a as [|x a IH]; [done|].
  cbn [List.app List.fold_right]. by rewrite IH, !append_assoc.
Qed.

Lemma text_of_flat_map {A : Type} (f : A -> list string) (g : A -> list string)
    (l : list A) :
  (forall x, text_of (f x) = unlines (g x)) ->
  text_of (List.flat_map f l) = unlines (List.flat_map g l).
Proof.
  intros H. induction l as [|x l IH]; [done|].
  cbn [List.flat_map]. by rewrite text_of_app, unlines_app, H, IH.
Qed.

Section Writing.

Variable size_text : string -> option string.
Variable fmt2 : Q -> string.

Lemma file_line_text (file : string) :
  file_line size_text file = closed (file_text size_text file).
Proof.
  unfold file_line, file_text, closed. destruct (size_text file);
    by rewrite !append_assoc.
Qed.

Lemma text_of_files (files : list string) :
  text_of (List.map (file_line size_text) files)
  = unlines (List.map (file_text size_text) files).
Proof.
  induction files as [|f files IH]; [done|].
  cbn [List.map]. change (text_of (?x :: ?l)) with (x ++ text_of l).
  change (unlines (?x :: ?l)) with (x ++ newline ++ unlines l).
  by rewrite IH, file_line_text, <- append_assoc.
Qed.

Lemma text_of_similar (pairs : list (string * Q)) :
  text_of (List.map (fun fs => similar_line fmt2 (fst fs) (snd fs)) pairs)
  = unlines (List.flat_map (fun fs => [""; similar_text fmt2 fs]) pairs).
Proof.
  induction pairs as [|fs pairs IH]; [done|].
  cbn [List.map List.flat_map List.app].
  change (text_of (?x :: ?l)) with (x ++ text_of l).
  change (unlines (?x :: ?y :: ?l)) with (x ++ newline ++ y ++ newline ++ unlines l).
  rewrite IH. unfold similar_line, similar_text.
  by rewrite !append_assoc.
Qed.

Lemma text_of_group (g : Grouper.group) :
  text_of (write_group size_text fmt2 g) = unlines (group_lines size_text fmt2 g).
Proof.
  unfold write_group, group_lines, group_tail, group_heading.
  rewrite !text_of_app, text_of_files, text_of_similar.
  change (unlines (?a :: ?b :: ?c :: ?d :: ?l))
    with (a ++ newline ++ b ++ newline ++ c ++ newline ++ d ++ newline ++ unlines l).
  rewrite !unlines_app.
  change (text_of [?a; ?b; ?c]) with (a ++ b ++ c ++ "").
  change (text_of [newline]) with (newline ++ "").
  change (unlines [""]) with ("" ++ newline ++ "").
  fold (similar_pairs g).
  by rewrite !append_assoc, !append_nil_l, ?append_nil_r.
Qed.

(** The file holds the lines of the report. *)
Lemma text_of_main_report (results : list Grouper.group) :
  text_of (main_report size_text fmt2 results)
  = unlines (report_lines size_text fmt2 results).
Proof.
  unfold main_report, report_lines.
  change (text_of (?x :: ?l)) with (x ++ text_of l).
  change (unlines (?a :: ?b :: ?l)) with (a ++ newline ++ b ++ newline ++ unlines l).
  rewrite !append_assoc, append_nil_l.
  destruct results as [|g gs]; [vm_compute; reflexivity|].
  do 3 f_equal. apply text_of_flat_map, text_of_group.
Qed.

End Writing.

Lemma readlines_from_line (l cur rest : string) :
  one_line l = true ->
  readlines_from cur (l ++ newline ++ rest)
  = (cur ++ closed l) :: readlines_from "" rest.
Proof.
  revert cur. induction l as [|c l IH]; intros cur H.
  - reflexivity.
  - unfold one_line in H. cbn [all_chars] in H.
    apply andb_true_iff in H as [Hc Hl]. apply negb_true_iff in Hc.
    apply orb_false_elim in Hc as [Hlf Hcr].
    rewrite append_cons. cbn [readlines_from]. rewrite Hlf, Hcr.
    rewrite (IH _ Hl). unfold closed. by rewrite !append_assoc.
Qed.

(** Lines without a line end in them are read back one by one. *)
Lemma readlines_unlines (ls : list string) :
  List.Forall (fun l => one_line l = true) ls ->
  readlines (unlines ls) = List.map closed ls.
Proof.
  unfold readlines. intros H. induction H as [|l ls Hl Hls IH]; [done|].
  change (unlines (l :: ls)) with (l ++ newline ++ unlines ls).
  cbn [List.map]. rewrite (readlines_from_line l "" _ Hl). by rewrite IH.
Qed.

(** *** How the parser classifies the lines of the report *)

Lemma rstrip_keeps_prefix (p : string) (c : ascii) (rest : string) :
  is_space c = false ->
  exists t, rstrip_by is_space (p ++ String c rest) = p ++ String c t.
Proof.
  intros Hc. induction p as [|a p [t IH]].
  - exists (rstrip_by is_space rest). rewrite append_nil_l.
    by apply rstrip_by_keeps_head.
  - exists t. rewrite !append_cons. cbn [rstrip_by]. rewrite IH.
    by destruct p.
Qed.

Lemma strip_keeps_prefix (a c : ascii) (p rest : string) :
  is_space a = false -> is_space c = false ->
  exists t, strip (String a p ++ String c rest) = String a p ++ String c t.
Proof.
  intros Ha Hc. unfold strip. rewrite append_cons. cbn [lstrip_by]. rewrite Ha.
  rewrite <- append_cons. by apply rstrip_keeps_prefix.
Qed.

Lemma base_line_kind (name : string) :
  is_heading (closed ("Base Folder: " ++ name)) = false
  /\ is_base_line (closed ("Base Folder: " ++ name)) = true.
Proof.
  destruct (strip_keeps_prefix "B" ":" "ase Folder" (String " " (name ++ newline)))
    as [t Ht]; [done|done|].
  assert (H : strip (closed ("Base Folder: " ++ name)) = "Base Folder:" ++ t)
    by exact Ht.
  unfold is_heading, is_base_line. rewrite H. split.
  - rewrite append_cons. unfold startswith. by rewrite prefix_head_ne.
  - apply prefix_append.
Qed.

Section Writing.

Variable size_text : string -> option string.
Variable fmt2 : Q -> string.

Lemma similar_line_kind (fs : string * Q) :
  is_heading (closed (similar_text fmt2 fs)) = false
  /\ is_base_line (closed (similar_text fmt2 fs)) = false
  /\ is_similar_line (closed (similar_text fmt2 fs)) = true.
Proof.
  destruct (strip_keeps_prefix "S" "r" "imilar Folde"
              (" (similarity: " ++ (fmt2 (snd fs) ++ "): " ++ fst fs) ++ newline))
    as [t Ht]; [done|done|].
  assert (H : strip (closed (similar_text fmt2 fs)) = "Similar Folder" ++ t).
  { transitivity ("Similar Folde" ++ String "r" t); [|reflexivity].
    rewrite <- Ht. reflexivity. }
  unfold is_heading, is_base_line, is_similar_line. rewrite H.
  split; [|split].
  - rewrite append_cons. unfold startswith. by rewrite prefix_head_ne.
  - rewrite append_cons. unfold startswith. by rewrite prefix_head_ne.
  - apply prefix_append.
Qed.

Lemma strip_indented (x : string) :
  strip (String " " (String " " (String "/" x)))
  = String "/" (rstrip_by is_space x).
Proof. unfold strip. by apply rstrip_by_keeps_head. Qed.

Lemma file_line_inert (file : string) :
  startswith file "/" = true -> inert (closed (file_text size_text file)).
Proof.
  intros H. apply startswith_head in H as [rest ->].
  assert (Hx : exists x, closed (file_text size_text (String "/" rest))
                         = String " " (String " " (String "/" x))).
  { unfold closed, file_text. destruct (size_text _); eexists;
      rewrite !append_cons, append_nil_l, !append_cons; reflexivity. }
  destruct Hx as [x Hx]. unfold inert, is_heading, is_base_line, is_similar_line.
  rewrite Hx, strip_indented. unfold startswith.
  by rewrite !prefix_head_ne.
Qed.

End Writing.

Lemma blank_inert : inert (closed "").
Proof. by vm_compute. Qed.

Lemma files_heading_inert : inert (closed "Files:").
Proof. by vm_compute. Qed.

Lemma nothing_found_inert : inert (closed "No potential duplicates found.").
Proof. by vm_compute. Qed.

Lemma title_is_heading :
  is_heading (closed "=== Potential Duplicate Media Report ===") = true.
Proof. by vm_compute. Qed.

Lemma separator_is_heading : is_heading (closed separator) = true.
Proof. by vm_compute. Qed.

(** *** The lines hold no line end *)

Lemma one_line_app (a b : string) : one_line (a ++ b) = one_line a && one_line b.
Proof. apply all_chars_app. Qed.

Section Lines.

Variable size_text : string -> option string.
Variable fmt2 : Q -> string.
Hypothesis Hprints : prints_one_line size_text fmt2.

Lemma file_text_one_line (file : string) :
  one_line file = true -> one_line (file_text size_text file) = true.
Proof.
  intros H. unfold file_text. destruct (size_text file) as [size|] eqn:E.
  - rewrite !one_line_app, H, (proj2 Hprints _ _ E). reflexivity.
  - rewrite one_line_app, H. reflexivity.
Qed.

Lemma similar_text_one_line (fs : string * Q) :
  one_line (fst fs) = true -> one_line (similar_text fmt2 fs) = true.
Proof.
  intros H. unfold similar_text.
  rewrite !one_line_app, H, (proj1 Hprints). reflexivity.
Qed.

Lemma combine_fst_Forall {A B : Type} (P : A -> Prop) (l : list A) (l' : list B) :
  List.Forall P l -> List.Forall (fun ab => P (fst ab)) (List.combine l l').
Proof.
  intros H. revert l'. induction H as [|a l Ha Hl IH]; intros l'; [constructor|].
  destruct l' as [|b l']; [constructor|]. cbn [List.combine].
  constructor; [done|apply IH].
Qed.

Lemma group_lines_one_line (g : Grouper.group) :
  printable g ->
  List.Forall (fun l => one_line l = true) (group_lines size_text fmt2 g).
Proof.
  intros (Hb & Hs & Hf). unfold group_lines, group_tail.
  constructor; [done|]. constructor; [done|].
  constructor; [by rewrite one_line_app, Hb|]. constructor; [done|].
  apply List.Forall_app. split.
  - apply List.Forall_map. eapply List.Forall_impl; [|exact Hf].
    intros f [H _]. by apply file_text_one_line.
  - apply List.Forall_app. split; [|by constructor].
    apply List.Forall_flat_map. unfold similar_pairs.
    eapply List.Forall_impl; [|apply (combine_fst_Forall _ _ _ Hs)].
    intros fs H. constructor; [done|]. constructor; [|constructor].
    by apply similar_text_one_line.
Qed.

Lemma report_lines_one_line (results : list Grouper.group) :
  List.Forall printable results ->
  List.Forall (fun l => one_line l = true) (report_lines size_text fmt2 results).
Proof.
  intros H. unfold report_lines. constructor; [done|]. constructor; [done|].
  destruct results as [|g gs]; [by constructor|].
  apply List.Forall_flat_map. eapply List.Forall_impl; [|exact H].
  intros g'. apply group_lines_one_line.
Qed.

End Lines.

(** *** The sections of the report *)

Lemma body_app (a b : list string) :
  List.Forall (fun l => is_heading l = false) a ->
  body (List.app a b) = List.app a (body b).
Proof.
  intros H. induction H as [|l a Hl Ha IH]; [done|].
  cbn [List.app body]. by rewrite Hl, IH.
Qed.

Lemma sections_app (a b : list string) :
  List.Forall (fun l => is_heading l = false) a ->
  sections (List.app a b) = sections b.
Proof.
  intros H. induction H as [|l a Hl Ha IH]; [done|].
  cbn [List.app sections]. by rewrite Hl, IH.
Qed.

Lemma filter_none {A : Type} (f : A -> bool) (l : list A) :
  List.Forall (fun x => f x = false) l -> List.filter f l = [].
Proof.
  intros H. induction H as [|x l Hx Hl IH]; [done|].
  cbn [List.filter]. by rewrite Hx.
Qed.

Section Sections.

Variable size_text : string -> option string.
Variable fmt2 : Q -> string.

(** The lines of the similar folders: none is a heading or a base line,
    and every other one is a "Similar Folder" line. *)
Lemma similar_lines_kind (pairs : list (string * Q)) :
  let ls := List.map closed
              (List.flat_map (fun fs => [""; similar_text fmt2 fs]) pairs) in
  List.Forall (fun l => is_heading l = false) ls
  /\ List.filter is_base_line ls = []
  /\ List.filter is_similar_line ls
     = List.map (fun fs => closed (similar_text fmt2 fs)) pairs.
Proof.
  cbn zeta. induction pairs as [|fs pairs (IH1 & IH2 & IH3)]; [by repeat split|].
  destruct (similar_line_kind fmt2 fs) as (H1 & H2 & H3).
  destruct blank_inert as (B1 & B2 & B3).
  cbn [List.flat_map List.app List.map List.filter].
  rewrite B2, B3, H2, H3, IH2, IH3. split; [|done].
  by repeat constructor.
Qed.

Lemma file_lines_inert (files : list string) :
  List.Forall (fun f => one_line f = true /\ startswith f "/" = true) files ->
  List.Forall inert (List.map closed (List.map (file_text size_text) files)).
Proof.
  intros H. rewrite List.map_map. apply List.Forall_map.
  eapply List.Forall_impl; [|exact H].
  intros f [_ Hf]. by apply file_line_inert.
Qed.

Lemma inert_no_heading (ls : list string) :
  List.Forall inert ls -> List.Forall (fun l => is_heading l = false) ls.
Proof. apply List.Forall_impl. by intros l (H & _). Qed.

Lemma inert_no_base (ls : list string) :
  List.Forall inert ls -> List.filter is_base_line ls = [].
Proof.
  intros H. apply filter_none. eapply List.Forall_impl; [|exact H].
  by intros l (_ & H' & _).
Qed.

Lemma inert_no_similar (ls : list string) :
  List.Forall inert ls -> List.filter is_similar_line ls = [].
Proof.
  intros H. apply filter_none. eapply List.Forall_impl; [|exact H].
  by intros l (_ & _ & H').
Qed.

(** The lines of a group after its line of [=], as read back. *)
Lemma group_tail_kind (g : Grouper.group) (after : list string) :
  printable g -> List.Forall inert after ->
  let ls := List.app (List.map closed (group_tail size_text fmt2 g)) after in
  List.Forall (fun l => is_heading l = false) ls
  /\ group_of ls = parsed fmt2 g.
Proof.
  intros (_ & _ & Hf) Hafter. cbn zeta.
  unfold group_tail. cbn [List.map]. rewrite !List.map_app. cbn [List.map].
  destruct (base_line_kind (Grouper.base_folder g)) as [Hh Hb].
  pose proof (base_line_not_similar _ Hb) as Hs.
  destruct files_heading_inert as (F1 & F2 & F3).
  destruct blank_inert as (B1 & B2 & B3).
  pose proof (file_lines_inert _ Hf) as Hfiles.
  destruct (similar_lines_kind (similar_pairs g)) as (S1 & S2 & S3).
  cbn zeta in S1, S2, S3.
  split.
  - cbn [List.app]. constructor; [done|]. constructor; [done|].
    rewrite <- !List.app_assoc. apply List.Forall_app. split.
    { by apply inert_no_heading. }
    apply List.Forall_app. split; [done|].
    cbn [List.app]. constructor; [done|]. by apply inert_no_heading.
  - unfold group_of, extend, parsed. cbn [List.app List.filter].
    rewrite Hb, Hs, F2, F3. rewrite <- !List.app_assoc, !List.filter_app.
    rewrite (inert_no_base _ Hfiles), (inert_no_similar _ Hfiles), S2, S3.
    cbn [List.app List.filter]. rewrite B2, B3.
    rewrite (inert_no_base _ Hafter), (inert_no_similar _ Hafter).
    cbn [List.map List.last Cleanup.base_folder Cleanup.base_files
         Cleanup.similar_folders Cleanup.similar_files new_group List.app].
    rewrite List.app_nil_r, List.map_map. reflexivity.
Qed.

(** The groups of the report, as read back, section by section. *)
Lemma sections_of_groups (results : list Grouper.group) :
  List.Forall printable results ->
  let ls := List.map closed (List.flat_map (group_lines size_text fmt2) results) in
  List.Forall inert (body ls)
  /\ List.map group_of (sections ls) = List.map (parsed fmt2) results.
Proof.
  intros H. cbn zeta. induction H as [|g gs Hg Hgs (IHb & IHs)]; [by split|].
  cbn [List.flat_map]. rewrite List.map_app.
  change (group_lines size_text fmt2 g)
    with ("" :: separator :: group_tail size_text fmt2 g).
  cbn [List.map List.app body sections].
  destruct blank_inert as (B1 & B2 & B3).
  rewrite B1, separator_is_heading. split.
  { constructor; [exact blank_inert|constructor]. }
  set (rest := List.map closed (List.flat_map (group_lines size_text fmt2) gs)) in *.
  destruct (group_tail_kind g (body rest) Hg IHb) as [Hno Hgroup].
  cbn zeta in Hno, Hgroup.
  assert (Hno' : List.Forall (fun l => is_heading l = false)
                   (List.map closed (group_tail size_text fmt2 g))).
  { apply List.Forall_app in Hno. by destruct Hno. }
  rewrite (body_app _ _ Hno'), (sections_app _ _ Hno').
  cbn [List.map]. by rewrite Hgroup, IHs.
Qed.

End Sections.

(** The report of the finder, read by the cleanup script.  When the
    names of the groups hold no line end, the paths of their files are
    absolute, and sizes and scores are printed on one line, the report
    that [find_media_dupes.py] writes for any list of groups is read by
    [parse_report] without an exception as one group more than was
    written: first a group without a base folder, made of the title line
    of the report, then, for each group written and in the same order, a
    group named by its "Base Folder" line, with the text of its "Similar
    Folder" lines and with no file at all. *)
Theorem finder_report_read_by_cleanup
    (size_text : string -> option string) (fmt2 : Q -> string)
    (results : list Grouper.group) :
  prints_one_line size_text fmt2 ->
  List.Forall printable results ->
  parse_report (readlines (text_of (main_report size_text fmt2 results)))
  = Ok (new_group :: List.map (parsed fmt2) results).
Proof.
  intros Hprints Hres.
  rewrite text_of_main_report, readlines_unlines
    by (by apply report_lines_one_line).
  pose proof (parse_lines_before_groups
                (List.map closed (report_lines size_text fmt2 results))) as Hp.
  unfold report_lines in *. cbn [List.map] in *.
  cbn [orphan_similar sections] in Hp.
  rewrite title_is_heading in Hp. destruct Hp as (st & Hst & Hpush).
  unfold parse_report. rewrite Hst, Hpush.
  destruct blank_inert as (B1 & B2 & B3).
  cbn [body List.map]. rewrite B1.
  destruct results as [|g gs].
  - vm_compute. reflexivity.
  - destruct (sections_of_groups size_text fmt2 (g :: gs) Hres) as [Hb Hs].
    cbn zeta in Hb, Hs. rewrite Hs. by f_equal.
Qed.

Lemma finder_report_read_by_cleanup_applies :
  parse_report
    (readlines
       (text_of
          (main_report (fun _ => Some "1.00 GB") (fun _ => "0.95")
             (Grouper.find_similar_media_folders Difflib.ratio true
                Samples.moonlight_index))))
  = Ok (new_group
          :: List.map (parsed (fun _ => "0.95"))
               (Grouper.find_similar_media_folders Difflib.ratio true
                  Samples.moonlight_index)).
Proof.
  apply (finder_report_read_by_cleanup (fun _ => Some "1.00 GB") (fun _ => "0.95")).
  - split; [reflexivity|]. by intros f size [= <-].
  - vm_compute. repeat constructor.
Defined.

End RoundTripFacts.

(** ** From the scan to the groups *)

Module FinderFacts.
Import Py Grouper GrouperNotions GrouperShape Scanner ScannerNotions Samples
  ScannerFacts GrouperMore.

Lemma listed_under_In (name f : string) (e : entry) :
  List.In f (listed_under true name e)
  <-> path e = f /\ indexed true e = true
      /\ (get_parent_folder_name (path e) = name
          \/ get_grandparent_folder_name (path e) = name).
Proof.
  unfold listed_under. destruct (indexed true e); [|split; [intros []|by intros (_ & ? & _)]].
  rewrite List.in_app_iff. split.
  - intros [H|H].
    + destruct (String.eqb _ name) eqn:E in H; [|done].
      apply String.eqb_eq in E. destruct H as [<-|[]]. split; [done|]. split; [done|by left].
    + destruct (String.eqb _ name) eqn:E in H; [|done].
      apply String.eqb_eq in E. destruct H as [<-|[]]. split; [done|]. split; [done|by right].
  - intros (<- & _ & [H|H]).
    + left. rewrite H, String.eqb_refl. by left.
    + right. rewrite H, String.eqb_refl. by left.
Qed.

Lemma files_of_scan (entries : list entry) (name f : string) :
  List.In name (List.map fst (scan true entries)) ->
  List.In f (files_of (scan true entries) name)
  <-> exists e, List.In e entries /\ path e = f /\ indexed true e = true
                /\ (get_parent_folder_name f = name
                    \/ get_grandparent_folder_name f = name).
Proof.
  intros Hkey. unfold scan in *.
  assert (H0 : keys_ok []) by (split; [constructor|intros []]).
  assert (Hne : name <> "").
  { destruct (scan_from true entries [] "x" ltac:(done) H0) as [_ [_ Hno]].
    by intros ->. }
  destruct (scan_from true entries [] name Hne H0) as [-> _]. cbn [files_of List.app].
  rewrite List.in_flat_map. split.
  - intros (e & He & Hf). apply listed_under_In in Hf as (Hp & Hi & Hn).
    exists e. rewrite <- Hp. by repeat split.
  - intros (e & He & Hp & Hi & Hn). exists e. split; [done|].
    apply listed_under_In. rewrite Hp. by repeat split.
Qed.

(** The files of a group are the videos under its folders.  For a group
    that [scan_for_duplicates] returns, a path is in the file list of the
    group exactly when the scan met it as a readable regular video file
    whose parent folder or grandparent folder bears the name of a member
    of the group, base or similar. *)
Theorem group_files_lie_under_its_folders
    (ratio : string -> string -> Q) (entries : list entry) (g : group) (f : string) :
  List.In g (scan_for_duplicates ratio entries) ->
  List.In f (files g)
  <-> exists e, List.In e entries /\ path e = f
                /\ is_file e = true /\ is_video_file f = true /\ readable e = true
                /\ (List.In (get_parent_folder_name f) (members g)
                    \/ List.In (get_grandparent_folder_name f) (members g)).
Proof.
  intros Hg. unfold scan_for_duplicates in Hg.
  destruct (find_similar_media_folders_shape ratio true (scan true entries))
    as (_ & Hfrom & _).
  rewrite List.Forall_forall in Hfrom. destruct (Hfrom g Hg) as (Hb & Hs & _ & Hfiles).
  rewrite List.Forall_forall in Hs.
  assert (Hmem : forall m, List.In m (members g) ->
                           List.In m (List.map fst (scan true entries))).
  { intros m [<-|Hm]; [done|by apply Hs]. }
  assert (Hin : List.In f (files g)
                <-> exists m, List.In m (members g)
                              /\ List.In f (files_of (scan true entries) m)).
  { rewrite Hfiles, List.in_app_iff. unfold members. split.
    - intros [H|H]; [exists (base_folder g); split; [by left|done]|].
      apply List.in_concat in H as (l & Hl & Hf).
      apply List.in_map_iff in Hl as (m & <- & Hm). exists m. split; [by right|done].
    - intros (m & [<-|Hm] & Hf); [by left|]. right.
      apply List.in_concat. exists (files_of (scan true entries) m).
      split; [|done]. apply List.in_map_iff. by exists m. }
  rewrite Hin. split.
  - intros (m & Hm & Hf). apply (files_of_scan entries m f (Hmem m Hm)) in Hf
      as (e & He & Hp & Hi & Hn).
    exists e. unfold indexed in Hi. cbn [negb orb] in Hi.
    apply andb_true_iff in Hi as [Hi Hr]. apply andb_true_iff in Hi as [Hi1 Hi2].
    rewrite Hp in Hi2. repeat split; try done.
    destruct Hn as [Hn|Hn]; rewrite Hn; [by left|by right].
  - intros (e & He & Hp & H1 & H2 & H3 & [Hn|Hn]).
    + exists (get_parent_folder_name f). split; [done|].
      apply files_of_scan; [by apply Hmem|]. exists e.
      repeat split; try done; [|by left].
      unfold indexed. rewrite Hp, H1, H2, H3. reflexivity.
    + exists (get_grandparent_folder_name f). split; [done|].
      apply files_of_scan; [by apply Hmem|]. exists e.
      repeat split; try done; [|by right].
      unfold indexed. rewrite Hp, H1, H2, H3. reflexivity.
Qed.

Lemma group_files_lie_under_its_folders_applies :
  List.In "/b/Moonlights/film.mkv"
    (files
       {| base_folder := "Moonlight.1080p";
          similar_folders := ["Moonlight"; "Moonlights"];
          similarity_scores :=
            [Difflib.ratio "moonlight" "moonlight"; Difflib.ratio "moonlight" "moonlights"];
          files :=
            [ "/a/Moonlight/Moonlight.1080p/film.mkv";
              "/a/Moonlight/Moonlight.1080p/film.mkv";
              "/b/Moonlights/film.mkv" ] |})
  <-> exists e, List.In e scanned /\ path e = "/b/Moonlights/film.mkv"
                /\ is_file e = true /\ is_video_file "/b/Moonlights/film.mkv" = true
                /\ readable e = true
                /\ (List.In (get_parent_folder_name "/b/Moonlights/film.mkv")
                       ["Moonlight.1080p"; "Moonlight"; "Moonlights"]
                    \/ List.In (get_grandparent_folder_name "/b/Moonlights/film.mkv")
                         ["Moonlight.1080p"; "Moonlight"; "Moonlights"]).
Proof.
  apply (group_files_lie_under_its_folders Difflib.ratio scanned).
  vm_compute. left. reflexivity.
Defined.

End FinderFacts.
